(** * Mary Poppins: hashing, model registry, ensemble and classification

    A shallow embedding of the classification and hashing core of the
    platform (backend/services/hashing/service.py and
    backend/services/ai-classifier/{model_registry,ensemble,service}.py),
    and the properties its design document states about it.

    Conventions of the embedding.
    - A Python [float] is an exact rational ([Q]): the properties below are
      about which operations are applied to which operands, not about
      IEEE rounding, NaN or infinities, which are outside the model.
    - A Python [int] is a [Z]; [bytes] is a [list byte].
    - A Python exception is a value of [exn]; a call that may raise returns
      a [result].
    - A [dict] keeps its insertion order, so it is an association list with
      unique keys ([PyDict]); a [set] of strings is a [gset string].
    - The external collaborators (the ONNX runtime, PIL and numpy, the
      perceptual hash libraries, the PhotoDNA client, the hash database and
      the clock) are Section variables: total functions that may return
      [Raise]. *)

From Stdlib Require Import ZArith QArith Qround Qminmax Lqa Lia List String Ascii Bool.
From Stdlib Require Import Strings.Byte.
From stdpp Require Import base gmap strings list.
Import ListNotations.

Local Open Scope Z_scope.

(** ** Python exceptions and results *)

(** The exception classes the modelled code raises or lets through.
    [Exception] stands for any exception raised by a collaborator (all of
    them are caught by [except Exception]). *)
Inductive exn : Type :=
| ValueError (msg : string)
| RuntimeError (msg : string)
| KeyError (key : string)
| ZeroDivisionError (msg : string)
| Exception (msg : string).

(** [str(e)] for the exceptions above; [str(KeyError(k))] is [repr(k)]. *)
Definition exn_str (e : exn) : string :=
  match e with
  | ValueError m | RuntimeError m | ZeroDivisionError m | Exception m => m
  | KeyError k => "'" +:+ k +:+ "'"
  end.

Inductive result (A : Type) : Type :=
| Ok (a : A)
| Raise (e : exn).
Arguments Ok {A} a.
Arguments Raise {A} e.

(** Sequencing: the first exception raised ends the computation. The
    notation [x ← r; k] is stdpp's. *)
#[global]
Instance result_ret : MRet result := fun _ a => Ok a.
#[global]
Instance result_bind : MBind result := fun _ _ k r =>
  match r with
  | Ok a => k a
  | Raise e => Raise e
  end.

Definition raised {A : Type} (r : result A) : Prop :=
  match r with Ok _ => False | Raise _ => True end.

(** ** Builtins used by the hashing service *)

Module PyBuiltins.

(** Value of one hexadecimal digit, either case. *)
Definition hex_digit (c : ascii) : option Z :=
  let n := Z.of_N (N_of_ascii c) in
  if (48 <=? n) && (n <=? 57) then Some (n - 48)
  else if (97 <=? n) && (n <=? 102) then Some (n - 87)
  else if (65 <=? n) && (n <=? 70) then Some (n - 55)
  else None.

Fixpoint hex_digits (s : string) (acc : Z) : option Z :=
  match s with
  | EmptyString => Some acc
  | String c s' =>
      match hex_digit c with
      | Some d => hex_digits s' (16 * acc + d)
      | None => None
      end
  end.

(** [int(s, 16)] on strings of hexadecimal digits, which is what a hex
    digest is. The empty string and any other character raise ValueError
    here. (CPython also accepts a sign, a [0x] prefix, single underscores
    between digits and surrounding blanks; every statement below about
    parsed values is restricted to digit-only strings.) *)
Definition int16 (s : string) : result Z :=
  match s with
  | EmptyString =>
      Raise (ValueError "invalid literal for int() with base 16: ''")
  | _ =>
      match hex_digits s 0 with
      | Some v => Ok v
      | None =>
          Raise (ValueError
                   ("invalid literal for int() with base 16: '" +:+ s +:+ "'"))
      end
  end.

Fixpoint bin_pos (p : positive) : string :=
  match p with
  | xH => "1"
  | xO p' => bin_pos p' +:+ "0"
  | xI p' => bin_pos p' +:+ "1"
  end.

(** [bin(x)]. *)
Definition bin (x : Z) : string :=
  match x with
  | Z0 => "0b0"
  | Zpos p => "0b" +:+ bin_pos p
  | Zneg p => "-0b" +:+ bin_pos p
  end.

(** [s.count(c)] for a one-character needle [c]. *)
Fixpoint str_count (c : ascii) (s : string) : Z :=
  match s with
  | EmptyString => 0
  | String c' s' => (if Ascii.eqb c' c then 1 else 0) + str_count c s'
  end.

(** [zip(l1, l2)]: stops at the shorter list. *)
Fixpoint zip {A B : Type} (l1 : list A) (l2 : list B) : list (A * B) :=
  match l1, l2 with
  | a :: l1', b :: l2' => (a, b) :: zip l1' l2'
  | _, _ => []
  end.

End PyBuiltins.

(** ** Python floats as rationals, and [max]/[min] as Python computes them *)

Module PyNum.

Definition Qltb (x y : Q) : bool := negb (Qle_bool y x).

(** [max(a, b)]: the first argument unless the second is strictly greater. *)
Definition py_max (a b : Q) : Q := if Qltb a b then b else a.

(** [min(a, b)]: the first argument unless the second is strictly smaller. *)
Definition py_min (a b : Q) : Q := if Qltb b a then b else a.

(** [max(iterable, default=d)]. *)
Definition max_default (l : list Q) (d : Q) : Q :=
  match l with
  | [] => d
  | x :: l' => fold_left py_max l' x
  end.

(** [sum(iterable)]: left to right, from 0. *)
Definition py_sum (l : list Q) : Q := fold_left Qplus l 0%Q.

(** [round(x)] to an integer, ties to the even neighbour. *)
Definition round_half_even (x : Q) : Z :=
  let f := Qfloor x in
  let r := (x - inject_Z f)%Q in
  if Qltb r (1 # 2) then f
  else if Qltb (1 # 2) r then f + 1
  else if Z.even f then f else f + 1.

(** [round(x, 1)]: to one decimal place. *)
Definition round1 (x : Q) : Q :=
  (inject_Z (round_half_even (x * 10)) / 10)%Q.

End PyNum.

(** ** Insertion-ordered dictionaries with string keys *)

Module PyDict.

Definition dict (V : Type) : Type := list (string * V).

Section ops.
Context {V : Type}.

(** [d.get(k)], [None] when the key is missing. *)
Fixpoint get (d : dict V) (k : string) : option V :=
  match d with
  | [] => None
  | (k', v) :: d' => if String.eqb k' k then Some v else get d' k
  end.

(** [d.get(k, default)]. *)
Definition get_default (d : dict V) (k : string) (default : V) : V :=
  match get d k with Some v => v | None => default end.

(** [k in d]. *)
Definition contains (d : dict V) (k : string) : bool :=
  match get d k with Some _ => true | None => false end.

(** [d[k] = v]: an existing key keeps its place, a new one goes last. *)
Fixpoint set (d : dict V) (k : string) (v : V) : dict V :=
  match d with
  | [] => [(k, v)]
  | (k', v') :: d' =>
      if String.eqb k' k then (k', v) :: d' else (k', v') :: set d' k v
  end.

Definition keys (d : dict V) : list string := List.map fst d.
Definition values (d : dict V) : list V := List.map snd d.

(** [{k: v for (k, v) in items}]: later items overwrite earlier ones. *)
Definition of_items (items : list (string * V)) : dict V :=
  fold_left (fun d '(k, v) => set d k v) items [].

End ops.

(** [max(d, key=d.get)] on a non-empty dict of floats: the first key, in
    insertion order, whose value is maximal. *)
Fixpoint max_item (l : list (string * Q)) (best : string * Q) : string * Q :=
  match l with
  | [] => best
  | kv :: l' =>
      if PyNum.Qltb (snd best) (snd kv) then max_item l' kv
      else max_item l' best
  end.

Definition argmax (d : dict Q) : option string :=
  match d with
  | [] => None
  | kv :: l => Some (fst (max_item l kv))
  end.

End PyDict.

(** ** Perceptual hashing service: Hamming distance utilities *)

Module Hashing.
Import PyBuiltins.

Definition len_str (s : string) : Z := Z.of_nat (String.length s).
Definition len_bytes (b : list byte) : Z := Z.of_nat (List.length b).

(** [PerceptualHashService.hamming_distance_hex]. *)
Definition hamming_distance_hex (hash1 hash2 : string) : result Z :=
  if negb (len_str hash1 =? len_str hash2)
  then Raise (ValueError "Hash lengths must match")
  else
    val1 ← int16 hash1;
    val2 ← int16 hash2;
    let xor := Z.lxor val1 val2 in
    Ok (str_count "1" (bin xor)).

Definition byte_val (b : byte) : Z := Z.of_N (Byte.to_N b).

(** [PerceptualHashService.hamming_distance_bytes]: the loop over
    [zip(hash1, hash2)] accumulating into [distance]. *)
Definition hamming_distance_bytes (hash1 hash2 : list byte) : result Z :=
  if negb (len_bytes hash1 =? len_bytes hash2)
  then Raise (ValueError "Hash lengths must match")
  else
    Ok (fold_left
          (fun distance '(b1, b2) =>
             distance + str_count "1" (bin (Z.lxor (byte_val b1) (byte_val b2))))
          (zip hash1 hash2) 0).

(** *** Hash computation and similarity search *)

(** [HashResult], without its [computed_at] timestamp. *)
Record HashResult : Type := mkHashResult {
  sha256 : string;
  phash : option string;
  pdq_hash : option string;
  pdq_quality : option Z;
  photodna_hash : option (list byte);
  errors : list string
}.

Record SimilarityMatch : Type := mkSimilarityMatch {
  match_sha256 : string;
  hash_type : string;
  distance : Z;
  matched_database : string;
  classification : string;
  confidence : Q
}.

(** One entry of a hash database answer: a dict with the keys [distance],
    [database], [classification] and, optionally, [confidence]. *)
Record DbMatch : Type := mkDbMatch {
  db_distance : Z;
  db_database : string;
  db_classification : string;
  db_confidence : option Q
}.

(** [HashDatabaseInterface]: the three searches, each of which may raise. *)
Record HashDatabaseInterface : Type := mkHashDatabase {
  search_phash : string -> Z -> result (list DbMatch);
  search_pdq : string -> Z -> result (list DbMatch);
  search_photodna : list byte -> Z -> result (list DbMatch)
}.

Record HashSettings : Type := mkHashSettings {
  enable_phash : bool;
  enable_pdq : bool;
  enable_photodna : bool;
  hamming_distance_threshold : Z
}.

(** [PerceptualHashService]: [_photodna] is [None] or a client whose
    [compute_hash] may raise. *)
Record PerceptualHashService : Type := mkPerceptualHashService {
  _settings : HashSettings;
  _hash_db : HashDatabaseInterface;
  _photodna : option (list byte -> result (list byte))
}.

Definition _hamming_threshold (svc : PerceptualHashService) : Z :=
  hamming_distance_threshold (_settings svc).

Definition with_phash (r : HashResult) (h : string) : HashResult :=
  mkHashResult (sha256 r) (Some h) (pdq_hash r) (pdq_quality r)
               (photodna_hash r) (errors r).

Definition with_pdq (r : HashResult) (h : string) (q : Z) : HashResult :=
  mkHashResult (sha256 r) (phash r) (Some h) (Some q)
               (photodna_hash r) (errors r).

Definition with_photodna (r : HashResult) (h : list byte) : HashResult :=
  mkHashResult (sha256 r) (phash r) (pdq_hash r) (pdq_quality r)
               (Some h) (errors r).

(** [result.errors.append(msg)]. *)
Definition errors_append (r : HashResult) (msg : string) : HashResult :=
  mkHashResult (sha256 r) (phash r) (pdq_hash r) (pdq_quality r)
               (photodna_hash r) (errors r ++ [msg]).

(** The 16 lowercase hexadecimal digits. *)
Definition hex_char (d : Z) : ascii :=
  if d <? 10 then ascii_of_N (Z.to_N (48 + d)) else ascii_of_N (Z.to_N (87 + d)).

(** [format(n, "02x")] for [0 <= n < 256], the range of an 8-bit chunk. *)
Definition format_02x (n : Z) : string :=
  String (hex_char (n / 16)) (String (hex_char (n mod 16)) EmptyString).

(** [int("".join(str(int(b)) for b in bits), 2)]. *)
Definition int_of_bits (bits : list bool) : Z :=
  fold_left (fun acc (b : bool) => 2 * acc + (if b then 1 else 0)) bits 0.

(** [hash_vector[i:i+8] for i in range(0, len(hash_vector), 8)]. *)
Fixpoint chunks8 (fuel : nat) (v : list bool) : list (list bool) :=
  match fuel, v with
  | S fuel', _ :: _ => firstn 8 v :: chunks8 fuel' (skipn 8 v)
  | _, _ => []
  end.

Definition pdq_hex (hash_vector : list bool) : string :=
  fold_right String.append EmptyString
    (List.map (fun c => format_02x (int_of_bits c))
       (chunks8 (List.length hash_vector) hash_vector)).

Section service.

(** [str(imagehash.phash(Image.open(BytesIO(content)), hash_size=8))]. *)
Variable imagehash_phash : list byte -> result string.
(** [pdqhash.compute] on the decoded RGB array: the 256 hash bits and the
    quality, already an integer. *)
Variable pdqhash_compute : list byte -> result (list bool * Z).

Definition _compute_phash (content : list byte) : result string :=
  imagehash_phash content.

Definition _compute_pdq (content : list byte) : result (string * Z) :=
  '(hash_vector, quality) ← pdqhash_compute content;
  Ok (pdq_hex hash_vector, quality).

(** [PerceptualHashService.compute_all_hashes]. Each [try] block updates
    the result on success and appends to [errors] on any exception. *)
Definition compute_all_hashes (svc : PerceptualHashService)
    (content : list byte) (sha : string) : HashResult :=
  let result := mkHashResult sha None None None None [] in
  let result :=
    if enable_phash (_settings svc) then
      match _compute_phash content with
      | Ok h => with_phash result h
      | Raise e => errors_append result ("phash: " +:+ exn_str e)
      end
    else result in
  let result :=
    if enable_pdq (_settings svc) then
      match _compute_pdq content with
      | Ok (pdq, quality) => with_pdq result pdq quality
      | Raise e => errors_append result ("pdq: " +:+ exn_str e)
      end
    else result in
  let result :=
    match enable_photodna (_settings svc), _photodna svc with
    | true, Some compute_hash =>
        match compute_hash content with
        | Ok h => with_photodna result h
        | Raise e => errors_append result ("photodna: " +:+ exn_str e)
        end
    | _, _ => result
    end in
  result.

End service.

(** Truth value of an optional string or byte string: [None] and the
    empty value are false. *)
Definition truthy_str (o : option string) : option string :=
  match o with
  | Some EmptyString | None => None
  | Some s => Some s
  end.

Definition truthy_bytes (o : option (list byte)) : option (list byte) :=
  match o with
  | Some [] | None => None
  | Some b => Some b
  end.

Definition phash_match (sha : string) (m : DbMatch) : SimilarityMatch :=
  mkSimilarityMatch sha "phash" (db_distance m) (db_database m)
    (db_classification m) (1 - inject_Z (db_distance m) / 64)%Q.

Definition pdq_match (sha : string) (m : DbMatch) : SimilarityMatch :=
  mkSimilarityMatch sha "pdq" (db_distance m) (db_database m)
    (db_classification m) (1 - inject_Z (db_distance m) / 256)%Q.

Definition photodna_match (sha : string) (m : DbMatch) : SimilarityMatch :=
  mkSimilarityMatch sha "photodna" (db_distance m) (db_database m)
    (db_classification m)
    (match db_confidence m with Some c => c | None => 0.9%Q end).

(** [PerceptualHashService.search_known_databases]: an exception of the
    hash database is not caught. *)
Definition search_known_databases (svc : PerceptualHashService)
    (hash_result : HashResult) : result (list SimilarityMatch) :=
  let matches : list SimilarityMatch := [] in
  matches ←
    match truthy_str (phash hash_result) with
    | Some h =>
        phash_matches ← search_phash (_hash_db svc) h (_hamming_threshold svc);
        Ok (matches ++ List.map (phash_match (sha256 hash_result)) phash_matches)
    | None => Ok matches
    end;
  matches ←
    match truthy_str (pdq_hash hash_result) with
    | Some h =>
        pdq_matches ← search_pdq (_hash_db svc) h (_hamming_threshold svc);
        Ok (matches ++ List.map (pdq_match (sha256 hash_result)) pdq_matches)
    | None => Ok matches
    end;
  matches ←
    match truthy_bytes (photodna_hash hash_result) with
    | Some h =>
        pdna_matches ← search_photodna (_hash_db svc) h (_hamming_threshold svc);
        Ok (matches ++ List.map (photodna_match (sha256 hash_result)) pdna_matches)
    | None => Ok matches
    end;
  Ok matches.

(** *** What the design document calls the Hamming distance *)

(** Number of set bits of [x] among its [w] low bits. *)
Definition set_bits (w : nat) (x : Z) : Z :=
  Z.of_nat (List.length (List.filter (fun i => Z.testbit x (Z.of_nat i)) (seq 0 w))).

(** Number of [1] digits of a positive number, by its binary digits. *)
Fixpoint pos_ones (p : positive) : Z :=
  match p with
  | xH => 1
  | xO p' => pos_ones p'
  | xI p' => 1 + pos_ones p'
  end.

Definition ones (x : Z) : Z :=
  match x with
  | Zpos p => pos_ones p
  | _ => 0
  end.

(** A hex-encoded hash: a non-empty string of hexadecimal digits. *)
Fixpoint all_hex (s : string) : bool :=
  match s with
  | EmptyString => true
  | String c s' => match hex_digit c with Some _ => all_hex s' | None => false end
  end.

Definition is_hex_hash (s : string) : bool :=
  match s with EmptyString => false | _ => all_hex s end.

(** What one algorithm leaves in the result: its value when it returned,
    nothing when it raised. *)
Definition ok_value {A : Type} (r : result A) : option A :=
  match r with Ok a => Some a | Raise _ => None end.

(** The entries one algorithm adds to [errors]: none when it returned, one
    tagged with its name when it raised. *)
Definition error_entry {A : Type} (tag : string) (r : result A) : list string :=
  match r with
  | Ok _ => []
  | Raise e => [tag +:+ ": " +:+ exn_str e]
  end.

(** The PhotoDNA answer of the hash database for a hash result: the
    entries the collaborator supplies, none when the search is not made. *)
Definition photodna_answer (svc : PerceptualHashService)
    (hash_result : HashResult) : list DbMatch :=
  match truthy_bytes (photodna_hash hash_result) with
  | Some h =>
      match search_photodna (_hash_db svc) h (_hamming_threshold svc) with
      | Ok rs => rs
      | Raise _ => []
      end
  | None => []
  end.

(** The confidence of the match [m] is one the collaborator supplied for
    an entry with the same distance, database and classification. *)
Definition confidence_supplied (svc : PerceptualHashService)
    (hash_result : HashResult) (m : SimilarityMatch) : Prop :=
  exists r, In r (photodna_answer svc hash_result)
            /\ distance m = db_distance r
            /\ matched_database m = db_database r
            /\ classification m = db_classification r
            /\ db_confidence r = Some (confidence m).

(** Bytewise XOR of two byte strings, as integers below 256. *)
Definition bytes_xor (h1 h2 : list byte) : list Z :=
  List.map (fun '(b1, b2) => Z.lxor (byte_val b1) (byte_val b2)) (zip h1 h2).

(** Number of set bits of a sequence of 8-bit values. *)
Definition set_bits_bytes (l : list Z) : Z :=
  fold_right (fun x acc => set_bits 8 x + acc) 0 l.

End Hashing.

(** ** Model registry *)

Module Registry.

Record ModelDescriptor : Type := mkModelDescriptor {
  model_id : string;
  name : string;
  version : string;
  model_type : string;
  task : string;
  input_size : Z * Z;
  preprocessing : string;
  categories : list string;
  weight : Q;
  enabled : bool;
  model_path : string;
  source_url : string;
  license : string;
  loaded : bool;
  total_inferences : Z;
  avg_latency_ms : Q;
  (** [None] or the [datetime] of the last inference, as a timestamp. *)
  last_inference : option Z
}.

(** A catalog entry: the dataclass defaults for the last four fields. *)
Definition catalog_entry (id nm ver ty tk : string) (size : Z * Z)
    (pre : string) (cats : list string) (w : Q) (en : bool)
    (path url lic : string) : ModelDescriptor :=
  mkModelDescriptor id nm ver ty tk size pre cats w en path url lic
    false 0 0%Q None.

Definition BUILTIN_MODELS : list ModelDescriptor := [
  catalog_entry "nsfw_detector_v3" "Internal NSFW Detector" "v3" "onnx"
    "nsfw_detection" (224, 224) "imagenet"
    ["explicit_sexual"; "suggestive"; "violence_graphic";
     "violence_mild"; "drugs"; "safe"]
    0.30%Q true "/models/nsfw_detector_v3.onnx" "" "Proprietary";
  catalog_entry "yahoo_open_nsfw" "Yahoo Open NSFW" "1.0" "onnx"
    "nsfw_detection" (224, 224) "caffe" ["nsfw"; "sfw"]
    0.30%Q true "/models/yahoo_open_nsfw.onnx"
    "https://github.com/yahoo/open_nsfw" "BSD-2-Clause";
  catalog_entry "nudenet_v3" "NudeNet v3" "v3" "onnx"
    "nsfw_detection" (320, 320) "raw_0_1"
    ["safe"; "female_genitalia_covered"; "female_genitalia_exposed";
     "male_genitalia_exposed"; "buttocks_exposed";
     "female_breast_exposed"; "female_breast_covered";
     "anus_exposed"; "belly_exposed"; "feet_exposed";
     "armpits_exposed"; "face_male"; "face_female"]
    0.25%Q true "/models/nudenet_v3.onnx"
    "https://github.com/notAI-tech/NudeNet" "Apache-2.0";
  catalog_entry "clip_safety" "CLIP Safety Classifier" "1.0" "onnx"
    "nsfw_detection" (224, 224) "clip" ["unsafe"; "safe"]
    0.15%Q false "/models/clip_safety.onnx"
    "https://github.com/LAION-AI/CLIP-based-NSFW-Detector" "MIT";
  catalog_entry "nsfl_detector_v1" "NSFL Detector" "v1" "onnx"
    "nsfl_detection" (224, 224) "imagenet"
    ["gore"; "violence_graphic"; "shock"; "disturbing"; "safe"]
    1.0%Q true "/models/nsfl_detector_v1.onnx" "" "Proprietary";
  catalog_entry "age_estimator_v2" "Age Estimator" "v2" "onnx"
    "age_estimation" (224, 224) "imagenet" []
    1.0%Q true "/models/age_estimator_v2.onnx" "" "Proprietary";
  catalog_entry "scene_classifier_v1" "Scene Classifier" "v1" "onnx"
    "scene_classification" (299, 299) "imagenet"
    ["indoor_bedroom"; "indoor_bathroom"; "indoor_school";
     "indoor_office"; "outdoor_playground"; "outdoor_street";
     "indoor_generic"; "outdoor_generic"]
    1.0%Q true "/models/scene_classifier_v1.onnx" "" "Proprietary"
].

(** Field updates of a descriptor object. *)
Definition set_loaded (d : ModelDescriptor) (b : bool) : ModelDescriptor :=
  mkModelDescriptor (model_id d) (name d) (version d) (model_type d) (task d)
    (input_size d) (preprocessing d) (categories d) (weight d) (enabled d)
    (model_path d) (source_url d) (license d)
    b (total_inferences d) (avg_latency_ms d) (last_inference d).

Definition set_total_inferences (d : ModelDescriptor) (n : Z) : ModelDescriptor :=
  mkModelDescriptor (model_id d) (name d) (version d) (model_type d) (task d)
    (input_size d) (preprocessing d) (categories d) (weight d) (enabled d)
    (model_path d) (source_url d) (license d)
    (loaded d) n (avg_latency_ms d) (last_inference d).

Definition set_avg_latency_ms (d : ModelDescriptor) (a : Q) : ModelDescriptor :=
  mkModelDescriptor (model_id d) (name d) (version d) (model_type d) (task d)
    (input_size d) (preprocessing d) (categories d) (weight d) (enabled d)
    (model_path d) (source_url d) (license d)
    (loaded d) (total_inferences d) a (last_inference d).

Definition set_last_inference (d : ModelDescriptor) (t : option Z) : ModelDescriptor :=
  mkModelDescriptor (model_id d) (name d) (version d) (model_type d) (task d)
    (input_size d) (preprocessing d) (categories d) (weight d) (enabled d)
    (model_path d) (source_url d) (license d)
    (loaded d) (total_inferences d) (avg_latency_ms d) t.

(** Values of the status record [health_check] returns. *)
Inductive pyval : Type :=
| PyStr (s : string)
| PyBool (b : bool)
| PyInt (n : Z)
| PyFloat (x : Q).

Section registry.

(** An ONNX inference session and an input tensor are opaque. *)
Context {Session Tensor : Type}.

(** [ort.InferenceSession(model_path, providers=providers)]. *)
Variable InferenceSession : string -> list string -> result Session.
(** [session.run(None, {session.get_inputs()[0].name: input_tensor})[0][0]]. *)
Variable session_run : Session -> Tensor -> result (list Q).

Record ModelRegistry : Type := mkModelRegistry {
  _models : PyDict.dict ModelDescriptor;
  _sessions : gmap string Session
}.

(** [ModelRegistry()]. *)
Definition new_registry : ModelRegistry := mkModelRegistry [] ∅.

(** [ModelRegistry.register]. *)
Definition register (reg : ModelRegistry) (descriptor : ModelDescriptor)
    : ModelRegistry :=
  mkModelRegistry (PyDict.set (_models reg) (model_id descriptor) descriptor)
    (_sessions reg).

(** [ModelRegistry.register_builtins]. *)
Definition register_builtins (reg : ModelRegistry) : ModelRegistry :=
  fold_left register BUILTIN_MODELS reg.

(** [ModelRegistry.load_model]. *)
Definition load_model (reg : ModelRegistry) (id device : string)
    : result unit * ModelRegistry :=
  match PyDict.get (_models reg) id with
  | None => (Raise (ValueError ("Unknown model: " +:+ id)), reg)
  | Some descriptor =>
      if String.eqb (model_type descriptor) "onnx" then
        let providers :=
          if String.eqb device "cuda"
          then ["CUDAExecutionProvider"; "CPUExecutionProvider"]
          else ["CPUExecutionProvider"] in
        match InferenceSession (model_path descriptor) providers with
        | Raise e => (Raise e, reg)
        | Ok session =>
            (Ok tt,
             mkModelRegistry
               (PyDict.set (_models reg) id (set_loaded descriptor true))
               (<[id := session]> (_sessions reg)))
        end
      else (Ok tt, reg)
  end.

(** [ModelRegistry.unload_model]. *)
Definition unload_model (reg : ModelRegistry) (id : string) : ModelRegistry :=
  mkModelRegistry
    (match PyDict.get (_models reg) id with
     | Some descriptor => PyDict.set (_models reg) id (set_loaded descriptor false)
     | None => _models reg
     end)
    (delete id (_sessions reg)).

(** [ModelRegistry.predict]. [elapsed_ms] is the time the two readings of
    the monotonic clock measure around the run, [utcnow] the wall clock
    after it. The registry is returned on every path, as the exception
    leaves it. *)
Definition predict (reg : ModelRegistry) (id : string) (input_tensor : Tensor)
    (elapsed_ms : Q) (utcnow : Z) : result (list Q) * ModelRegistry :=
  match _sessions reg !! id with
  | None => (Raise (RuntimeError ("Model " +:+ id +:+ " is not loaded")), reg)
  | Some session =>
      match PyDict.get (_models reg) id with
      | None => (Raise (KeyError id), reg)
      | Some descriptor =>
          if String.eqb (model_type descriptor) "onnx" then
            match session_run session input_tensor with
            | Raise e => (Raise e, reg)
            | Ok output =>
                let n := total_inferences descriptor + 1 in
                let descriptor := set_total_inferences descriptor n in
                if n =? 0 then
                  (Raise (ZeroDivisionError "float division by zero"),
                   mkModelRegistry (PyDict.set (_models reg) id descriptor)
                     (_sessions reg))
                else
                  let descriptor :=
                    set_avg_latency_ms descriptor
                      ((avg_latency_ms descriptor * inject_Z (n - 1) + elapsed_ms)
                       / inject_Z n)%Q in
                  let descriptor := set_last_inference descriptor (Some utcnow) in
                  (Ok output,
                   mkModelRegistry (PyDict.set (_models reg) id descriptor)
                     (_sessions reg))
            end
          else
            (Raise (RuntimeError
                      ("Unsupported model type: " +:+ model_type descriptor)),
             reg)
      end
  end.

(** [ModelRegistry.get_models_for_task]. *)
Definition get_models_for_task (reg : ModelRegistry) (tk : string)
    : list ModelDescriptor :=
  List.filter (fun m => String.eqb (task m) tk && enabled m)
    (PyDict.values (_models reg)).

(** [ModelRegistry.health_check]. *)
Definition health_check (reg : ModelRegistry) (id : string) : PyDict.dict pyval :=
  match PyDict.get (_models reg) id with
  | None => [("model_id", PyStr id); ("status", PyStr "unknown")]
  | Some descriptor =>
      [("model_id", PyStr id);
       ("name", PyStr (name descriptor));
       ("loaded", PyBool (loaded descriptor));
       ("enabled", PyBool (enabled descriptor));
       ("total_inferences", PyInt (total_inferences descriptor));
       ("avg_latency_ms", PyFloat (PyNum.round1 (avg_latency_ms descriptor)))]
  end.

(** The [loaded] flag of every registered descriptor tells whether the
    registry holds a session for it, as [load_model] and [unload_model]
    leave them. *)
Definition sessions_consistent (reg : ModelRegistry) : Prop :=
  forall id d,
    PyDict.get (_models reg) id = Some d ->
    (loaded d = true <-> is_Some (_sessions reg !! id)).

(** Two registries dispatch alike: same sessions, same model types. *)
Definition same_dispatch (reg reg' : ModelRegistry) : Prop :=
  _sessions reg' = _sessions reg
  /\ forall id,
       model_type <$> PyDict.get (_models reg') id
       = model_type <$> PyDict.get (_models reg) id.

End registry.

End Registry.

(** ** Preprocessing adapter *)

Module Preprocessing.

Section adapter.

(** A decoded image array and a model input tensor are opaque. *)
Context {Array Tensor : Type}.

(** [np.array(Image.open(BytesIO(content)).convert("RGB").resize(...))]:
    raises on bytes that are no image. *)
Variable decode_resize : list byte -> Z * Z -> result Array.
(** The four normalisations, arithmetic on the array. *)
Variables _imagenet _caffe _raw_0_1 _clip : Array -> Tensor.

(** [PreprocessingAdapter.preprocess]. *)
Definition preprocess (content : list byte) (target_size : Z * Z)
    (method : string) : result Tensor :=
  arr ← decode_resize content target_size;
  if String.eqb method "imagenet" then Ok (_imagenet arr)
  else if String.eqb method "caffe" then Ok (_caffe arr)
  else if String.eqb method "raw_0_1" then Ok (_raw_0_1 arr)
  else if String.eqb method "clip" then Ok (_clip arr)
  else Raise (ValueError ("Unknown preprocessing method: " +:+ method)).

End adapter.

End Preprocessing.

(** ** Ensemble classifier *)

Module Ensemble.
Import PyNum.

Definition CANONICAL_NSFW_CATEGORIES : list string :=
  ["explicit_sexual"; "suggestive"; "violence_graphic";
   "violence_mild"; "drugs"; "safe"].

Definition CATEGORY_MAPPINGS
    : PyDict.dict (PyDict.dict (list (string * Q))) := [
  ("yahoo_open_nsfw", [
     ("nsfw", [("explicit_sexual", 0.7%Q); ("suggestive", 0.3%Q)]);
     ("sfw", [("safe", 1.0%Q)])]);
  ("nudenet_v3", [
     ("female_genitalia_exposed", [("explicit_sexual", 1.0%Q)]);
     ("male_genitalia_exposed", [("explicit_sexual", 1.0%Q)]);
     ("female_genitalia_covered", [("suggestive", 0.8%Q)]);
     ("buttocks_exposed", [("explicit_sexual", 0.8%Q); ("suggestive", 0.2%Q)]);
     ("female_breast_exposed", [("explicit_sexual", 0.9%Q); ("suggestive", 0.1%Q)]);
     ("female_breast_covered", [("suggestive", 1.0%Q)]);
     ("anus_exposed", [("explicit_sexual", 1.0%Q)]);
     ("belly_exposed", [("suggestive", 0.5%Q); ("safe", 0.5%Q)]);
     ("feet_exposed", [("safe", 1.0%Q)]);
     ("armpits_exposed", [("safe", 1.0%Q)]);
     ("face_male", [("safe", 1.0%Q)]);
     ("face_female", [("safe", 1.0%Q)]);
     ("safe", [("safe", 1.0%Q)])]);
  ("clip_safety", [
     ("unsafe", [("explicit_sexual", 0.4%Q); ("suggestive", 0.3%Q);
                 ("violence_graphic", 0.3%Q)]);
     ("safe", [("safe", 1.0%Q)])])
].

(** One entry of [model_results]: a dict with these six keys. *)
Record ModelResult : Type := mkModelResult {
  model_id : string;
  model_name : string;
  version : string;
  weight : Q;
  raw_scores : PyDict.dict Q;
  normalized_scores : PyDict.dict Q
}.

Record EnsembleResult : Type := mkEnsembleResult {
  task : string;
  final_scores : PyDict.dict Q;
  model_results : list ModelResult;
  agreement_score : Q;
  method : string
}.

(** [EnsembleClassifier._normalize_scores]. *)
Definition _normalize_scores (id : string) (raw : PyDict.dict Q)
    : PyDict.dict Q :=
  match PyDict.get CATEGORY_MAPPINGS id with
  | None => raw
  | Some mapping =>
      let normalized : PyDict.dict Q :=
        PyDict.of_items (List.map (fun cat => (cat, 0.0%Q)) CANONICAL_NSFW_CATEGORIES) in
      fold_left
        (fun normalized '(category, score) =>
           let targets := PyDict.get_default mapping category [] in
           fold_left
             (fun normalized '(target_cat, w) =>
                match PyDict.get normalized target_cat with
                | Some current =>
                    PyDict.set normalized target_cat (py_max current (score * w)%Q)
                | None => normalized
                end)
             targets normalized)
        raw normalized
  end.

(** The set [all_categories] built by [_weighted_average]. *)
Definition all_categories (results : list ModelResult) : gset string :=
  fold_left
    (fun acc r => acc ∪ list_to_set (PyDict.keys (normalized_scores r)))
    results ∅.

(** [sum(r["weight"] for r in model_results)]. *)
Definition total_weight (results : list ModelResult) : Q :=
  py_sum (List.map weight results).

(** [sum(r["normalized_scores"].get(category, 0.0) * r["weight"] ...)]. *)
Definition weighted_sum (results : list ModelResult) (category : string) : Q :=
  py_sum (List.map
            (fun r => (PyDict.get_default (normalized_scores r) category 0.0 * weight r)%Q)
            results).

(** [EnsembleClassifier._weighted_average]. The set is visited in the
    order of [elements]; Python's order is unspecified. *)
Definition _weighted_average (results : list ModelResult) : PyDict.dict Q :=
  fold_left
    (fun final category =>
       PyDict.set final category
         (if Qltb 0 (total_weight results)
          then (weighted_sum results category / total_weight results)%Q
          else 0.0%Q))
    (elements (all_categories results)) [].

(** [EnsembleClassifier._majority_vote]. *)
Definition _majority_vote (results : list ModelResult) : PyDict.dict Q :=
  let votes : PyDict.dict Z :=
    fold_left
      (fun votes r =>
         match PyDict.argmax (normalized_scores r) with
         | Some top => PyDict.set votes top (PyDict.get_default votes top 0 + 1)
         | None => votes
         end)
      results [] in
  let total_votes := Z.of_nat (List.length results) in
  List.map (fun '(cat, count) => (cat, (inject_Z count / inject_Z total_votes)%Q)) votes.

(** [max(scores.values()) if scores else 0.0]. *)
Definition max_score (scores : PyDict.dict Q) : Q :=
  max_default (PyDict.values scores) 0.0.

(** [EnsembleClassifier._max_confidence]. *)
Definition _max_confidence (results : list ModelResult) : PyDict.dict Q :=
  let '(best_result, _) :=
    fold_left
      (fun '(best_result, best_confidence) r =>
         if Qltb best_confidence (max_score (normalized_scores r))
         then (Some r, max_score (normalized_scores r))
         else (best_result, best_confidence))
      results (None, (-1.0)%Q) in
  match best_result with
  | Some r => normalized_scores r
  | None => []
  end.

Section agreement.

(** [float(np.std(xs))]: the population standard deviation. *)
Variable np_std : list Q -> Q.

(** [EnsembleClassifier._compute_agreement]. *)
Definition _compute_agreement (results : list ModelResult) : Q :=
  if (Z.of_nat (List.length results) <=? 1)%Z then 1.0%Q
  else
    let top_categories := omap (fun r => PyDict.argmax (normalized_scores r)) results in
    match top_categories with
    | [] => 0.0%Q
    | first :: _ =>
        if forallb (fun c => String.eqb c first) top_categories then
          let top_scores :=
            List.map (fun r => max_score (normalized_scores r))
              (List.filter
                 (fun r => match normalized_scores r with [] => false | _ => true end)
                 results) in
          match top_scores with
          | [] => 1.0%Q
          | _ => py_max 0.0 (py_min 1.0 (1.0 - np_std top_scores))%Q
          end
        else
          (* the counts are positive, so 0 is neutral for their max *)
          let counts :=
            List.map
              (fun c => Z.of_nat (List.length (List.filter (String.eqb c) top_categories)))
              (elements (list_to_set top_categories : gset string)) in
          (inject_Z (fold_right Z.max 0%Z counts)
           / inject_Z (Z.of_nat (List.length top_categories)))%Q
    end.

End agreement.

Section classifier.

Context {Session Tensor Array : Type}.

Variable session_run : Session -> Tensor -> result (list Q).
Variable decode_resize : list byte -> Z * Z -> result Array.
Variables _imagenet _caffe _raw_0_1 _clip : Array -> Tensor.
Variable np_std : list Q -> Q.
(** The clocks read by [predict] for a given model: the elapsed time of
    its run and the wall clock after it. A model is run at most once per
    call of [classify_ensemble]. *)
Variable clock_elapsed_ms : string -> Q.
Variable clock_utcnow : string -> Z.

Abbreviation registry := (@Registry.ModelRegistry Session).

(** The body of [for descriptor in models], on the results collected so
    far and the registry. An unloaded model is skipped; an exception of
    preprocessing or inference is logged and the model contributes
    nothing. *)
Definition run_model (content : list byte)
    (acc : list ModelResult * registry) (descriptor : Registry.ModelDescriptor)
    : list ModelResult * registry :=
  let '(results, reg) := acc in
  if negb (Registry.loaded descriptor) then (results, reg)
  else
    match
      Preprocessing.preprocess decode_resize _imagenet _caffe _raw_0_1 _clip
        content (Registry.input_size descriptor) (Registry.preprocessing descriptor)
    with
    | Raise _ => (results, reg)
    | Ok preprocessed =>
        match
          Registry.predict session_run reg (Registry.model_id descriptor)
            preprocessed
            (clock_elapsed_ms (Registry.model_id descriptor))
            (clock_utcnow (Registry.model_id descriptor))
        with
        | (Raise _, reg') => (results, reg')
        | (Ok raw_output, reg') =>
            let scores : PyDict.dict Q :=
              PyDict.of_items
                (PyBuiltins.zip (Registry.categories descriptor) raw_output) in
            (results ++
               [mkModelResult (Registry.model_id descriptor)
                  (Registry.name descriptor) (Registry.version descriptor)
                  (Registry.weight descriptor) scores
                  (_normalize_scores (Registry.model_id descriptor) scores)],
             reg')
        end
    end.

(** [EnsembleClassifier.classify_ensemble], with the registry it leaves. *)
Definition classify_ensemble (reg : registry) (content : list byte)
    (tk meth : string) : EnsembleResult * registry :=
  let models := Registry.get_models_for_task reg tk in
  match models with
  | [] => (mkEnsembleResult tk [] [] 1.0%Q meth, reg)
  | _ =>
      let '(results, reg') := fold_left (run_model content) models ([], reg) in
      match results with
      | [] => (mkEnsembleResult tk [] [] 0.0%Q meth, reg')
      | _ =>
          let final :=
            if String.eqb meth "weighted_average" then _weighted_average results
            else if String.eqb meth "majority_vote" then _majority_vote results
            else if String.eqb meth "max_confidence" then _max_confidence results
            else _weighted_average results in
          let agreement := _compute_agreement np_std results in
          (mkEnsembleResult tk final results agreement meth, reg')
      end
  end.

(** The model cannot contribute a result: it is not loaded, its
    preprocessing raises, the registry has no session for it or does not
    hold it as an ONNX model, or the run of its session raises. *)
Definition invocation_fails (reg : registry) (content : list byte)
    (descriptor : Registry.ModelDescriptor) : Prop :=
  Registry.loaded descriptor = false
  \/ raised (Preprocessing.preprocess decode_resize _imagenet _caffe _raw_0_1 _clip
               content (Registry.input_size descriptor)
               (Registry.preprocessing descriptor))
  \/ Registry._sessions reg !! Registry.model_id descriptor = None
  \/ Registry.model_type
       <$> PyDict.get (Registry._models reg) (Registry.model_id descriptor)
     <> Some "onnx"
  \/ exists session preprocessed,
       Registry._sessions reg !! Registry.model_id descriptor = Some session
       /\ Preprocessing.preprocess decode_resize _imagenet _caffe _raw_0_1 _clip
            content (Registry.input_size descriptor)
            (Registry.preprocessing descriptor) = Ok preprocessed
       /\ raised (session_run session preprocessed).

End classifier.

(** *** The weighted average of the design document *)

(** The sum of a list of numbers. *)
Definition Qsum (l : list Q) : Q := fold_right Qplus 0%Q l.

(** A quotient exists when the denominator is not zero. *)
Definition quotient (n d : Q) : option Q :=
  if Qeq_bool d 0 then None else Some (n / d)%Q.

(** The normalized score a model reports for a category, 0 when it
    reports none. *)
Definition score_or_zero (r : ModelResult) (cat : string) : Q :=
  match PyDict.get (normalized_scores r) cat with
  | Some s => s
  | None => 0%Q
  end.

(** [Σ(normalized_score_i × weight_i) / Σ(weight_i)] over all the models. *)
Definition spec_weighted_score (results : list ModelResult) (cat : string)
    : option Q :=
  quotient (Qsum (List.map (fun r => (score_or_zero r cat * weight r)%Q) results))
           (Qsum (List.map weight results)).

(** The category is present in the normalized output of some model. *)
Definition reported (results : list ModelResult) (cat : string) : Prop :=
  exists r, In r results /\ In cat (PyDict.keys (normalized_scores r)).

End Ensemble.

(** ** AI classification service: risk score, decision tree, review routing *)

Module Classifier.
Import PyNum.

Inductive ContentCategory : Type :=
| SAFE
| SUGGESTIVE
| EXPLICIT_SEXUAL
| VIOLENCE_MILD
| VIOLENCE_GRAPHIC
| DRUGS
| CSAM_SUSPECT
| NSFL_SUSPECT.

Record ClassificationScore : Type := mkClassificationScore {
  category : string;
  score : Q;
  model_name : string;
  model_version : string
}.

Record AgeEstimation : Type := mkAgeEstimation {
  estimated_age : Q;
  age_range_low : Q;
  age_range_high : Q;
  confidence : Q;
  is_minor_likely : bool;
  age_model_name : string
}.

(** The settings the three functions below read. *)
Record ClassifierSettings : Type := mkClassifierSettings {
  confidence_threshold : Q;
  csam_alert_threshold : Q
}.

(** The defaults of config/settings.py. *)
Definition default_settings : ClassifierSettings :=
  mkClassifierSettings 0.7%Q 0.85%Q.

(** [max((s.score for s in scores if s.category == cat), default=0.0)]. *)
Definition category_max (scores : list ClassificationScore) (cat : string) : Q :=
  max_default
    (List.map score (List.filter (fun s => String.eqb (category s) cat) scores))
    0.0.

Definition risky_scenes : list string :=
  ["scene_indoor_bedroom"; "scene_indoor_bathroom"; "scene_indoor_school"].

Definition is_risky_scene (s : ClassificationScore) : bool :=
  existsb (String.eqb (category s)) risky_scenes.

(** The [minor_score] of [_compute_csam_risk]. *)
Definition minor_score_of (age_estimation : option AgeEstimation) : Q :=
  match age_estimation with
  | Some a =>
      if is_minor_likely a then
        let age_factor := py_max 0 ((18 - estimated_age a) / 18)%Q in
        (confidence a * age_factor)%Q
      else 0.0%Q
  | None => 0.0%Q
  end.

(** The [scene_risk] of [_compute_csam_risk]. *)
Definition scene_risk_of (scene_scores : list ClassificationScore) : Q :=
  max_default (List.map score (List.filter is_risky_scene scene_scores)) 0.0.

(** [AIClassifierService._compute_csam_risk]. *)
Definition _compute_csam_risk (nsfw_scores : list ClassificationScore)
    (age_estimation : option AgeEstimation)
    (scene_scores : list ClassificationScore) : Q :=
  let explicit_score := category_max nsfw_scores "explicit_sexual" in
  let suggestive_score := category_max nsfw_scores "suggestive" in
  let minor_score := minor_score_of age_estimation in
  let scene_risk := scene_risk_of scene_scores in
  let csam_score :=
    (0.35 * explicit_score
     + 0.40 * minor_score
     + 0.15 * scene_risk
     + 0.10 * (suggestive_score * minor_score))%Q in
  py_min 1.0 (py_max 0.0 csam_score).

(** [{s.category: s.score for s in nsfw_scores}]. *)
Definition score_map (nsfw_scores : list ClassificationScore) : PyDict.dict Q :=
  PyDict.of_items (List.map (fun s => (category s, score s)) nsfw_scores).

(** [AIClassifierService._determine_classification]. *)
Definition _determine_classification (settings : ClassifierSettings)
    (nsfw_scores : list ClassificationScore) (csam_score : Q) : ContentCategory :=
  if Qle_bool (csam_alert_threshold settings) csam_score then CSAM_SUSPECT
  else
    let m := score_map nsfw_scores in
    let above (cat : string) :=
      Qltb (confidence_threshold settings) (PyDict.get_default m cat 0%Q) in
    if above "explicit_sexual" then EXPLICIT_SEXUAL
    else if above "violence_graphic" then VIOLENCE_GRAPHIC
    else if above "violence_mild" then VIOLENCE_MILD
    else if above "suggestive" then SUGGESTIVE
    else if above "drugs" then DRUGS
    else SAFE.

Definition is_csam_suspect (c : ContentCategory) : bool :=
  match c with CSAM_SUSPECT => true | _ => false end.

(** [AIClassifierService._should_route_to_review]. *)
Definition _should_route_to_review (classification : ContentCategory)
    (csam_score nsfw_score : Q) (age_est : option AgeEstimation) : bool :=
  if is_csam_suspect classification then true
  else if Qltb 0.5 csam_score then true
  else
    match age_est with
    | Some a => if is_minor_likely a && Qltb 0.3 nsfw_score then true else false
    | None => false
    end.

(** *** The formulas of the design document *)

(** [clamp(x, lo, hi)]. *)
Definition clamp (x lo hi : Q) : Q :=
  if Qltb x lo then lo else if Qltb hi x then hi else x.

(** [v] is the greatest element of [l], or [d] when [l] is empty. *)
Definition greatest_or (l : list Q) (d v : Q) : Prop :=
  match l with
  | [] => (v == d)%Q
  | _ => In v l /\ (forall x, In x l -> (x <= v)%Q)
  end.

(** [minor_score = confidence * max(0, (18 - age)/18)] when a minor is
    likely, 0 otherwise. *)
Definition spec_minor_score (age_estimation : option AgeEstimation) : Q :=
  match age_estimation with
  | Some a =>
      if is_minor_likely a
      then (confidence a * Qmax 0 ((18 - estimated_age a) / 18))%Q
      else 0%Q
  | None => 0%Q
  end.

(** The score of [cat] in the dict of [_determine_classification]: that of
    the last entry with this category, 0 when there is none. *)
Fixpoint last_score (nsfw_scores : list ClassificationScore) (cat : string)
    (default : Q) : Q :=
  match nsfw_scores with
  | [] => default
  | s :: rest =>
      last_score rest cat (if String.eqb (category s) cat then score s else default)
  end.

(** A decision list: the label of the first condition that holds, and the
    default when none does. *)
Fixpoint first_match (rules : list (bool * ContentCategory))
    (default : ContentCategory) : ContentCategory :=
  match rules with
  | [] => default
  | (true, c) :: _ => c
  | (false, _) :: rest => first_match rest default
  end.

(** The priority order of the primary classification. *)
Definition spec_classification (settings : ClassifierSettings)
    (nsfw_scores : list ClassificationScore) (csam_score : Q) : ContentCategory :=
  let above cat :=
    Qltb (confidence_threshold settings) (last_score nsfw_scores cat 0) in
  first_match
    [(Qle_bool (csam_alert_threshold settings) csam_score, CSAM_SUSPECT);
     (above "explicit_sexual", EXPLICIT_SEXUAL);
     (above "violence_graphic", VIOLENCE_GRAPHIC);
     (above "violence_mild", VIOLENCE_MILD);
     (above "suggestive", SUGGESTIVE);
     (above "drugs", DRUGS)]
    SAFE.

End Classifier.

(** ** Concrete collaborators and states used to exercise the model *)

Module Examples.

(** A runtime whose sessions always load and always answer [0.8, 0.2]. *)
Definition stub_InferenceSession (path : string) (providers : list string)
    : result unit := Ok tt.

Definition stub_session_run (session tensor : unit) : result (list Q) :=
  Ok [0.8%Q; 0.2%Q].

(** A runtime whose sessions load and whose every run fails. *)
Definition failing_session_run (session tensor : unit) : result (list Q) :=
  Raise (Exception "onnxruntime: invalid input").

(** The built-in catalog with the Yahoo model loaded on the CPU. *)
Definition loaded_registry : @Registry.ModelRegistry unit :=
  snd (Registry.load_model stub_InferenceSession
         (Registry.register_builtins Registry.new_registry)
         "yahoo_open_nsfw" "cpu").

(** The registered descriptor of the Yahoo model in that registry. *)
Definition yahoo_loaded : Registry.ModelDescriptor :=
  Registry.set_loaded
    (Registry.catalog_entry "yahoo_open_nsfw" "Yahoo Open NSFW" "1.0" "onnx"
       "nsfw_detection" (224, 224) "caffe" ["nsfw"; "sfw"]
       0.30%Q true "/models/yahoo_open_nsfw.onnx"
       "https://github.com/yahoo/open_nsfw" "BSD-2-Clause")
    true.

(** The same catalog with the Yahoo and NudeNet models loaded. *)
Definition two_loaded_registry : @Registry.ModelRegistry unit :=
  snd (Registry.load_model stub_InferenceSession loaded_registry
         "nudenet_v3" "cpu").



(** A decoder that accepts every image, with trivial tensors. *)
Definition stub_decode_resize (content : list byte) (size : Z * Z)
    : result unit := Ok tt.

Definition stub_normalize (arr : unit) : unit := tt.

Definition stub_np_std (xs : list Q) : Q := 0%Q.

Definition stub_clock_elapsed_ms (id : string) : Q := 16%Q.

Definition stub_clock_utcnow (id : string) : Z := 1700000000.

End Examples.

(** ** Further notions used to state properties of the hashing service *)

Module HashingExt.

(** Number of positions at which two bit vectors differ. *)
Definition differing_bits (v w : list bool) : Z :=
  Z.of_nat (List.length
              (List.filter (fun '(x, y) => xorb x y) (PyBuiltins.zip v w))).

(** Number of algorithms [compute_all_hashes] attempts for a service. *)
Definition attempted (svc : Hashing.PerceptualHashService) : Z :=
  Z.b2z (Hashing.enable_phash (Hashing._settings svc))
  + Z.b2z (Hashing.enable_pdq (Hashing._settings svc))
  + Z.b2z (Hashing.enable_photodna (Hashing._settings svc)
           && match Hashing._photodna svc with Some _ => true | None => false end).

Definition present {A : Type} (o : option A) : Z :=
  match o with Some _ => 1 | None => 0 end.

(** Number of hash fields a result holds. *)
Definition populated (r : Hashing.HashResult) : Z :=
  present (Hashing.phash r) + present (Hashing.pdq_hash r)
  + present (Hashing.photodna_hash r).

(** The answers of the pHash and PDQ searches for a hash result: none when
    the hash is absent or empty. *)
Definition phash_search (svc : Hashing.PerceptualHashService)
    (hr : Hashing.HashResult) : result (list Hashing.DbMatch) :=
  match Hashing.truthy_str (Hashing.phash hr) with
  | Some h => Hashing.search_phash (Hashing._hash_db svc) h
                (Hashing._hamming_threshold svc)
  | None => Ok []
  end.

Definition pdq_search (svc : Hashing.PerceptualHashService)
    (hr : Hashing.HashResult) : result (list Hashing.DbMatch) :=
  match Hashing.truthy_str (Hashing.pdq_hash hr) with
  | Some h => Hashing.search_pdq (Hashing._hash_db svc) h
                (Hashing._hamming_threshold svc)
  | None => Ok []
  end.

Definition photodna_search (svc : Hashing.PerceptualHashService)
    (hr : Hashing.HashResult) : result (list Hashing.DbMatch) :=
  match Hashing.truthy_bytes (Hashing.photodna_hash hr) with
  | Some h => Hashing.search_photodna (Hashing._hash_db svc) h
                (Hashing._hamming_threshold svc)
  | None => Ok []
  end.

End HashingExt.

(** ** Model registry: listing, and repeated inference *)

Module RegistryExt.
Import Registry.

(** The execution providers [load_model] asks for on a device. *)
Definition providers_for (device : string) : list string :=
  if String.eqb device "cuda"
  then ["CUDAExecutionProvider"; "CPUExecutionProvider"]
  else ["CPUExecutionProvider"].

Section registry.
Context {Session Tensor : Type}.
Variable session_run : Session -> Tensor -> result (list Q).

(** [ModelRegistry.list_models]: [task] is [None] or a string, and an
    empty string is as false as [None]. *)
Definition list_models (reg : @ModelRegistry Session) (tk : option string)
    (enabled_only : bool) : list ModelDescriptor :=
  let models := PyDict.values (_models reg) in
  let models :=
    match tk with
    | Some (String c s) =>
        List.filter (fun m => String.eqb (task m) (String c s)) models
    | Some EmptyString | None => models
    end in
  let models :=
    if enabled_only then List.filter (fun m => enabled m) models else models in
  models.

(** [predict] called once per measured latency, the results dropped:
    the registry after the calls. *)
Definition predict_each (reg : @ModelRegistry Session) (id : string)
    (tensor : Tensor) (samples : list (Q * Z)) : @ModelRegistry Session :=
  fold_left
    (fun reg '(elapsed_ms, utcnow) =>
       snd (predict session_run reg id tensor elapsed_ms utcnow))
    samples reg.

End registry.

End RegistryExt.

(** ** Ensemble: checks on the mapping table, counts *)

Module EnsembleExt.
Import Ensemble.

(** Every weight of a category mapping lies in [0, 1]. *)
Definition weights_in_unit (mapping : PyDict.dict (list (string * Q))) : bool :=
  forallb
    (fun targets : list (string * Q) =>
       forallb (fun tw => Qle_bool 0 (snd tw) && Qle_bool (snd tw) 1) targets)
    (PyDict.values mapping).

(** Number of models whose normalized scores are not empty: the models
    that cast a vote. *)
Definition voters (results : list ModelResult) : Z :=
  Z.of_nat
    (List.length
       (List.filter
          (fun r => match normalized_scores r with [] => false | _ => true end)
          results)).

(** Number of models whose top category, the first key of maximal
    normalized score, is [cat]. *)
Definition votes_for (results : list ModelResult) (cat : string) : Z :=
  Z.of_nat
    (List.length
       (List.filter
          (fun r =>
             match PyDict.argmax (normalized_scores r) with
             | Some top => String.eqb top cat
             | None => false
             end)
          results)).

(** What the two loops of [_normalize_scores] keep true of the dict being
    filled: its keys, and the range of its values. *)
Definition normalized_inv (M : Q) (keys : list string) (d : PyDict.dict Q) : Prop :=
  PyDict.keys d = keys
  /\ forall k v, PyDict.get d k = Some v -> (0 <= v <= M)%Q.

(** What a collected model result owes to the descriptor it was run for. *)
Definition produced_by (d : Registry.ModelDescriptor) (r : ModelResult) : Prop :=
  Registry.loaded d = true
  /\ model_id r = Registry.model_id d
  /\ model_name r = Registry.name d
  /\ version r = Registry.version d
  /\ weight r = Registry.weight d
  /\ normalized_scores r = _normalize_scores (model_id r) (raw_scores r)
  /\ (forall cat, In cat (PyDict.keys (raw_scores r)) ->
        In cat (Registry.categories d)).

End EnsembleExt.

(** ** The classification pipeline (services/ai-classifier/service.py) *)

Module ClassifierPipeline.
Import PyNum Classifier.

Record ClassificationResult : Type := mkClassificationResult {
  sha256 : string;
  primary_classification : ContentCategory;
  nsfw_score : Q;
  csam_score : Q;
  age_estimation : option AgeEstimation;
  all_scores : list ClassificationScore;
  processing_time_ms : Z;
  requires_human_review : bool;
  nsfl_score : Q;
  model_agreement : Q;
  ensemble_details : PyDict.dict Registry.pyval;
  classified_at : Z
}.

(** [output[i]] on a one-dimensional array, for an index that is not
    negative. Out of range numpy raises IndexError, an [Exception]; the
    text of its message is abridged. *)
Definition index (output : list Q) (i : nat) : result Q :=
  match nth_error output i with
  | Some x => Ok x
  | None => Raise (Exception "index is out of bounds for axis 0")
  end.

(** [for i, category in enumerate(labels): scores.append(... output[i] ...)],
    from position [i] on: the first index out of range ends the loop with
    its exception. *)
Fixpoint enumerate_scores (mk : string -> Q -> ClassificationScore)
    (labels : list string) (i : nat) (output : list Q)
    : result (list ClassificationScore) :=
  match labels with
  | [] => Ok []
  | label :: rest =>
      x ← index output i;
      scores ← enumerate_scores mk rest (S i) output;
      Ok (mk label x :: scores)
  end.

Definition scene_labels : list string :=
  ["indoor_bedroom"; "indoor_bathroom"; "indoor_school";
   "indoor_office"; "outdoor_playground"; "outdoor_street";
   "indoor_generic"; "outdoor_generic"].

Definition nsfl_categories : list string :=
  ["gore"; "violence_graphic"; "shock"; "disturbing"; "safe"].

Section service.

(** A model input tensor is opaque. *)
Context {Tensor : Type}.

Variable settings : ClassifierSettings.
(** [self._settings.nsfw_categories]. *)
Variable nsfw_categories : list string.
(** [self._preprocess_image]: raises on bytes that are no image. *)
Variable _preprocess_image : list byte -> Z * Z -> result Tensor.
(** The [predict] of the three models loaded by [initialize]. *)
Variables _nsfw_model _age_model _scene_model : Tensor -> result (list Q).
(** [self._nsfl_model]: [None] when no NSFL model is configured or when
    loading it failed. *)
Variable _nsfl_model : option (Tensor -> result (list Q)).
(** The clocks read by [classify]: the elapsed milliseconds and the
    wall clock of the result. *)
Variable clock_elapsed_ms : Z.
Variable clock_utcnow : Z.

(** [AIClassifierService._run_nsfw_detection]. *)
Definition _run_nsfw_detection (content : list byte)
    : result (list ClassificationScore) :=
  preprocessed ← _preprocess_image content (224, 224);
  output ← _nsfw_model preprocessed;
  enumerate_scores
    (fun category x => mkClassificationScore category x "nsfw_detector" "v3")
    nsfw_categories 0 output.

(** [AIClassifierService._run_age_estimation]. *)
Definition _run_age_estimation (content : list byte)
    : result (option AgeEstimation) :=
  preprocessed ← _preprocess_image content (224, 224);
  output ← _age_model preprocessed;
  face_detected ← index output 2;
  if Qltb face_detected 0.5 then Ok None
  else
    estimated_age ← index output 0;
    confidence ← index output 1;
    let margin := py_max 2.0 ((1.0 - confidence) * 10)%Q in
    Ok (Some (mkAgeEstimation
                estimated_age
                (py_max 0 (estimated_age - margin))%Q
                (estimated_age + margin)%Q
                confidence
                (Qltb estimated_age 18 && Qltb 0.6 confidence)
                "age_estimator_v2")).

(** [AIClassifierService._run_scene_classification]. *)
Definition _run_scene_classification (content : list byte)
    : result (list ClassificationScore) :=
  preprocessed ← _preprocess_image content (299, 299);
  output ← _scene_model preprocessed;
  enumerate_scores
    (fun label x =>
       mkClassificationScore ("scene_" +:+ label) x "scene_classifier" "v1")
    scene_labels 0 output.

(** [AIClassifierService._run_nsfl_detection]: the labels beyond the end
    of the output are skipped. *)
Definition _run_nsfl_detection (content : list byte)
    : result (list ClassificationScore) :=
  match _nsfl_model with
  | None => Ok []
  | Some nsfl_predict =>
      preprocessed ← _preprocess_image content (224, 224);
      output ← nsfl_predict preprocessed;
      Ok (List.map
            (fun '(category, x) =>
               mkClassificationScore ("nsfl_" +:+ category) x "nsfl_detector" "v1")
            (PyBuiltins.zip nsfl_categories output))
  end.

(** The [nsfw_score] of [classify]. *)
Definition nsfw_score_of (nsfw_scores : list ClassificationScore) : Q :=
  max_default
    (List.map score
       (List.filter
          (fun s => existsb (String.eqb (category s)) ["explicit_sexual"; "suggestive"])
          nsfw_scores))
    0.0.

(** The [nsfl_score] of [classify]. *)
Definition nsfl_score_of (nsfl_scores : list ClassificationScore) : Q :=
  max_default
    (List.map score
       (List.filter
          (fun s => String.prefix "nsfl_" (category s)
                    && negb (String.eqb (category s) "nsfl_safe"))
          nsfl_scores))
    0.0.

(** [AIClassifierService.classify]. *)
Definition classify (content : list byte) (sha : string)
    : result ClassificationResult :=
  nsfw_scores ← _run_nsfw_detection content;
  let nsfw_score := nsfw_score_of nsfw_scores in
  nsfl_scores ← _run_nsfl_detection content;
  let nsfl_score := nsfl_score_of nsfl_scores in
  age_result ← _run_age_estimation content;
  scene_scores ← _run_scene_classification content;
  let csam_score := _compute_csam_risk nsfw_scores age_result scene_scores in
  let primary := _determine_classification settings nsfw_scores csam_score in
  let requires_review :=
    _should_route_to_review primary csam_score nsfw_score age_result in
  Ok (mkClassificationResult sha primary nsfw_score csam_score age_result
        (nsfw_scores ++ nsfl_scores ++ scene_scores)
        clock_elapsed_ms requires_review nsfl_score 1.0 [] clock_utcnow).

End service.

(** No minor is likely: no face was found, or the estimate does not flag
    one. *)
Definition no_minor_likely (age : option AgeEstimation) : Prop :=
  match age with
  | Some a => is_minor_likely a = false
  | None => True
  end.

(** Stub collaborators for the examples: a preprocessing that accepts any
    bytes, and models of fixed output. *)
Definition stub_preprocess_image (content : list byte) (size : Z * Z) : result unit :=
  Ok tt.
Definition stub_nsfw_model (t : unit) : result (list Q) :=
  Ok [0.9%Q; 0.4%Q; 0.1%Q].
Definition stub_age_model (t : unit) : result (list Q) :=
  Ok [12%Q; 0.9%Q; 1%Q].
Definition stub_noface_model (t : unit) : result (list Q) :=
  Ok [30%Q; 0.2%Q; 0.1%Q].
Definition stub_scene_model (t : unit) : result (list Q) :=
  Ok [0.7%Q; 0.1%Q; 0.05%Q; 0.05%Q; 0.02%Q; 0.03%Q; 0.03%Q; 0.02%Q].
Definition stub_nsfl_model (t : unit) : result (list Q) :=
  Ok [0.2%Q; 0.6%Q; 0.1%Q; 0.05%Q; 0.95%Q].
Definition stub_nsfw_categories : list string :=
  ["explicit_sexual"; "suggestive"; "safe"].

End ClassifierPipeline.
(** * Properties *)

(** ** Comparisons, maxima and sums of scores *)

Module PyNumFacts.
Import PyNum.

Lemma Qltb_lt x y : Qltb x y = true <-> (x < y)%Q.
Proof.
  unfold Qltb. rewrite negb_true_iff.
  destruct (Qle_bool y x) eqn:E.
  - apply Qle_bool_iff in E. split; [discriminate|]. intros H. lra.
  - split; [intros _|reflexivity].
    apply Qnot_le_lt. intros H. apply Qle_bool_iff in H. congruence.
Qed.

Lemma Qltb_ge x y : Qltb x y = false <-> (y <= x)%Q.
Proof.
  unfold Qltb. rewrite negb_false_iff. apply Qle_bool_iff.
Qed.

(** Case analysis on a comparison, with the order facts in context. *)
Ltac case_Qltb x y :=
  let E := fresh "E" in
  destruct (Qltb x y) eqn:E;
  [apply Qltb_lt in E | apply Qltb_ge in E].

Lemma py_max_Qmax a b : (py_max a b == Qmax a b)%Q.
Proof.
  unfold py_max. case_Qltb a b.
  - symmetry. apply Q.max_r. lra.
  - symmetry. apply Q.max_l. exact E.
Qed.

Lemma py_max_cases a b :
  (py_max a b = a /\ (b <= a)%Q) \/ (py_max a b = b /\ (a < b)%Q).
Proof. unfold py_max. case_Qltb a b; auto. Qed.

(** The running maximum of a list is one of its elements, the starting
    value included, and bounds all of them. *)
Lemma fold_py_max_greatest l : forall x,
  In (fold_left py_max l x) (x :: l)
  /\ (forall y, In y (x :: l) -> (y <= fold_left py_max l x)%Q).
Proof.
  induction l as [|a l IH]; intros x; cbn [fold_left].
  - split; [left; reflexivity|]. intros y [<-|[]]. lra.
  - destruct (py_max_cases x a) as [(E & Hle)|(E & Hlt)]; rewrite E;
      destruct (IH x) as (Hin & Hub); destruct (IH a) as (Hin' & Hub').
    + split.
      * destruct Hin as [Hin|Hin]; [left; exact Hin|right; right; exact Hin].
      * intros y [<-|[<-|Hy]].
        -- apply Hub. left. reflexivity.
        -- assert ((x <= fold_left py_max l x)%Q) by (apply Hub; left; reflexivity).
           lra.
        -- apply Hub. right. exact Hy.
    + split.
      * right. exact Hin'.
      * intros y [<-|Hy]; [|apply Hub'; exact Hy].
        assert ((a <= fold_left py_max l a)%Q) by (apply Hub'; left; reflexivity).
        lra.
Qed.

End PyNumFacts.

(** ** Dictionaries *)

Module PyDictFacts.
Import PyDict.

Section facts.
Context {V : Type}.
Implicit Types (d : dict V) (k : string) (v : V).

Lemma get_set_eq d k v : get (set d k v) k = Some v.
Proof.
  induction d as [|[k' v'] d IH]; cbn [set get].
  - rewrite String.eqb_refl. reflexivity.
  - destruct (String.eqb k' k) eqn:E; cbn [get]; rewrite E; [reflexivity|exact IH].
Qed.

Lemma get_set_ne d k k' v : k <> k' -> get (set d k v) k' = get d k'.
Proof.
  intros Hne. induction d as [|[k0 v0] d IH]; cbn [set get].
  - destruct (String.eqb k k') eqn:E; [|reflexivity].
    apply String.eqb_eq in E. contradiction.
  - destruct (String.eqb k0 k) eqn:E; cbn [get]; [|rewrite IH; reflexivity].
    apply String.eqb_eq in E. subst k0.
    destruct (String.eqb k k') eqn:E'; [|reflexivity].
    apply String.eqb_eq in E'. contradiction.
Qed.

Lemma get_set d k k' v :
  get (set d k v) k' = if String.eqb k k' then Some v else get d k'.
Proof.
  destruct (String.eqb k k') eqn:E.
  - apply String.eqb_eq in E. subst. apply get_set_eq.
  - apply String.eqb_neq in E. apply get_set_ne, E.
Qed.

(** Assigning to a key keeps the keys in place. *)
Lemma keys_set_present d k v v0 :
  get d k = Some v0 -> keys (set d k v) = keys d.
Proof.
  unfold keys. induction d as [|[k' v'] d IH]; cbn [set get List.map]; [discriminate|].
  destruct (String.eqb k' k) eqn:E; intros H; cbn [List.map fst]; [reflexivity|].
  rewrite IH by exact H. reflexivity.
Qed.

End facts.

End PyDictFacts.

(** ** Hamming distance *)

Module HashingFacts.
Import PyBuiltins Hashing.

Lemma str_count_app c s1 s2 :
  str_count c (s1 +:+ s2) = str_count c s1 + str_count c s2.
Proof.
  induction s1 as [|c' s1 IH]; simpl; [reflexivity|].
  rewrite IH. lia.
Qed.

Lemma str_count_bin_pos p : str_count "1" (bin_pos p) = pos_ones p.
Proof.
  induction p as [p IH|p IH|]; simpl; rewrite ?str_count_app, ?IH; simpl; lia.
Qed.

Lemma str_count_bin x : 0 <= x -> str_count "1" (bin x) = ones x.
Proof.
  destruct x as [|p|p]; intros Hx; [reflexivity| |lia].
  unfold bin. rewrite str_count_app, str_count_bin_pos. reflexivity.
Qed.

Lemma ones_div2 x : 0 <= x -> ones x = Z.b2z (Z.odd x) + ones (Z.div2 x).
Proof.
  destruct x as [|[p|p|]|p]; intros Hx; simpl; lia.
Qed.

Lemma testbit_succ_div2 x i :
  Z.testbit x (Z.of_nat (S i)) = Z.testbit (Z.div2 x) (Z.of_nat i).
Proof.
  rewrite Z.div2_spec, Z.shiftr_spec by lia. f_equal. lia.
Qed.

Lemma set_bits_succ w x :
  set_bits (S w) x = Z.b2z (Z.testbit x 0) + set_bits w (Z.div2 x).
Proof.
  unfold set_bits. rewrite <- cons_seq, <- seq_shift.
  assert (E : List.filter (fun i => Z.testbit x (Z.of_nat i)) (List.map S (seq 0 w))
              = List.map S (List.filter (fun i => Z.testbit (Z.div2 x) (Z.of_nat i)) (seq 0 w))).
  { induction (seq 0 w) as [|i l IH]; [reflexivity|].
    cbn [List.map List.filter]. rewrite testbit_succ_div2, IH.
    destruct (Z.testbit (Z.div2 x) (Z.of_nat i)); reflexivity. }
  cbn [List.filter]. change (Z.of_nat 0) with 0.
  destruct (Z.testbit x 0); cbn [List.length Z.b2z];
    rewrite E, length_map, ?Nat2Z.inj_succ; lia.
Qed.

(** The digits [1] that [bin] prints are the set bits. *)
Lemma ones_set_bits w : forall x, 0 <= x < 2 ^ Z.of_nat w -> ones x = set_bits w x.
Proof.
  induction w as [|w IH]; intros x Hx.
  - change (2 ^ Z.of_nat 0) with 1 in Hx. assert (x = 0) as -> by lia. reflexivity.
  - rewrite set_bits_succ, ones_div2, Z.bit0_odd by lia.
    rewrite IH; [reflexivity|].
    rewrite Nat2Z.inj_succ, Z.pow_succ_r in Hx by lia.
    rewrite Z.div2_div. split.
    + apply Z.div_pos; lia.
    + apply Z.div_lt_upper_bound; lia.
Qed.

Lemma lxor_bound n a b :
  0 <= n -> 0 <= a < 2 ^ n -> 0 <= b < 2 ^ n -> 0 <= Z.lxor a b < 2 ^ n.
Proof.
  intros Hn Ha Hb.
  assert (H0 : 0 <= Z.lxor a b) by (apply Z.lxor_nonneg; lia).
  split; [exact H0|].
  destruct (Z.eq_dec (Z.lxor a b) 0) as [->|Hne].
  - apply Z.pow_pos_nonneg; lia.
  - assert (Hn' : 0 < n).
    { destruct (Z.eq_dec n 0) as [->|]; [|lia].
      change (2 ^ 0) with 1 in Ha, Hb.
      assert (a = 0) as -> by lia. assert (b = 0) as -> by lia.
      contradiction Hne. reflexivity. }
    apply Z.log2_lt_pow2; [lia|].
    pose proof (Z.log2_lxor a b (proj1 Ha) (proj1 Hb)) as Hl.
    assert (Z.log2 a < n).
    { destruct (Z.eq_dec a 0) as [->|]; [simpl; lia|apply Z.log2_lt_pow2; lia]. }
    assert (Z.log2 b < n).
    { destruct (Z.eq_dec b 0) as [->|]; [simpl; lia|apply Z.log2_lt_pow2; lia]. }
    lia.
Qed.

Lemma hex_digit_range c d : hex_digit c = Some d -> 0 <= d < 16.
Proof.
  unfold hex_digit. intros H.
  repeat match type of H with
         | (if ?b then _ else _) = _ => destruct b eqn:?
         end; inversion H; subst; lia.
Qed.

Lemma hex_digits_bound s : forall acc,
  all_hex s = true -> 0 <= acc ->
  exists v, hex_digits s acc = Some v
            /\ acc * 16 ^ Z.of_nat (String.length s) <= v
               < (acc + 1) * 16 ^ Z.of_nat (String.length s).
Proof.
  induction s as [|c s IH]; intros acc Hs Hacc;
    cbn [hex_digits all_hex String.length] in *.
  - exists acc. split; [reflexivity|]. change (16 ^ Z.of_nat 0) with 1. lia.
  - destruct (hex_digit c) as [d|] eqn:Hd; [|discriminate].
    apply hex_digit_range in Hd.
    destruct (IH (16 * acc + d) Hs ltac:(lia)) as (v & Hv & Hb).
    exists v. split; [exact Hv|].
    rewrite Nat2Z.inj_succ, Z.pow_succ_r by lia.
    assert (0 < 16 ^ Z.of_nat (String.length s)) by (apply Z.pow_pos_nonneg; lia).
    nia.
Qed.

(** A hex hash of [n] digits parses to a number of [4 n] bits. *)
Lemma int16_hex s :
  is_hex_hash s = true ->
  exists v, int16 s = Ok v /\ 0 <= v < 2 ^ Z.of_nat (4 * String.length s).
Proof.
  intros Hs. destruct s as [|c s]; [discriminate|].
  unfold is_hex_hash in Hs.
  destruct (hex_digits_bound (String c s) 0 Hs ltac:(lia)) as (v & Hv & Hb).
  exists v. unfold int16. rewrite Hv. split; [reflexivity|].
  replace (2 ^ Z.of_nat (4 * String.length (String c s)))
    with (16 ^ Z.of_nat (String.length (String c s))); [lia|].
  rewrite Nat2Z.inj_mul, Z.pow_mul_r by lia. reflexivity.
Qed.

Lemma len_str_eqb a b :
  (len_str a =? len_str b) = true <-> String.length a = String.length b.
Proof. unfold len_str. rewrite Z.eqb_eq. lia. Qed.

Lemma hamming_hex_set_bits a b va vb :
  String.length a = String.length b ->
  int16 a = Ok va -> int16 b = Ok vb ->
  0 <= va < 2 ^ Z.of_nat (4 * String.length a) ->
  0 <= vb < 2 ^ Z.of_nat (4 * String.length a) ->
  hamming_distance_hex a b
  = Ok (set_bits (4 * String.length a) (Z.lxor va vb)).
Proof.
  intros Hlen Ha Hb Hva Hvb. unfold hamming_distance_hex.
  apply len_str_eqb in Hlen. rewrite Hlen, Ha, Hb. simpl.
  pose proof (lxor_bound (Z.of_nat (4 * String.length a)) va vb
                ltac:(lia) Hva Hvb) as Hx.
  rewrite str_count_bin by lia.
  rewrite (ones_set_bits (4 * String.length a)) by exact Hx. reflexivity.
Qed.

Lemma set_bits_zero w : set_bits w 0 = 0.
Proof.
  unfold set_bits. induction (seq 0 w) as [|i l IH]; simpl; [reflexivity|].
  rewrite Z.testbit_0_l. exact IH.
Qed.

Lemma hamming_hex_mismatch a b :
  String.length a <> String.length b ->
  hamming_distance_hex a b = Raise (ValueError "Hash lengths must match").
Proof.
  intros Hlen. unfold hamming_distance_hex.
  destruct (len_str a =? len_str b) eqn:E; [|reflexivity].
  apply len_str_eqb in E. contradiction.
Qed.

Lemma byte_val_range b : 0 <= byte_val b < 2 ^ Z.of_nat 8.
Proof.
  unfold byte_val. pose proof (Byte.to_N_bounded b).
  change (2 ^ Z.of_nat 8) with 256. lia.
Qed.

Lemma count_byte_xor b1 b2 :
  str_count "1" (bin (Z.lxor (byte_val b1) (byte_val b2)))
  = set_bits 8 (Z.lxor (byte_val b1) (byte_val b2)).
Proof.
  pose proof (lxor_bound (Z.of_nat 8) _ _ ltac:(lia)
                (byte_val_range b1) (byte_val_range b2)) as Hx.
  rewrite str_count_bin by lia. apply ones_set_bits. exact Hx.
Qed.

Lemma hamming_bytes_loop l : forall acc,
  fold_left
    (fun distance '(b1, b2) =>
       distance + str_count "1" (bin (Z.lxor (byte_val b1) (byte_val b2))))
    l acc
  = acc + set_bits_bytes
            (List.map (fun '(b1, b2) => Z.lxor (byte_val b1) (byte_val b2)) l).
Proof.
  induction l as [|[b1 b2] l IH]; intros acc; cbn [fold_left List.map set_bits_bytes fold_right].
  - lia.
  - rewrite IH, count_byte_xor. unfold set_bits_bytes. lia.
Qed.

Lemma len_bytes_eqb (a b : list byte) :
  (len_bytes a =? len_bytes b) = true <-> List.length a = List.length b.
Proof. unfold len_bytes. rewrite Z.eqb_eq. lia. Qed.

Lemma hamming_bytes_set_bits (a b : list byte) :
  List.length a = List.length b ->
  hamming_distance_bytes a b = Ok (set_bits_bytes (bytes_xor a b)).
Proof.
  intros Hlen. unfold hamming_distance_bytes.
  apply len_bytes_eqb in Hlen. rewrite Hlen. cbn [negb].
  rewrite hamming_bytes_loop. reflexivity.
Qed.

Lemma hamming_bytes_mismatch (a b : list byte) :
  List.length a <> List.length b ->
  hamming_distance_bytes a b = Raise (ValueError "Hash lengths must match").
Proof.
  intros Hlen. unfold hamming_distance_bytes.
  destruct (len_bytes a =? len_bytes b) eqn:E; [|reflexivity].
  apply len_bytes_eqb in E. contradiction.
Qed.

Lemma bytes_xor_self a : set_bits_bytes (bytes_xor a a) = 0.
Proof.
  unfold bytes_xor.
  induction a as [|x a IH]; cbn [zip List.map set_bits_bytes fold_right]; [reflexivity|].
  rewrite Z.lxor_nilpotent, set_bits_zero. exact IH.
Qed.

Lemma bytes_xor_comm a : forall b, bytes_xor a b = bytes_xor b a.
Proof.
  unfold bytes_xor.
  induction a as [|x a IH]; intros [|y b]; cbn [zip List.map]; try reflexivity.
  rewrite Z.lxor_comm, IH. reflexivity.
Qed.

Lemma hamming_bytes_sym (a b : list byte) :
  hamming_distance_bytes a b = hamming_distance_bytes b a.
Proof.
  destruct (Nat.eq_dec (List.length a) (List.length b)) as [E|E].
  - rewrite !hamming_bytes_set_bits, bytes_xor_comm by congruence. reflexivity.
  - rewrite !hamming_bytes_mismatch by congruence. reflexivity.
Qed.

(** The set bits of [a XOR b] are the positions where [a] and [b] differ. *)
Lemma set_bits_lxor_differ w a b :
  set_bits w (Z.lxor a b)
  = Z.of_nat (List.length
      (List.filter
         (fun i => xorb (Z.testbit a (Z.of_nat i)) (Z.testbit b (Z.of_nat i)))
         (seq 0 w))).
Proof.
  unfold set_bits. do 2 f_equal.
  apply List.filter_ext. intros i. apply Z.lxor_spec.
Qed.

(** C6. For hex hashes and byte strings of equal length the Hamming
    distance is the number of set bits of the XOR of the two values, it is
    0 from a value to itself and symmetric; values of different lengths
    raise ValueError, the validation error of this code. *)
Theorem hamming_distance_correct :
  (forall a b : string,
      is_hex_hash a = true -> is_hex_hash b = true ->
      String.length a = String.length b ->
      (exists va vb,
          int16 a = Ok va /\ int16 b = Ok vb /\
          hamming_distance_hex a b
          = Ok (set_bits (4 * String.length a) (Z.lxor va vb)))
      /\ hamming_distance_hex a a = Ok 0
      /\ hamming_distance_hex a b = hamming_distance_hex b a)
  /\ (forall a b : string,
         String.length a <> String.length b ->
         hamming_distance_hex a b = Raise (ValueError "Hash lengths must match"))
  /\ (forall a b : list byte,
         List.length a = List.length b ->
         hamming_distance_bytes a b = Ok (set_bits_bytes (bytes_xor a b))
         /\ hamming_distance_bytes a a = Ok 0
         /\ hamming_distance_bytes a b = hamming_distance_bytes b a)
  /\ (forall a b : list byte,
         List.length a <> List.length b ->
         hamming_distance_bytes a b = Raise (ValueError "Hash lengths must match")).
Proof.
  split; [|split; [|split]].
  - intros a b Ha Hb Hlen.
    destruct (int16_hex a Ha) as (va & Hva & Ra).
    destruct (int16_hex b Hb) as (vb & Hvb & Rb).
    assert (Rb' : 0 <= vb < 2 ^ Z.of_nat (4 * String.length a))
      by (rewrite Hlen; exact Rb).
    split; [|split].
    + exists va, vb. repeat split; try assumption.
      apply hamming_hex_set_bits; assumption.
    + rewrite (hamming_hex_set_bits a a va va eq_refl Hva Hva Ra Ra).
      rewrite Z.lxor_nilpotent, set_bits_zero. reflexivity.
    + rewrite (hamming_hex_set_bits a b va vb Hlen Hva Hvb Ra Rb').
      assert (Ra' : 0 <= va < 2 ^ Z.of_nat (4 * String.length b))
        by (rewrite <- Hlen; exact Ra).
      rewrite (hamming_hex_set_bits b a vb va (eq_sym Hlen) Hvb Hva Rb Ra').
      rewrite Z.lxor_comm, Hlen. reflexivity.
  - exact hamming_hex_mismatch.
  - intros a b Hlen. split; [|split].
    + apply hamming_bytes_set_bits, Hlen.
    + rewrite hamming_bytes_set_bits, bytes_xor_self; reflexivity.
    + apply hamming_bytes_sym.
  - exact hamming_bytes_mismatch.
Qed.

(** The claim at the hashes [ff00] and [0f0f], and at hashes of one and
    two digits. *)
Lemma hamming_distance_witness :
  Hashing.hamming_distance_hex "ff00" "0f0f" = Ok 8
  /\ Hashing.hamming_distance_hex "0f0f" "ff00" = Ok 8
  /\ Hashing.hamming_distance_hex "ff00" "ff00" = Ok 0
  /\ Hashing.hamming_distance_hex "f" "0f" = Raise (ValueError "Hash lengths must match").
Proof.
  destruct hamming_distance_correct as (Hhex & Hmis & _ & _).
  destruct (Hhex "ff00" "0f0f" eq_refl eq_refl eq_refl)
    as ((va & vb & Ha & Hb & Hd) & Hself & Hsym).
  vm_compute in Ha, Hb. inversion Ha; subst va. inversion Hb; subst vb.
  split; [|split; [|split]].
  - rewrite Hd. reflexivity.
  - rewrite <- Hsym, Hd. reflexivity.
  - exact Hself.
  - apply Hmis. simpl. lia.
Defined.

End HashingFacts.

(** ** Hash computation tolerates the failure of any algorithm *)

Module HashComputationFacts.
Import Hashing.

Section facts.

Variable imagehash_phash : list byte -> result string.
Variable pdqhash_compute : list byte -> result (list bool * Z).

Abbreviation compute := (compute_all_hashes imagehash_phash pdqhash_compute).

(** Every algorithm that is switched on is attempted, whatever the others
    did: the result holds the value of each one that returned and one error
    entry, in the order phash, pdq, photodna, for each one that raised. *)
Lemma compute_all_hashes_outcomes svc client content sha :
  enable_phash (_settings svc) = true ->
  enable_pdq (_settings svc) = true ->
  enable_photodna (_settings svc) = true ->
  _photodna svc = Some client ->
  compute svc content sha
  = mkHashResult sha
      (ok_value (imagehash_phash content))
      (fst <$> ok_value (_compute_pdq pdqhash_compute content))
      (snd <$> ok_value (_compute_pdq pdqhash_compute content))
      (ok_value (client content))
      (error_entry "phash" (imagehash_phash content)
       ++ error_entry "pdq" (pdqhash_compute content)
       ++ error_entry "photodna" (client content)).
Proof.
  intros H1 H2 H3 H4. unfold compute_all_hashes, _compute_phash, _compute_pdq.
  rewrite H1, H2, H3, H4.
  destruct (imagehash_phash content) as [h|e1];
    destruct (pdqhash_compute content) as [[v q]|e2];
    destruct (client content) as [d|e3]; reflexivity.
Qed.

(** C5. With every algorithm switched on: when exactly one of them raises,
    the two others populate their fields, the field of the one that raised
    stays absent and [errors] holds the single entry tagged with its name;
    when all three raise, the result is still returned, with every hash
    field absent and the three errors recorded. *)
Theorem compute_all_hashes_tolerates_failure svc client content sha :
  enable_phash (_settings svc) = true ->
  enable_pdq (_settings svc) = true ->
  enable_photodna (_settings svc) = true ->
  _photodna svc = Some client ->
  (forall e v quality d,
      imagehash_phash content = Raise e ->
      pdqhash_compute content = Ok (v, quality) ->
      client content = Ok d ->
      compute svc content sha
      = mkHashResult sha None (Some (pdq_hex v)) (Some quality) (Some d)
          ["phash: " +:+ exn_str e])
  /\ (forall h e d,
         imagehash_phash content = Ok h ->
         pdqhash_compute content = Raise e ->
         client content = Ok d ->
         compute svc content sha
         = mkHashResult sha (Some h) None None (Some d)
             ["pdq: " +:+ exn_str e])
  /\ (forall h v quality e,
         imagehash_phash content = Ok h ->
         pdqhash_compute content = Ok (v, quality) ->
         client content = Raise e ->
         compute svc content sha
         = mkHashResult sha (Some h) (Some (pdq_hex v)) (Some quality) None
             ["photodna: " +:+ exn_str e])
  /\ (forall e1 e2 e3,
         imagehash_phash content = Raise e1 ->
         pdqhash_compute content = Raise e2 ->
         client content = Raise e3 ->
         compute svc content sha
         = mkHashResult sha None None None None
             ["phash: " +:+ exn_str e1; "pdq: " +:+ exn_str e2;
              "photodna: " +:+ exn_str e3]).
Proof.
  intros H1 H2 H3 H4.
  pose proof (compute_all_hashes_outcomes svc client content sha H1 H2 H3 H4) as E.
  unfold _compute_pdq in E.
  repeat split; intros; rewrite E;
    repeat match goal with H : _ = Ok _ |- _ => rewrite H; clear H
                      | H : _ = Raise _ |- _ => rewrite H; clear H end;
    reflexivity.
Qed.

End facts.

(** The claim on a service whose pHash library rejects the image while
    PDQ and PhotoDNA answer. *)
Lemma compute_all_hashes_witness :
  compute_all_hashes
    (fun _ => Raise (Exception "cannot identify image file"))
    (fun _ => Ok ([true; true; true; true; false; false; false; true], 87))
    (mkPerceptualHashService (mkHashSettings true true true 10)
       (mkHashDatabase (fun _ _ => Ok []) (fun _ _ => Ok []) (fun _ _ => Ok []))
       (Some (fun _ => Ok [x01; x02])))
    [x00] "e3b0"
  = mkHashResult "e3b0" None (Some "f1") (Some 87) (Some [x01; x02])
      ["phash: cannot identify image file"].
Proof.
  pose proof (compute_all_hashes_tolerates_failure
    (fun _ => Raise (Exception "cannot identify image file"))
    (fun _ => Ok ([true; true; true; true; false; false; false; true], 87))
    (mkPerceptualHashService (mkHashSettings true true true 10)
       (mkHashDatabase (fun _ _ => Ok []) (fun _ _ => Ok []) (fun _ _ => Ok []))
       (Some (fun _ => Ok [x01; x02])))
    (fun _ => Ok [x01; x02]) [x00] "e3b0"
    eq_refl eq_refl eq_refl eq_refl) as (H & _).
  exact (H (Exception "cannot identify image file") _ 87 [x01; x02]
           eq_refl eq_refl eq_refl).
Defined.

End HashComputationFacts.

(** ** Confidence of the matches found in the known-hash databases *)

Module SimilaritySearchFacts.
Import Hashing.

(** The matches are the answers of the three searches, in the order
    phash, pdq, photodna, each turned into a [SimilarityMatch]. *)
Lemma search_known_databases_inv svc hr matches :
  search_known_databases svc hr = Ok matches ->
  exists ps ds ns,
    matches = List.map (phash_match (sha256 hr)) ps
              ++ List.map (pdq_match (sha256 hr)) ds
              ++ List.map (photodna_match (sha256 hr)) ns
    /\ ns = photodna_answer svc hr.
Proof.
  unfold search_known_databases, photodna_answer.
  destruct (truthy_str (phash hr)) as [h1|];
    [destruct (search_phash _ h1 _) as [ps|e]; [|discriminate]|];
    (destruct (truthy_str (pdq_hash hr)) as [h2|];
     [destruct (search_pdq _ h2 _) as [ds|e]; [|discriminate]|]);
    (destruct (truthy_bytes (photodna_hash hr)) as [h3|];
     [destruct (search_photodna _ h3 _) as [ns|e]; [|discriminate]|]);
    cbn; intros H; inversion H; subst; clear H.
  all: [> exists ps, ds, ns | exists ps, ds, [] | exists ps, [], ns
         | exists ps, [], [] | exists [], ds, ns | exists [], ds, []
         | exists [], [], ns | exists [], [], [] ].
  all: split; [|reflexivity]; cbn; rewrite ?app_nil_r, <- ?app_assoc; reflexivity.
Qed.

(** A match comes from exactly one of the three searches. *)
Lemma search_match_origin svc hr matches m :
  search_known_databases svc hr = Ok matches ->
  In m matches ->
  (exists r, m = phash_match (sha256 hr) r)
  \/ (exists r, m = pdq_match (sha256 hr) r)
  \/ (exists r, In r (photodna_answer svc hr) /\ m = photodna_match (sha256 hr) r).
Proof.
  intros H Hin.
  destruct (search_known_databases_inv _ _ _ H) as (ps & ds & ns & -> & ->).
  rewrite !in_app_iff, !in_map_iff in Hin.
  destruct Hin as [(r & <- & _)|[(r & <- & _)|(r & <- & Hr)]]; eauto.
Qed.

(** C9, as amended. Every pHash match has confidence [1 - distance/64],
    every PDQ match [1 - distance/256], and every PhotoDNA match has the
    confidence of the database entry it comes from when that entry carries
    one, and 0.9 when it carries none. *)
Theorem search_match_confidence svc hr matches m :
  search_known_databases svc hr = Ok matches ->
  In m matches ->
  (hash_type m = "phash" ->
   confidence m = (1 - inject_Z (distance m) / 64)%Q)
  /\ (hash_type m = "pdq" ->
      confidence m = (1 - inject_Z (distance m) / 256)%Q)
  /\ (hash_type m = "photodna" ->
      exists r,
        In r (photodna_answer svc hr)
        /\ distance m = db_distance r
        /\ matched_database m = db_database r
        /\ classification m = db_classification r
        /\ confidence m
           = match db_confidence r with Some c => c | None => 0.9%Q end).
Proof.
  intros H Hin.
  destruct (search_match_origin _ _ _ _ H Hin)
    as [(r & ->)|[(r & ->)|(r & Hr & ->)]]; cbn [hash_type confidence distance
      matched_database classification phash_match pdq_match photodna_match].
  - split; [intros _; reflexivity|]. split; discriminate.
  - split; [discriminate|]. split; [intros _; reflexivity|discriminate].
  - split; [discriminate|]. split; [discriminate|].
    intros _. exists r. split; [exact Hr|]. repeat split.
Qed.

(** The amended claim on a database that answers the pHash search with one
    entry at distance 8. *)
Lemma search_match_confidence_witness :
  search_known_databases
    (mkPerceptualHashService (mkHashSettings true true true 10)
       (mkHashDatabase (fun _ _ => Ok [mkDbMatch 8 "ncmec" "known" None])
          (fun _ _ => Ok []) (fun _ _ => Ok []))
       None)
    (mkHashResult "e3b0" (Some "c3d2e1f0a5b49687") None None None [])
  = Ok [phash_match "e3b0" (mkDbMatch 8 "ncmec" "known" None)]
  /\ confidence (phash_match "e3b0" (mkDbMatch 8 "ncmec" "known" None))
     = (1 - inject_Z 8 / 64)%Q.
Proof.
  split; [reflexivity|].
  refine (proj1 (search_match_confidence
    (mkPerceptualHashService (mkHashSettings true true true 10)
       (mkHashDatabase (fun _ _ => Ok [mkDbMatch 8 "ncmec" "known" None])
          (fun _ _ => Ok []) (fun _ _ => Ok []))
       None)
    (mkHashResult "e3b0" (Some "c3d2e1f0a5b49687") None None None [])
    [phash_match "e3b0" (mkDbMatch 8 "ncmec" "known" None)]
    (phash_match "e3b0" (mkDbMatch 8 "ncmec" "known" None))
    eq_refl (or_introl eq_refl)) eq_refl).
Defined.

(** C9 as stated fails: a PhotoDNA entry that carries no confidence yields
    a match of confidence 0.9, a value the collaborator did not supply. *)
Lemma photodna_confidence_not_supplied :
  exists m,
    search_known_databases
      (mkPerceptualHashService (mkHashSettings true true true 10)
         (mkHashDatabase (fun _ _ => Ok []) (fun _ _ => Ok [])
            (fun _ _ => Ok [mkDbMatch 3 "ncmec" "known" None]))
         None)
      (mkHashResult "e3b0" None None None (Some [x01; x02]) [])
    = Ok [m]
    /\ hash_type m = "photodna"
    /\ confidence m = 0.9%Q
    /\ ~ confidence_supplied
           (mkPerceptualHashService (mkHashSettings true true true 10)
              (mkHashDatabase (fun _ _ => Ok []) (fun _ _ => Ok [])
                 (fun _ _ => Ok [mkDbMatch 3 "ncmec" "known" None]))
              None)
           (mkHashResult "e3b0" None None None (Some [x01; x02]) [])
           m.
Proof.
  exists (photodna_match "e3b0" (mkDbMatch 3 "ncmec" "known" None)).
  repeat split.
  intros (r & Hr & _ & _ & _ & Hc).
  cbn in Hr. destruct Hr as [<-|[]]. discriminate Hc.
Qed.

End SimilaritySearchFacts.

(** ** Model registry: inference and health *)

Module RegistryFacts.
Import Registry PyDictFacts PyNumFacts.

Section facts.
Context {Session Tensor : Type}.
Variable session_run : Session -> Tensor -> result (list Q).

Abbreviation registry := (@ModelRegistry Session).
Abbreviation run_predict := (predict session_run).

(** [predict] returns an output exactly when the model has a session, is
    an ONNX model and the session run returns. *)
Lemma predict_ok_iff (reg : registry) id d tensor elapsed now out :
  PyDict.get (_models reg) id = Some d ->
  0 <= total_inferences d ->
  fst (run_predict reg id tensor elapsed now) = Ok out
  <-> exists s, _sessions reg !! id = Some s
                /\ model_type d = "onnx"
                /\ session_run s tensor = Ok out.
Proof.
  intros Hd Hn. unfold predict. rewrite Hd.
  destruct (_sessions reg !! id) as [s|]; cbn [fst].
  2:{ split; [discriminate|]. intros (s & Hs & _). discriminate. }
  destruct (String.eqb (model_type d) "onnx") eqn:Ety.
  2:{ split; [discriminate|]. intros (s' & _ & Hty & _).
      apply String.eqb_neq in Ety. contradiction. }
  apply String.eqb_eq in Ety.
  destruct (session_run s tensor) as [o|e] eqn:Hrun; cbn [fst].
  - cbn [total_inferences set_total_inferences].
    destruct (total_inferences d + 1 =? 0) eqn:E0; [lia|]. cbn [fst].
    split.
    + intros H. inversion H; subst. exists s. auto.
    + intros (s' & Hs & _ & Ho). inversion Hs; subst s'. congruence.
  - split; [discriminate|].
    intros (s' & Hs & _ & Ho). inversion Hs; subst s'. congruence.
Qed.

(** A failed [predict] leaves the registry as it was. *)
Lemma predict_failure_unchanged (reg : registry) id d tensor elapsed now e :
  PyDict.get (_models reg) id = Some d ->
  0 <= total_inferences d ->
  fst (run_predict reg id tensor elapsed now) = Raise e ->
  snd (run_predict reg id tensor elapsed now) = reg.
Proof.
  intros Hd Hn. unfold predict. rewrite Hd.
  destruct (_sessions reg !! id) as [s|]; [|reflexivity].
  destruct (String.eqb (model_type d) "onnx"); [|reflexivity].
  destruct (session_run s tensor) as [o|e']; [|reflexivity].
  cbn [total_inferences set_total_inferences].
  destruct (total_inferences d + 1 =? 0) eqn:E0; [lia|]. discriminate.
Qed.

(** A successful [predict] updates the two counters and the time of the
    last inference of that descriptor, and nothing else. *)
Lemma predict_success_update (reg : registry) id d tensor elapsed now out :
  PyDict.get (_models reg) id = Some d ->
  0 <= total_inferences d ->
  fst (run_predict reg id tensor elapsed now) = Ok out ->
  snd (run_predict reg id tensor elapsed now)
  = mkModelRegistry
      (PyDict.set (_models reg) id
         (set_last_inference
            (set_avg_latency_ms
               (set_total_inferences d (total_inferences d + 1))
               ((avg_latency_ms d * inject_Z (total_inferences d + 1 - 1) + elapsed)
                / inject_Z (total_inferences d + 1))%Q)
            (Some now)))
      (_sessions reg).
Proof.
  intros Hd Hn. unfold predict. rewrite Hd.
  destruct (_sessions reg !! id) as [s|]; [|discriminate].
  destruct (String.eqb (model_type d) "onnx"); [|discriminate].
  destruct (session_run s tensor) as [o|e']; [|discriminate].
  cbn [total_inferences set_total_inferences].
  destruct (total_inferences d + 1 =? 0) eqn:E0; [lia|]. reflexivity.
Qed.

(** *** The loaded flag and the sessions *)

Lemma new_registry_consistent : sessions_consistent (@new_registry Session).
Proof. intros id d H. discriminate H. Qed.

Lemma load_model_consistent InferenceSession (reg : registry) id device :
  sessions_consistent reg ->
  sessions_consistent (snd (load_model InferenceSession reg id device)).
Proof.
  intros Hc. unfold load_model.
  destruct (PyDict.get (_models reg) id) as [d|] eqn:Hd; [|exact Hc].
  destruct (String.eqb (model_type d) "onnx"); [|exact Hc].
  destruct (InferenceSession (model_path d) _) as [s|e]; [|exact Hc].
  intros k dk. cbn [snd _models _sessions]. rewrite get_set.
  destruct (String.eqb id k) eqn:E.
  - apply String.eqb_eq in E. subst k. intros H. inversion H; subst dk.
    rewrite lookup_insert_eq. cbn. split; [eauto|reflexivity].
  - apply String.eqb_neq in E. rewrite lookup_insert_ne by exact E. apply Hc.
Qed.

Lemma unload_model_consistent (reg : registry) id :
  sessions_consistent reg -> sessions_consistent (unload_model reg id).
Proof.
  intros Hc k dk. unfold unload_model. cbn [_models _sessions].
  destruct (String.eqb id k) eqn:E.
  - apply String.eqb_eq in E. subst k. rewrite lookup_delete_eq.
    destruct (PyDict.get (_models reg) id) as [d|] eqn:Hd.
    + rewrite get_set_eq. intros H. inversion H; subst dk. cbn.
      split; [discriminate|intros [x Hx]; discriminate Hx].
    + rewrite Hd. discriminate.
  - apply String.eqb_neq in E. rewrite lookup_delete_ne by exact E.
    destruct (PyDict.get (_models reg) id) as [d|] eqn:Hd; [|apply Hc].
    rewrite get_set_ne by exact E. apply Hc.
Qed.

Lemma predict_consistent (reg : registry) id tensor elapsed now :
  sessions_consistent reg ->
  sessions_consistent (snd (run_predict reg id tensor elapsed now)).
Proof.
  intros Hc. unfold predict.
  destruct (_sessions reg !! id) as [s|] eqn:Hs; [|exact Hc].
  destruct (PyDict.get (_models reg) id) as [d|] eqn:Hd; [|exact Hc].
  destruct (String.eqb (model_type d) "onnx"); [|exact Hc].
  destruct (session_run s tensor) as [o|e]; [|exact Hc].
  assert (Hset : forall d', loaded d' = loaded d ->
            sessions_consistent
              (mkModelRegistry (PyDict.set (_models reg) id d') (_sessions reg))).
  { intros d' Hl k dk. cbn [_models _sessions]. rewrite get_set.
    destruct (String.eqb id k) eqn:E; [|apply Hc].
    apply String.eqb_eq in E. subst k. intros H. inversion H; subst dk.
    rewrite Hl. apply Hc, Hd. }
  destruct (total_inferences d + 1 =? 0); cbn [snd]; apply Hset; reflexivity.
Qed.



End facts.


(** *** Health check *)

(** Rounding to an integer moves a number by at most one half. *)
Lemma round_half_even_near x :
  (inject_Z (PyNum.round_half_even x) - (1 # 2) <= x
   <= inject_Z (PyNum.round_half_even x) + (1 # 2))%Q.
Proof.
  unfold PyNum.round_half_even.
  pose proof (Qfloor_le x) as Hlo. pose proof (Qlt_floor x) as Hhi.
  rewrite inject_Z_plus in Hhi. change (inject_Z 1) with 1%Q in Hhi.
  destruct (PyNum.Qltb (x - inject_Z (Qfloor x)) (1 # 2)) eqn:E1.
  { apply Qltb_lt in E1. lra. }
  apply Qltb_ge in E1.
  destruct (PyNum.Qltb (1 # 2) (x - inject_Z (Qfloor x))) eqn:E2.
  { rewrite inject_Z_plus. change (inject_Z 1) with 1%Q. lra. }
  apply Qltb_ge in E2.
  destruct (Z.even (Qfloor x));
    rewrite ?inject_Z_plus; change (inject_Z 1) with 1%Q; lra.
Qed.

(** [round(x, 1)] is a whole number of tenths within 0.05 of [x]. *)
Lemma round1_near x :
  (exists n, PyNum.round1 x == inject_Z n / 10)%Q
  /\ (PyNum.round1 x - (1 # 20) <= x <= PyNum.round1 x + (1 # 20))%Q.
Proof.
  unfold PyNum.round1. split; [eexists; reflexivity|].
  pose proof (round_half_even_near (x * 10)) as H.
  set (z := inject_Z (PyNum.round_half_even (x * 10))) in *.
  assert (E : (z / 10 == z * (1 # 10))%Q) by (unfold Qdiv; reflexivity).
  rewrite E. lra.
Qed.

(** C10. For an id that is not registered [health_check] returns the
    record [{model_id: id, status: unknown}]; for a registered id it
    returns a record with the loaded and enabled flags, the total inference
    count and the average latency, which it reports to one decimal place
    (within 0.05 of the stored value). It is a total function: no
    exception on either path. *)
Theorem health_check_record {Session : Type} (reg : @ModelRegistry Session) id :
  (PyDict.get (_models reg) id = None ->
   health_check reg id = [("model_id", PyStr id); ("status", PyStr "unknown")])
  /\ (forall d,
         PyDict.get (_models reg) id = Some d ->
         PyDict.get (health_check reg id) "model_id" = Some (PyStr id)
         /\ PyDict.get (health_check reg id) "loaded" = Some (PyBool (loaded d))
         /\ PyDict.get (health_check reg id) "enabled" = Some (PyBool (enabled d))
         /\ PyDict.get (health_check reg id) "total_inferences"
            = Some (PyInt (total_inferences d))
         /\ PyDict.get (health_check reg id) "avg_latency_ms"
            = Some (PyFloat (PyNum.round1 (avg_latency_ms d)))
         /\ (PyNum.round1 (avg_latency_ms d) - (1 # 20) <= avg_latency_ms d
             <= PyNum.round1 (avg_latency_ms d) + (1 # 20))%Q).
Proof.
  unfold health_check. split.
  - intros ->. reflexivity.
  - intros d ->. repeat (split; [reflexivity|]). apply round1_near.
Qed.

(** The claim on the catalog registry, for an unknown id and for the
    Yahoo model. *)
Lemma health_check_record_witness :
  health_check Examples.loaded_registry "no_such_model"
  = [("model_id", PyStr "no_such_model"); ("status", PyStr "unknown")]
  /\ PyDict.get (health_check Examples.loaded_registry "yahoo_open_nsfw") "loaded"
     = Some (PyBool true).
Proof.
  split.
  - exact (proj1 (health_check_record Examples.loaded_registry "no_such_model")
             eq_refl).
  - exact (proj1 (proj2 (proj2 (health_check_record Examples.loaded_registry
                                   "yahoo_open_nsfw")
                           Examples.yahoo_loaded eq_refl))).
Defined.

(** The latency of the record is the rounded one: after one inference
    measured at 12.34 ms the stored average is 12.34 and the record reports
    12.3. *)
Lemma health_check_latency_rounded :
  exists d,
    PyDict.get
      (_models (snd (predict Examples.stub_session_run Examples.loaded_registry
                       "yahoo_open_nsfw" tt 12.34%Q 1700000000)))
      "yahoo_open_nsfw" = Some d
    /\ (avg_latency_ms d == 12.34)%Q
    /\ PyDict.get
         (health_check
            (snd (predict Examples.stub_session_run Examples.loaded_registry
                    "yahoo_open_nsfw" tt 12.34%Q 1700000000))
            "yahoo_open_nsfw")
         "avg_latency_ms" = Some (PyFloat 12.3%Q)
    /\ ~ (12.3 == avg_latency_ms d)%Q.
Proof.
  eexists. split; [reflexivity|].
  split; [reflexivity|]. split; [reflexivity|].
  intros H. vm_compute in H. discriminate H.
Qed.

End RegistryFacts.

(** ** Ensemble: weighted average *)

Module WeightedAverageFacts.
Import Ensemble PyNum PyNumFacts PyDictFacts.

Lemma fold_Qplus_Qsum l : forall a, (fold_left Qplus l a == a + Qsum l)%Q.
Proof.
  induction l as [|x l IH]; intros a; cbn [fold_left Qsum fold_right].
  - ring.
  - rewrite IH. unfold Qsum. ring.
Qed.

Lemma py_sum_Qsum l : (py_sum l == Qsum l)%Q.
Proof. unfold py_sum. rewrite fold_Qplus_Qsum. ring. Qed.

(** Filling a dict with [f k] for each key [k] of a list. *)
Lemma get_fold_set {V : Type} (f : string -> V) l : forall (d : PyDict.dict V) k,
  PyDict.get (fold_left (fun d k => PyDict.set d k (f k)) l d) k
  = if existsb (String.eqb k) l then Some (f k) else PyDict.get d k.
Proof.
  induction l as [|k0 l IH]; intros d k; cbn [fold_left existsb]; [reflexivity|].
  rewrite IH, get_set. rewrite (String.eqb_sym k k0).
  destruct (existsb (String.eqb k) l); [rewrite orb_true_r; reflexivity|].
  rewrite orb_false_r.
  destruct (String.eqb k0 k) eqn:E; [|reflexivity].
  apply String.eqb_eq in E. subst. reflexivity.
Qed.

Lemma existsb_eqb_In k l : existsb (String.eqb k) l = true <-> In k l.
Proof.
  rewrite existsb_exists. split.
  - intros (x & Hx & E). apply String.eqb_eq in E. subst. exact Hx.
  - intros H. exists k. split; [exact H|apply String.eqb_refl].
Qed.

(** The set [all_categories] holds the keys of every model's normalized
    scores, and nothing else. *)
Lemma all_categories_loop results : forall (acc : gset string) cat,
  cat ∈ fold_left
          (fun acc r => acc ∪ list_to_set (PyDict.keys (normalized_scores r)))
          results acc
  <-> cat ∈ acc \/ reported results cat.
Proof.
  induction results as [|r results IH]; intros acc cat; cbn [fold_left].
  - split; [auto|]. intros [H|(r & [] & _)]. exact H.
  - rewrite IH, elem_of_union, elem_of_list_to_set, list_elem_of_In.
    unfold reported. split.
    + intros [[H|H]|(r' & Hr & Hk)]; [left; exact H| |].
      * right. exists r. split; [left; reflexivity|exact H].
      * right. exists r'. split; [right; exact Hr|exact Hk].
    + intros [H|(r' & [<-|Hr] & Hk)]; [left; left; exact H| |].
      * left. right. exact Hk.
      * right. exists r'. auto.
Qed.

Lemma all_categories_reported results cat :
  In cat (elements (all_categories results)) <-> reported results cat.
Proof.
  rewrite <- list_elem_of_In, elem_of_elements.
  unfold all_categories. rewrite all_categories_loop.
  split; [intros [H|H]; [|exact H]|auto].
  exfalso. exact (not_elem_of_empty _ H).
Qed.

Lemma get_Some_In_keys {V : Type} (d : PyDict.dict V) k v :
  PyDict.get d k = Some v -> In k (PyDict.keys d).
Proof.
  unfold PyDict.keys. induction d as [|[k' v'] d IH]; cbn [PyDict.get List.map]; [discriminate|].
  destruct (String.eqb k' k) eqn:E; intros H.
  - apply String.eqb_eq in E. left. exact E.
  - right. apply IH, H.
Qed.

(** What [_weighted_average] holds for a category. *)
Lemma weighted_average_get results cat :
  PyDict.get (_weighted_average results) cat
  = if existsb (String.eqb cat) (elements (all_categories results))
    then Some (if Qltb 0 (total_weight results)
               then (weighted_sum results cat / total_weight results)%Q
               else 0.0%Q)
    else None.
Proof. unfold _weighted_average. rewrite get_fold_set. reflexivity. Qed.

Lemma total_weight_Qsum results :
  (total_weight results == Qsum (List.map weight results))%Q.
Proof. apply py_sum_Qsum. Qed.

Lemma Qsum_map_ext {A : Type} (f g : A -> Q) l :
  (forall x, (f x == g x)%Q) -> (Qsum (List.map f l) == Qsum (List.map g l))%Q.
Proof.
  intros H. induction l as [|x l IH]; cbn [List.map Qsum fold_right]; [reflexivity|].
  rewrite (H x). unfold Qsum in IH. rewrite IH. reflexivity.
Qed.

Lemma weighted_sum_Qsum results cat :
  (weighted_sum results cat
   == Qsum (List.map (fun r => score_or_zero r cat * weight r) results))%Q.
Proof.
  unfold weighted_sum. rewrite py_sum_Qsum. apply Qsum_map_ext. intros r.
  unfold PyDict.get_default, score_or_zero.
  destruct (PyDict.get (normalized_scores r) cat); reflexivity.
Qed.

Lemma quotient_Some n d : ~ (d == 0)%Q -> quotient n d = Some (n / d)%Q.
Proof.
  intros H. unfold quotient. destruct (Qeq_bool d 0) eqn:E; [|reflexivity].
  apply Qeq_bool_iff in E. contradiction.
Qed.

(** C1, as amended. The weighted average gives a score to exactly the
    categories present in the normalized output of some model. When the sum
    of the weights of all the models is positive, that score is
    [Σ(normalized_score_i × weight_i) / Σ(weight_i)], where a model that did
    not report the category adds 0 to the numerator and its full weight to
    the denominator; when the sum of the weights is not positive, the score
    is 0.0. With weights 0.6 and 0.4, model A reporting explicit = 0.8 and
    model B nothing for it, the score of explicit is 0.48. *)
Theorem weighted_average_score results cat :
  (reported results cat ->
   exists v,
     PyDict.get (_weighted_average results) cat = Some v
     /\ ((0 < Qsum (List.map weight results))%Q ->
         exists q, spec_weighted_score results cat = Some q /\ (v == q)%Q)
     /\ ((Qsum (List.map weight results) <= 0)%Q -> v = 0.0%Q))
  /\ (~ reported results cat -> PyDict.get (_weighted_average results) cat = None)
  /\ (forall A B,
         results = [A; B] -> cat = "explicit" ->
         (weight A == 0.6)%Q -> (weight B == 0.4)%Q ->
         PyDict.get (normalized_scores A) "explicit" = Some 0.8%Q ->
         PyDict.get (normalized_scores B) "explicit" = None ->
         exists v,
           PyDict.get (_weighted_average results) cat = Some v /\ (v == 0.48)%Q).
Proof.
  assert (Hrep : reported results cat ->
    exists v,
      PyDict.get (_weighted_average results) cat = Some v
      /\ ((0 < Qsum (List.map weight results))%Q ->
          exists q, spec_weighted_score results cat = Some q /\ (v == q)%Q)
      /\ ((Qsum (List.map weight results) <= 0)%Q -> v = 0.0%Q)).
  { intros Hr. rewrite weighted_average_get.
    apply all_categories_reported, existsb_eqb_In in Hr. rewrite Hr.
    eexists. split; [reflexivity|].
    pose proof (total_weight_Qsum results) as Ht.
    case_Qltb 0%Q (total_weight results); split.
    - intros Hpos. eexists. split.
      + unfold spec_weighted_score. apply quotient_Some. lra.
      + rewrite weighted_sum_Qsum, Ht. reflexivity.
    - intros Hle. lra.
    - intros Hpos. lra.
    - reflexivity. }
  split; [exact Hrep|]. split.
  - intros Hn. rewrite weighted_average_get.
    destruct (existsb (String.eqb cat) (elements (all_categories results))) eqn:E;
      [|reflexivity].
    apply existsb_eqb_In, all_categories_reported in E. contradiction.
  - intros A B -> -> HwA HwB HA HB.
    destruct Hrep as (v & Hv & Hpos & _).
    { exists A. split; [left; reflexivity|]. eapply get_Some_In_keys, HA. }
    exists v. split; [exact Hv|].
    destruct Hpos as (q & Hq & Hvq).
    { cbn [List.map Qsum fold_right]. rewrite HwA, HwB. reflexivity. }
    rewrite Hvq. unfold spec_weighted_score in Hq. rewrite quotient_Some in Hq.
    + inversion Hq; subst q. cbn [List.map Qsum fold_right].
      unfold score_or_zero. rewrite HA, HB, HwA, HwB. reflexivity.
    + cbn [List.map Qsum fold_right]. rewrite HwA, HwB. discriminate.
Qed.

(** The amended claim on the example of the design document. *)
Lemma weighted_average_score_witness :
  exists v,
    PyDict.get
      (_weighted_average
         [mkModelResult "a" "Model A" "1" 0.6 [("explicit", 0.8%Q)] [("explicit", 0.8%Q)];
          mkModelResult "b" "Model B" "1" 0.4 [("safe", 0.9%Q)] [("safe", 0.9%Q)]])
      "explicit" = Some v
    /\ (v == 0.48)%Q.
Proof.
  exact (proj2 (proj2 (weighted_average_score
    [mkModelResult "a" "Model A" "1" 0.6 [("explicit", 0.8%Q)] [("explicit", 0.8%Q)];
     mkModelResult "b" "Model B" "1" 0.4 [("safe", 0.9%Q)] [("safe", 0.9%Q)]]
    "explicit")) _ _ eq_refl eq_refl (Qeq_refl _) (Qeq_refl _) eq_refl eq_refl).
Defined.

(** C1 as stated fails when the weights do not sum to a positive number.
    One model of weight 0 reporting explicit = 0.8: the sum of the weights
    is 0, the quotient does not exist, and the score is 0.0. One model of
    weight -0.5 reporting explicit = 0.8: the quotient is 0.8 and the score
    is 0.0. *)
Lemma weighted_average_not_quotient :
  (reported
     [mkModelResult "a" "Model A" "1" 0 [("explicit", 0.8%Q)] [("explicit", 0.8%Q)]]
     "explicit"
   /\ spec_weighted_score
        [mkModelResult "a" "Model A" "1" 0 [("explicit", 0.8%Q)] [("explicit", 0.8%Q)]]
        "explicit" = None
   /\ PyDict.get
        (_weighted_average
           [mkModelResult "a" "Model A" "1" 0 [("explicit", 0.8%Q)] [("explicit", 0.8%Q)]])
        "explicit" = Some 0.0%Q)
  /\ (exists q,
         spec_weighted_score
           [mkModelResult "a" "Model A" "1" (-0.5)
              [("explicit", 0.8%Q)] [("explicit", 0.8%Q)]]
           "explicit" = Some q
         /\ (q == 0.8)%Q
         /\ PyDict.get
              (_weighted_average
                 [mkModelResult "a" "Model A" "1" (-0.5)
                    [("explicit", 0.8%Q)] [("explicit", 0.8%Q)]])
              "explicit" = Some 0.0%Q
         /\ ~ (0.0 == q)%Q).
Proof.
  split.
  - split; [|split; reflexivity].
    eexists. split; [left; reflexivity|]. left. reflexivity.
  - eexists. split; [reflexivity|]. split; [reflexivity|].
    split; [reflexivity|]. intros H. vm_compute in H. discriminate H.
Qed.

End WeightedAverageFacts.

(** ** Ensemble: the two empty results *)

Module EnsembleFacts.
Import Ensemble PyDictFacts.

Section facts.
Context {Session Tensor Array : Type}.
Variable session_run : Session -> Tensor -> result (list Q).
Variable decode_resize : list byte -> Z * Z -> result Array.
Variables _imagenet _caffe _raw_0_1 _clip : Array -> Tensor.
Variable np_std : list Q -> Q.
Variable clock_elapsed_ms : string -> Q.
Variable clock_utcnow : string -> Z.

Abbreviation registry := (@Registry.ModelRegistry Session).
Abbreviation run :=
  (run_model session_run decode_resize _imagenet _caffe _raw_0_1 _clip
     clock_elapsed_ms clock_utcnow).
Abbreviation classify :=
  (classify_ensemble session_run decode_resize _imagenet _caffe _raw_0_1 _clip
     np_std clock_elapsed_ms clock_utcnow).
Abbreviation fails :=
  (invocation_fails session_run decode_resize _imagenet _caffe _raw_0_1 _clip).

Lemma same_dispatch_refl (reg : registry) : Registry.same_dispatch reg reg.
Proof. split; reflexivity. Qed.

Lemma same_dispatch_trans (r1 r2 r3 : registry) :
  Registry.same_dispatch r1 r2 -> Registry.same_dispatch r2 r3 -> Registry.same_dispatch r1 r3.
Proof.
  intros (S1 & T1) (S2 & T2). split; [congruence|].
  intros id. rewrite T2. apply T1.
Qed.

(** [predict] never changes which models can be dispatched to. *)
Lemma predict_same_dispatch (reg : registry) id tensor elapsed now :
  Registry.same_dispatch reg (snd (Registry.predict session_run reg id tensor elapsed now)).
Proof.
  unfold Registry.predict.
  destruct (Registry._sessions reg !! id) as [s|]; [|apply same_dispatch_refl].
  destruct (PyDict.get (Registry._models reg) id) as [d|] eqn:Hd;
    [|apply same_dispatch_refl].
  destruct (String.eqb (Registry.model_type d) "onnx"); [|apply same_dispatch_refl].
  destruct (session_run s tensor) as [o|e]; [|apply same_dispatch_refl].
  assert (Hset : forall d', Registry.model_type d' = Registry.model_type d ->
            Registry.same_dispatch reg
              (Registry.mkModelRegistry (PyDict.set (Registry._models reg) id d')
                 (Registry._sessions reg))).
  { intros d' Hty. split; [reflexivity|]. intros k. cbn [Registry._models].
    rewrite get_set. destruct (String.eqb id k) eqn:E; [|reflexivity].
    apply String.eqb_eq in E. subst k. rewrite Hd. cbn. rewrite Hty. reflexivity. }
  destruct (Registry.total_inferences d + 1 =? 0); cbn [snd]; apply Hset; reflexivity.
Qed.

(** A cause of failure seen in [reg] makes [predict] raise in every
    registry that dispatches like [reg]. *)
Lemma predict_raises (reg reg' : registry) id tensor elapsed now :
  Registry.same_dispatch reg reg' ->
  Registry._sessions reg !! id = None
  \/ Registry.model_type <$> PyDict.get (Registry._models reg) id <> Some "onnx"
  \/ (exists s, Registry._sessions reg !! id = Some s /\ raised (session_run s tensor)) ->
  raised (fst (Registry.predict session_run reg' id tensor elapsed now)).
Proof.
  intros (HS & HT) Hcause. unfold Registry.predict. rewrite HS.
  destruct (Registry._sessions reg !! id) as [s|] eqn:Hs; [|exact I].
  specialize (HT id).
  destruct (PyDict.get (Registry._models reg') id) as [d|]; [|exact I].
  destruct (String.eqb (Registry.model_type d) "onnx") eqn:Ety; [|exact I].
  apply String.eqb_eq in Ety.
  destruct Hcause as [Hc|[Hc|(s' & Hs' & Hr)]].
  - discriminate Hc.
  - exfalso. apply Hc. rewrite <- HT. cbn. rewrite Ety. reflexivity.
  - inversion Hs'; subst s'.
    destruct (session_run s tensor) as [o|e]; [destruct Hr|exact I].
Qed.

(** A failing model adds nothing to the results collected so far. *)
Lemma run_model_fails (reg reg' : registry) content results d :
  Registry.same_dispatch reg reg' ->
  fails reg content d ->
  exists reg'',
    run content (results, reg') d = (results, reg'')
    /\ Registry.same_dispatch reg reg''.
Proof.
  intros Hsd Hf. unfold run_model.
  destruct (Registry.loaded d) eqn:Hl; cbn [negb]; [|eauto].
  destruct (Preprocessing.preprocess _ _ _ _ _ content _ _) as [t|e] eqn:Hp; [|eauto].
  pose proof (predict_same_dispatch reg' (Registry.model_id d) t
                (clock_elapsed_ms (Registry.model_id d))
                (clock_utcnow (Registry.model_id d))) as Hsd'.
  assert (Hr : raised (fst (Registry.predict session_run reg' (Registry.model_id d) t
                              (clock_elapsed_ms (Registry.model_id d))
                              (clock_utcnow (Registry.model_id d))))).
  { apply (predict_raises reg reg'); [exact Hsd|].
    destruct Hf as [Hf|[Hf|[Hf|[Hf|(s & t' & Hs & Ht & Hrun)]]]].
    - congruence.
    - rewrite Hp in Hf. destruct Hf.
    - left. exact Hf.
    - right. left. exact Hf.
    - right. right. exists s. split; [exact Hs|]. congruence. }
  destruct (Registry.predict session_run reg' (Registry.model_id d) t _ _)
    as [[o|e] reg''] eqn:Hpred; cbn [fst snd] in *; [destruct Hr|].
  exists reg''. split; [reflexivity|].
  eapply same_dispatch_trans; eassumption.
Qed.

Lemma loop_all_fail (reg : registry) content models : forall reg' results,
  Registry.same_dispatch reg reg' ->
  Forall (fails reg content) models ->
  exists reg'',
    fold_left (run content) models (results, reg') = (results, reg'')
    /\ Registry.same_dispatch reg reg''.
Proof.
  induction models as [|d models IH]; intros reg' results Hsd Hall; cbn [fold_left].
  - eauto.
  - inversion Hall as [|? ? Hd Hrest]; subst.
    destruct (run_model_fails reg reg' content results d Hsd Hd) as (reg1 & E & Hsd1).
    rewrite E. apply IH; assumption.
Qed.

(** C4. With no enabled model for the task, [classify_ensemble] returns
    empty final scores with agreement 1.0 and leaves the registry as it was.
    With at least one enabled model, when every invocation fails, so that no
    result is collected, it returns empty final scores with agreement 0.0. *)
Theorem classify_ensemble_empty_paths (reg : registry) content tk meth :
  (Registry.get_models_for_task reg tk = [] ->
   classify reg content tk meth = (mkEnsembleResult tk [] [] 1.0 meth, reg))
  /\ (Registry.get_models_for_task reg tk <> [] ->
      Forall (fails reg content) (Registry.get_models_for_task reg tk) ->
      fst (classify reg content tk meth) = mkEnsembleResult tk [] [] 0.0 meth)
  /\ (Registry.get_models_for_task reg tk <> [] ->
      model_results (fst (classify reg content tk meth)) = [] ->
      fst (classify reg content tk meth) = mkEnsembleResult tk [] [] 0.0 meth).
Proof.
  unfold classify_ensemble.
  destruct (Registry.get_models_for_task reg tk) as [|d models] eqn:Hm.
  - split; [reflexivity|]. split; intros H; contradiction.
  - split; [discriminate|]. split.
    + intros _ Hall.
      destruct (loop_all_fail reg content (d :: models) reg [] (same_dispatch_refl reg) Hall)
        as (reg'' & E & _).
      rewrite E. reflexivity.
    + intros _.
      destruct (fold_left (run content) (d :: models) ([], reg)) as [[|r results] reg''];
        [reflexivity|discriminate].
Qed.

End facts.

(** The claim on the built-in catalog: a task no model serves, and the
    NSFW task when the runs of the two loaded models fail and the third
    model is not loaded. *)
Lemma classify_ensemble_empty_paths_witness :
  classify_ensemble Examples.failing_session_run Examples.stub_decode_resize
    Examples.stub_normalize Examples.stub_normalize Examples.stub_normalize
    Examples.stub_normalize Examples.stub_np_std Examples.stub_clock_elapsed_ms
    Examples.stub_clock_utcnow Examples.two_loaded_registry [x00] "ocr" "weighted_average"
  = (mkEnsembleResult "ocr" [] [] 1.0 "weighted_average", Examples.two_loaded_registry)
  /\ fst (classify_ensemble Examples.failing_session_run Examples.stub_decode_resize
            Examples.stub_normalize Examples.stub_normalize Examples.stub_normalize
            Examples.stub_normalize Examples.stub_np_std Examples.stub_clock_elapsed_ms
            Examples.stub_clock_utcnow Examples.two_loaded_registry [x00]
            "nsfw_detection" "weighted_average")
     = mkEnsembleResult "nsfw_detection" [] [] 0.0 "weighted_average".
Proof.
  pose proof (classify_ensemble_empty_paths Examples.failing_session_run
    Examples.stub_decode_resize Examples.stub_normalize Examples.stub_normalize
    Examples.stub_normalize Examples.stub_normalize Examples.stub_np_std
    Examples.stub_clock_elapsed_ms Examples.stub_clock_utcnow
    Examples.two_loaded_registry [x00]) as H.
  split.
  - exact (proj1 (H "ocr" "weighted_average") eq_refl).
  - apply (proj1 (proj2 (H "nsfw_detection" "weighted_average"))).
    + discriminate.
    + apply List.Forall_forall. intros d Hd. vm_compute in Hd.
      destruct Hd as [<-|[<-|[<-|[]]]]; unfold invocation_fails.
      * left. reflexivity.
      * right. right. right. right. exists tt, tt.
        split; [reflexivity|]. split; [reflexivity|exact I].
      * right. right. right. right. exists tt, tt.
        split; [reflexivity|]. split; [reflexivity|exact I].
Defined.

End EnsembleFacts.

(** ** Classification service *)

Module ClassifierFacts.
Import Classifier PyNum PyNumFacts PyDictFacts.

(** The dict comprehension of [_determine_classification] holds, for each
    category, the score of the last entry with that category. *)
Lemma score_map_loop nsfw cat : forall d : PyDict.dict Q,
  PyDict.get_default
    (fold_left (fun d '(k, v) => PyDict.set d k v)
       (List.map (fun s => (category s, score s)) nsfw) d)
    cat 0%Q
  = last_score nsfw cat (PyDict.get_default d cat 0%Q).
Proof.
  induction nsfw as [|s nsfw IH]; intros d; cbn [List.map fold_left last_score].
  - reflexivity.
  - rewrite IH. f_equal. unfold PyDict.get_default. rewrite get_set.
    destruct (String.eqb (category s) cat); reflexivity.
Qed.

Lemma score_map_get nsfw cat :
  PyDict.get_default (score_map nsfw) cat 0%Q = last_score nsfw cat 0.
Proof. unfold score_map, PyDict.of_items. apply score_map_loop. Qed.

Lemma determine_classification_spec settings nsfw csam :
  _determine_classification settings nsfw csam
  = spec_classification settings nsfw csam.
Proof.
  unfold _determine_classification, spec_classification.
  rewrite !score_map_get. cbn [first_match].
  destruct (Qle_bool (csam_alert_threshold settings) csam); [reflexivity|].
  repeat match goal with
         | |- context [Qltb ?x ?y] => destruct (Qltb x y); try reflexivity
         end.
Qed.

(** C2. The primary classification follows the priority order CSAM
    suspect, explicit sexual, graphic violence, mild violence, suggestive,
    drugs, safe: each label is returned exactly when its condition holds and
    no earlier one does. With the default thresholds 0.85 and 0.7, a CSAM
    score of 0.90 yields CSAM_SUSPECT whatever the explicit score is. *)
Theorem determine_classification_priority settings nsfw csam :
  let csam_alert := (csam_alert_threshold settings <= csam)%Q in
  let above cat := (confidence_threshold settings < last_score nsfw cat 0)%Q in
  let r := _determine_classification settings nsfw csam in
  r = spec_classification settings nsfw csam
  /\ (r = CSAM_SUSPECT <-> csam_alert)
  /\ (r = EXPLICIT_SEXUAL <-> ~ csam_alert /\ above "explicit_sexual")
  /\ (r = VIOLENCE_GRAPHIC <->
      ~ csam_alert /\ ~ above "explicit_sexual" /\ above "violence_graphic")
  /\ (r = VIOLENCE_MILD <->
      ~ csam_alert /\ ~ above "explicit_sexual" /\ ~ above "violence_graphic"
      /\ above "violence_mild")
  /\ (r = SUGGESTIVE <->
      ~ csam_alert /\ ~ above "explicit_sexual" /\ ~ above "violence_graphic"
      /\ ~ above "violence_mild" /\ above "suggestive")
  /\ (r = DRUGS <->
      ~ csam_alert /\ ~ above "explicit_sexual" /\ ~ above "violence_graphic"
      /\ ~ above "violence_mild" /\ ~ above "suggestive" /\ above "drugs")
  /\ (r = SAFE <->
      ~ csam_alert /\ ~ above "explicit_sexual" /\ ~ above "violence_graphic"
      /\ ~ above "violence_mild" /\ ~ above "suggestive" /\ ~ above "drugs")
  /\ r <> NSFL_SUSPECT
  /\ (forall scores, _determine_classification default_settings scores 0.90 = CSAM_SUSPECT).
Proof.
  intros csam_alert above r.
  split; [apply determine_classification_spec|].
  assert (Hex : forall scores,
             _determine_classification default_settings scores 0.90 = CSAM_SUSPECT)
    by (intros scores; reflexivity).
  subst r. rewrite determine_classification_spec.
  unfold spec_classification, csam_alert, above. cbn [first_match].
  destruct (Qle_bool (csam_alert_threshold settings) csam) eqn:Ec;
    [apply Qle_bool_iff in Ec
    |assert (~ (csam_alert_threshold settings <= csam)%Q)
       by (intros Hc; apply Qle_bool_iff in Hc; congruence); clear Ec].
  { repeat split; try discriminate; try tauto; try exact Hex. }
  repeat match goal with
         | |- context [Qltb ?x ?y] => case_Qltb x y
         end;
    repeat split; try discriminate; try exact Hex;
    try (intros; repeat split; try assumption; lra);
    try (intros (? & ?); tauto);
    try (intros; exfalso; intuition lra).
Qed.

Lemma is_csam_suspect_iff c : is_csam_suspect c = true <-> c = CSAM_SUSPECT.
Proof. destruct c; cbn; split; (reflexivity || discriminate). Qed.

(** The three tests of [_should_route_to_review] as one disjunction. *)
Lemma should_route_as_disjunction classification csam_score nsfw_score age_est :
  _should_route_to_review classification csam_score nsfw_score age_est
  = is_csam_suspect classification
    || (Qltb 0.5 csam_score
        || match age_est with
           | Some a => is_minor_likely a && Qltb 0.3 nsfw_score
           | None => false
           end).
Proof.
  unfold _should_route_to_review.
  destruct (is_csam_suspect classification); [reflexivity|].
  destruct (Qltb 0.5 csam_score); [reflexivity|].
  destruct age_est as [a|]; [|reflexivity].
  destruct (is_minor_likely a && Qltb 0.3 nsfw_score); reflexivity.
Qed.

(** C8. A result is routed to human review exactly when it is classified
    CSAM_SUSPECT, or its CSAM score exceeds 0.5, or a minor is likely and the
    NSFW score exceeds 0.3. A SAFE result with CSAM score 0.51 is routed to
    review whatever the age estimation and the NSFW score are. *)
Theorem should_route_to_review_iff classification csam_score nsfw_score age_est :
  (_should_route_to_review classification csam_score nsfw_score age_est = true
   <-> classification = CSAM_SUSPECT
       \/ (0.5 < csam_score)%Q
       \/ (exists a, age_est = Some a /\ is_minor_likely a = true
                     /\ (0.3 < nsfw_score)%Q))
  /\ (forall nsfw age, _should_route_to_review SAFE 0.51 nsfw age = true).
Proof.
  split; [|intros nsfw age; reflexivity].
  rewrite should_route_as_disjunction, !orb_true_iff, is_csam_suspect_iff, Qltb_lt.
  apply or_iff_compat_l, or_iff_compat_l.
  destruct age_est as [a|].
  - rewrite andb_true_iff, Qltb_lt. split.
    + intros (Hm & Hn). exists a. auto.
    + intros (a' & Ha & Hm & Hn). inversion Ha; subst a'. auto.
  - split; [discriminate|]. intros (a' & Ha & _). discriminate Ha.
Qed.

(** *** Composite risk score *)

Lemma max_default_greatest l d d' :
  (d == d')%Q -> greatest_or l d' (max_default l d).
Proof.
  intros Hd. destruct l as [|x l]; [exact Hd|].
  exact (fold_py_max_greatest l x).
Qed.

Lemma minor_score_spec age : (minor_score_of age == spec_minor_score age)%Q.
Proof.
  unfold minor_score_of, spec_minor_score.
  destruct age as [a|]; [|reflexivity].
  destruct (is_minor_likely a); [|reflexivity].
  rewrite py_max_Qmax. reflexivity.
Qed.

Lemma clamp_unit x : (py_min 1.0 (py_max 0.0 x) == clamp x 0 1)%Q.
Proof.
  unfold py_min, py_max, clamp.
  case_Qltb 0.0%Q x; case_Qltb x 0%Q; try lra.
  - case_Qltb x 1.0%Q; case_Qltb 1%Q x; lra.
  - case_Qltb 0.0%Q 1.0%Q; lra.
  - case_Qltb 0.0%Q 1.0%Q; case_Qltb 1%Q x; lra.
Qed.

Lemma clamp_compat x y : (x == y)%Q -> (clamp x 0 1 == clamp y 0 1)%Q.
Proof.
  intros H. unfold clamp.
  case_Qltb x 0%Q; case_Qltb y 0%Q; try lra;
    case_Qltb 1%Q x; case_Qltb 1%Q y; lra.
Qed.

Lemma clamp_range x : (0 <= clamp x 0 1 <= 1)%Q.
Proof. unfold clamp. case_Qltb x 0%Q; [lra|]. case_Qltb 1%Q x; lra. Qed.

Lemma clamp_inside x : (0 <= x <= 1)%Q -> (clamp x 0 1 == x)%Q.
Proof. intros H. unfold clamp. case_Qltb x 0%Q; [lra|]. case_Qltb 1%Q x; lra. Qed.

Lemma is_risky_scene_iff s :
  is_risky_scene s = true
  <-> category s = "scene_indoor_bedroom"
      \/ category s = "scene_indoor_bathroom"
      \/ category s = "scene_indoor_school".
Proof.
  unfold is_risky_scene, risky_scenes. cbn [existsb].
  rewrite !orb_true_iff, !String.eqb_eq. intuition discriminate.
Qed.

(** C3. The composite score is
    [clamp(0.35*explicit + 0.40*minor_score + 0.15*scene_risk
           + 0.10*(suggestive*minor_score), 0, 1)],
    with [minor_score = confidence * max(0, (18-age)/18)] when a minor is
    likely and 0 otherwise, and [scene_risk] the greatest score among the
    bedroom, bathroom and school scene entries, 0 when there is none. For
    explicit 1.0, age 10, confidence 1.0, a likely minor, scene risk 0 and
    suggestive 0 it is 19/36, which is 0.5278 to four decimals. *)
Theorem compute_csam_risk_formula nsfw age scene :
  let explicit := category_max nsfw "explicit_sexual" in
  let suggestive := category_max nsfw "suggestive" in
  let minor_score := spec_minor_score age in
  let scene_risk := scene_risk_of scene in
  (_compute_csam_risk nsfw age scene
   == clamp (0.35 * explicit + 0.40 * minor_score + 0.15 * scene_risk
             + 0.10 * (suggestive * minor_score)) 0 1)%Q
  /\ greatest_or (List.map score (List.filter is_risky_scene scene)) 0 scene_risk
  /\ (forall s, is_risky_scene s = true
                <-> category s = "scene_indoor_bedroom"
                    \/ category s = "scene_indoor_bathroom"
                    \/ category s = "scene_indoor_school")
  /\ greatest_or
       (List.map score
          (List.filter (fun s => String.eqb (category s) "explicit_sexual") nsfw))
       0 explicit
  /\ greatest_or
       (List.map score
          (List.filter (fun s => String.eqb (category s) "suggestive") nsfw))
       0 suggestive
  /\ (0 <= _compute_csam_risk nsfw age scene <= 1)%Q
  /\ (forall a,
         age = Some a -> is_minor_likely a = true ->
         (explicit == 1.0)%Q -> (estimated_age a == 10)%Q ->
         (confidence a == 1.0)%Q -> (scene_risk == 0)%Q -> (suggestive == 0)%Q ->
         (_compute_csam_risk nsfw age scene == 19 # 36)%Q
         /\ (0.52775 <= 19 # 36 < 0.52785)%Q).
Proof.
  intros explicit suggestive minor_score scene_risk.
  assert (Hf : (_compute_csam_risk nsfw age scene
                == clamp (0.35 * explicit + 0.40 * minor_score + 0.15 * scene_risk
                          + 0.10 * (suggestive * minor_score)) 0 1)%Q).
  { unfold _compute_csam_risk. rewrite clamp_unit. apply clamp_compat.
    fold explicit suggestive scene_risk.
    pose proof (minor_score_spec age) as Hm. fold minor_score in Hm.
    rewrite Hm. reflexivity. }
  split; [exact Hf|].
  split; [apply max_default_greatest; reflexivity|].
  split; [exact is_risky_scene_iff|].
  split; [apply max_default_greatest; reflexivity|].
  split; [apply max_default_greatest; reflexivity|].
  split; [rewrite Hf; apply clamp_range|].
  intros a -> Hm He Ha Hc Hs Hg.
  split; [|split; [unfold Qle|unfold Qlt]; cbn; lia].
  rewrite Hf. rewrite <- (clamp_inside (19 # 36));
    [|split; unfold Qle; cbn; lia].
  apply clamp_compat.
  assert (Hminor : (minor_score == 8 # 18)%Q).
  { subst minor_score. cbn [spec_minor_score]. rewrite Hm.
    assert (Hy : ((18 - estimated_age a) / 18 == 8 # 18)%Q)
      by (rewrite Ha; reflexivity).
    assert (Hmax : (Qmax 0 ((18 - estimated_age a) / 18)
                    == (18 - estimated_age a) / 18)%Q).
    { apply Q.max_r. rewrite Hy. unfold Qle. cbn. lia. }
    rewrite Hmax, Hy, Hc. reflexivity. }
  rewrite Hminor, He, Hs, Hg. reflexivity.
Qed.

(** The claim on the example of the design document. *)
Lemma compute_csam_risk_witness :
  (_compute_csam_risk
     [mkClassificationScore "explicit_sexual" 1.0 "nsfw_detector" "v3";
      mkClassificationScore "suggestive" 0.0 "nsfw_detector" "v3"]
     (Some (mkAgeEstimation 10 8 12 1.0 true "age_estimator_v2"))
     [mkClassificationScore "scene_indoor_office" 0.9 "scene_classifier" "v1"]
   == 19 # 36)%Q.
Proof.
  refine (proj1 (proj2 (proj2 (proj2 (proj2 (proj2 (proj2
    (compute_csam_risk_formula
       [mkClassificationScore "explicit_sexual" 1.0 "nsfw_detector" "v3";
        mkClassificationScore "suggestive" 0.0 "nsfw_detector" "v3"]
       (Some (mkAgeEstimation 10 8 12 1.0 true "age_estimator_v2"))
       [mkClassificationScore "scene_indoor_office" 0.9 "scene_classifier" "v1"]))))))
    _ eq_refl eq_refl _ _ _ _ _)); reflexivity.
Defined.

End ClassifierFacts.

(** ** The Hamming distance is a metric *)

Module HammingMetricFacts.
Import PyBuiltins Hashing HashingFacts.

Lemma set_bits_range w x : 0 <= set_bits w x <= Z.of_nat w.
Proof.
  unfold set_bits.
  pose proof (List.filter_length_le (fun i => Z.testbit x (Z.of_nat i)) (seq 0 w)) as H.
  rewrite length_seq in H. lia.
Qed.

Lemma filter_length_cover {A : Type} (f g h : A -> bool) l :
  (forall x, f x = true -> g x = true \/ h x = true) ->
  (List.length (List.filter f l)
   <= List.length (List.filter g l) + List.length (List.filter h l))%nat.
Proof.
  intros Hc. induction l as [|x l IH]; cbn [List.filter]; [lia|].
  specialize (Hc x).
  destruct (f x), (g x), (h x); cbn [List.length]; try lia;
    destruct (Hc eq_refl); discriminate.
Qed.

Lemma set_bits_triangle w x y z :
  set_bits w (Z.lxor x z) <= set_bits w (Z.lxor x y) + set_bits w (Z.lxor y z).
Proof.
  unfold set_bits.
  pose proof (filter_length_cover
                (fun i => Z.testbit (Z.lxor x z) (Z.of_nat i))
                (fun i => Z.testbit (Z.lxor x y) (Z.of_nat i))
                (fun i => Z.testbit (Z.lxor y z) (Z.of_nat i))
                (seq 0 w)) as H.
  cbv beta in H. rewrite <- Nat2Z.inj_add. apply Nat2Z.inj_le, H.
  intros i. rewrite !Z.lxor_spec.
  destruct (Z.testbit x (Z.of_nat i)), (Z.testbit y (Z.of_nat i)),
    (Z.testbit z (Z.of_nat i)); cbn; auto.
Qed.

Lemma pos_ones_pos p : 0 < pos_ones p.
Proof. induction p; cbn [pos_ones]; lia. Qed.

Lemma set_bits_zero_inv w x : 0 <= x < 2 ^ Z.of_nat w -> set_bits w x = 0 -> x = 0.
Proof.
  intros Hx H0. rewrite <- (ones_set_bits w x Hx) in H0.
  destruct x as [|p|p]; [reflexivity| |lia].
  cbn [ones] in H0. pose proof (pos_ones_pos p). lia.
Qed.

Lemma set_bits_lxor_zero_iff w x y :
  0 <= x < 2 ^ Z.of_nat w -> 0 <= y < 2 ^ Z.of_nat w ->
  set_bits w (Z.lxor x y) = 0 <-> x = y.
Proof.
  intros Hx Hy. split.
  - intros H0. apply Z.lxor_eq.
    apply (set_bits_zero_inv w); [|exact H0].
    apply lxor_bound; [lia|exact Hx|exact Hy].
  - intros ->. rewrite Z.lxor_nilpotent. apply set_bits_zero.
Qed.

Lemma byte_val_inj b1 b2 : byte_val b1 = byte_val b2 -> b1 = b2.
Proof.
  unfold byte_val. intros H. apply N2Z.inj in H.
  pose proof (Byte.of_to_N b1) as H1. rewrite H, Byte.of_to_N in H1.
  congruence.
Qed.

Lemma set_bits_bytes_range l : 0 <= set_bits_bytes l <= 8 * Z.of_nat (List.length l).
Proof.
  induction l as [|x l IH]; cbn [set_bits_bytes fold_right List.length]; [lia|].
  pose proof (set_bits_range 8 x). unfold set_bits_bytes in IH. lia.
Qed.

Lemma length_bytes_xor a : forall b,
  List.length a = List.length b -> List.length (bytes_xor a b) = List.length a.
Proof.
  unfold bytes_xor.
  induction a as [|x a IH]; intros [|y b] H; cbn [zip List.map List.length] in *;
    try lia.
  rewrite IH by lia. reflexivity.
Qed.

Lemma bytes_xor_zero_iff a : forall b,
  List.length a = List.length b ->
  set_bits_bytes (bytes_xor a b) = 0 <-> a = b.
Proof.
  unfold bytes_xor.
  induction a as [|x a IH]; intros [|y b] H; cbn [List.length] in H; try lia.
  - split; reflexivity.
  - cbn [zip List.map set_bits_bytes fold_right].
    pose proof (set_bits_range 8 (Z.lxor (byte_val x) (byte_val y))) as Hr.
    pose proof (set_bits_bytes_range
                  (List.map (fun '(b1, b2) => Z.lxor (byte_val b1) (byte_val b2))
                     (zip a b))) as Hr'.
    unfold set_bits_bytes in Hr'.
    specialize (IH b ltac:(lia)). unfold set_bits_bytes in IH.
    split.
    + intros H0.
      assert (Hx : set_bits 8 (Z.lxor (byte_val x) (byte_val y)) = 0) by lia.
      apply set_bits_lxor_zero_iff in Hx; try apply byte_val_range.
      apply byte_val_inj in Hx. subst y. f_equal. apply IH. lia.
    + intros E. inversion E; subst.
      rewrite Z.lxor_nilpotent, set_bits_zero.
      rewrite (proj2 IH eq_refl). reflexivity.
Qed.

Lemma bytes_xor_triangle a : forall b c,
  List.length a = List.length b -> List.length b = List.length c ->
  set_bits_bytes (bytes_xor a c)
  <= set_bits_bytes (bytes_xor a b) + set_bits_bytes (bytes_xor b c).
Proof.
  unfold bytes_xor.
  induction a as [|x a IH]; intros [|y b] [|z c] H1 H2;
    cbn [List.length] in H1, H2; try lia;
    cbn [zip List.map set_bits_bytes fold_right]; [lia|].
  specialize (IH b c ltac:(lia) ltac:(lia)). unfold set_bits_bytes in IH.
  pose proof (set_bits_triangle 8 (byte_val x) (byte_val y) (byte_val z)). lia.
Qed.

(** X1. On byte strings of one length the Hamming distance is a metric
    bounded by the number of bits: it lies between 0 and 8 times the
    length, is 0 exactly for equal strings, and satisfies the triangle
    inequality. *)
Theorem hamming_bytes_metric (a b c : list byte) :
  List.length a = List.length b -> List.length b = List.length c ->
  exists dab dbc dac,
    hamming_distance_bytes a b = Ok dab
    /\ hamming_distance_bytes b c = Ok dbc
    /\ hamming_distance_bytes a c = Ok dac
    /\ 0 <= dab <= 8 * Z.of_nat (List.length a)
    /\ (dab = 0 <-> a = b)
    /\ dac <= dab + dbc.
Proof.
  intros H1 H2.
  exists (set_bits_bytes (bytes_xor a b)), (set_bits_bytes (bytes_xor b c)),
    (set_bits_bytes (bytes_xor a c)).
  rewrite !hamming_bytes_set_bits by congruence.
  repeat (split; [reflexivity|]).
  split; [|split].
  - pose proof (set_bits_bytes_range (bytes_xor a b)) as Hr.
    rewrite length_bytes_xor in Hr by exact H1. exact Hr.
  - apply bytes_xor_zero_iff, H1.
  - apply bytes_xor_triangle; assumption.
Qed.

Lemma hamming_bytes_metric_witness :
  exists dab dbc dac,
    hamming_distance_bytes [x0f; xff] [x00; xff] = Ok dab
    /\ hamming_distance_bytes [x00; xff] [x01; x0f] = Ok dbc
    /\ hamming_distance_bytes [x0f; xff] [x01; x0f] = Ok dac
    /\ 0 <= dab <= 8 * Z.of_nat 2
    /\ (dab = 0 <-> [x0f; xff] = [x00; xff])
    /\ dac <= dab + dbc.
Proof.
  exact (hamming_bytes_metric [x0f; xff] [x00; xff] [x01; x0f] eq_refl eq_refl).
Defined.

(** X2. On hex hashes of one length the Hamming distance is between 0
    and four times the length, is 0 exactly when the two hashes are the
    same number, and satisfies the triangle inequality. *)
Theorem hamming_hex_metric (a b c : string) :
  is_hex_hash a = true -> is_hex_hash b = true -> is_hex_hash c = true ->
  String.length a = String.length b -> String.length b = String.length c ->
  exists dab dbc dac,
    hamming_distance_hex a b = Ok dab
    /\ hamming_distance_hex b c = Ok dbc
    /\ hamming_distance_hex a c = Ok dac
    /\ 0 <= dab <= 4 * Z.of_nat (String.length a)
    /\ (dab = 0 <-> int16 a = int16 b)
    /\ dac <= dab + dbc.
Proof.
  intros Ha Hb Hc Hab Hbc.
  destruct (int16_hex a Ha) as (va & Hva & Ra).
  destruct (int16_hex b Hb) as (vb & Hvb & Rb).
  destruct (int16_hex c Hc) as (vc & Hvc & Rc).
  assert (Rc' : 0 <= vc < 2 ^ Z.of_nat (4 * String.length b))
    by (rewrite Hbc; exact Rc).
  pose proof (hamming_hex_set_bits b c vb vc Hbc Hvb Hvc Rb Rc') as Ebc.
  rewrite <- Hab in Rb, Rc', Ebc.
  exists (set_bits (4 * String.length a) (Z.lxor va vb)),
    (set_bits (4 * String.length a) (Z.lxor vb vc)),
    (set_bits (4 * String.length a) (Z.lxor va vc)).
  split; [apply hamming_hex_set_bits; assumption|].
  split; [exact Ebc|].
  split; [apply hamming_hex_set_bits; try assumption; congruence|].
  split; [|split].
  - pose proof (set_bits_range (4 * String.length a) (Z.lxor va vb)). lia.
  - rewrite set_bits_lxor_zero_iff by assumption. rewrite Hva, Hvb.
    split; [intros ->; reflexivity|intros E; inversion E; reflexivity].
  - apply set_bits_triangle.
Qed.

Lemma hamming_hex_metric_witness :
  exists dab dbc dac,
    hamming_distance_hex "ff00" "FF00" = Ok dab
    /\ hamming_distance_hex "FF00" "0f0f" = Ok dbc
    /\ hamming_distance_hex "ff00" "0f0f" = Ok dac
    /\ 0 <= dab <= 4 * Z.of_nat 4
    /\ (dab = 0 <-> int16 "ff00" = int16 "FF00")
    /\ dac <= dab + dbc.
Proof.
  exact (hamming_hex_metric "ff00" "FF00" "0f0f"
           eq_refl eq_refl eq_refl eq_refl eq_refl).
Defined.

End HammingMetricFacts.

(** ** The hex form of a PDQ hash *)

Module PdqHexFacts.
Import PyBuiltins Hashing HashingFacts.

(** [int_of_bits] continued from an accumulator. *)
Lemma int_of_bits_app bits : forall acc,
  fold_left (fun a (b : bool) => 2 * a + (if b then 1 else 0)) bits acc
  = acc * 2 ^ Z.of_nat (List.length bits) + int_of_bits bits.
Proof.
  unfold int_of_bits.
  induction bits as [|b bits IH]; intros acc; cbn [fold_left List.length].
  - change (2 ^ Z.of_nat 0) with 1. lia.
  - rewrite IH, (IH (2 * 0 + _)), Nat2Z.inj_succ, Z.pow_succ_r by lia. lia.
Qed.

Lemma int_of_bits_concat l1 l2 :
  int_of_bits (l1 ++ l2)
  = int_of_bits l1 * 2 ^ Z.of_nat (List.length l2) + int_of_bits l2.
Proof.
  unfold int_of_bits at 1. rewrite fold_left_app, int_of_bits_app. reflexivity.
Qed.

Lemma int_of_bits_range bits :
  0 <= int_of_bits bits < 2 ^ Z.of_nat (List.length bits).
Proof.
  induction bits as [|b bits IH] using rev_ind.
  - cbn. lia.
  - unfold int_of_bits in *. rewrite fold_left_app, length_app.
    cbn [fold_left List.length].
    rewrite Nat.add_1_r, Nat2Z.inj_succ, Z.pow_succ_r by lia.
    destruct b; lia.
Qed.

Lemma hex_digit_hex_char d : 0 <= d < 16 -> hex_digit (hex_char d) = Some d.
Proof.
  intros H.
  assert (d = 0 \/ d = 1 \/ d = 2 \/ d = 3 \/ d = 4 \/ d = 5 \/ d = 6 \/ d = 7
          \/ d = 8 \/ d = 9 \/ d = 10 \/ d = 11 \/ d = 12 \/ d = 13 \/ d = 14
          \/ d = 15) as Hd by lia.
  repeat (destruct Hd as [->|Hd]; [reflexivity|]). subst. reflexivity.
Qed.

Lemma format_02x_append n s :
  format_02x n +:+ s
  = String (hex_char (n / 16)) (String (hex_char (n mod 16)) s).
Proof. reflexivity. Qed.

(** Reading the two digits of a byte back. *)
Lemma hex_digits_format_02x n s acc :
  0 <= n < 256 ->
  hex_digits (format_02x n +:+ s) acc = hex_digits s (256 * acc + n).
Proof.
  intros Hn. rewrite format_02x_append. cbn [hex_digits].
  rewrite !hex_digit_hex_char.
  - f_equal. pose proof (Z.div_mod n 16 ltac:(lia)). lia.
  - apply Z.mod_pos_bound. lia.
  - split; [apply Z.div_pos; lia|apply Z.div_lt_upper_bound; lia].
Qed.

Lemma all_hex_format_02x n s :
  0 <= n < 256 -> all_hex (format_02x n +:+ s) = all_hex s.
Proof.
  intros Hn. rewrite format_02x_append. cbn [all_hex].
  rewrite !hex_digit_hex_char; [reflexivity| |].
  - apply Z.mod_pos_bound. lia.
  - split; [apply Z.div_pos; lia|apply Z.div_lt_upper_bound; lia].
Qed.

(** The hex string of a vector of [8 k] bits, chunk by chunk. *)
Lemma pdq_hex_chunks k : forall v fuel,
  List.length v = (8 * k)%nat -> (k <= fuel)%nat ->
  forall acc,
    hex_digits
      (fold_right String.append EmptyString
         (List.map (fun c => format_02x (int_of_bits c)) (chunks8 fuel v)))
      acc
    = Some (acc * 2 ^ Z.of_nat (List.length v) + int_of_bits v)
    /\ all_hex
         (fold_right String.append EmptyString
            (List.map (fun c => format_02x (int_of_bits c)) (chunks8 fuel v)))
       = true
    /\ String.length
         (fold_right String.append EmptyString
            (List.map (fun c => format_02x (int_of_bits c)) (chunks8 fuel v)))
       = (2 * k)%nat.
Proof.
  induction k as [|k IH]; intros v fuel Hlen Hfuel acc.
  - destruct v; [|discriminate Hlen].
    destruct fuel; cbn; (split; [f_equal; lia|split; reflexivity]).
  - destruct fuel as [|fuel]; [lia|].
    destruct v as [|b0 v0] eqn:Ev; [discriminate Hlen|]. rewrite <- Ev in *.
    assert (Hv : v = firstn 8 v ++ skipn 8 v) by (symmetry; apply firstn_skipn).
    assert (Hf : List.length (firstn 8 v) = 8%nat)
      by (rewrite length_firstn; lia).
    assert (Hs : List.length (skipn 8 v) = (8 * k)%nat)
      by (rewrite length_skipn; lia).
    assert (Hc : chunks8 (S fuel) v = firstn 8 v :: chunks8 fuel (skipn 8 v))
      by (rewrite Ev at 1; cbn [chunks8]; rewrite <- Ev; reflexivity).
    rewrite Hc. cbn [List.map fold_right].
    pose proof (int_of_bits_range (firstn 8 v)) as Hr. rewrite Hf in Hr.
    change (2 ^ Z.of_nat 8) with 256 in Hr.
    destruct (IH (skipn 8 v) fuel Hs ltac:(lia)
                (256 * acc + int_of_bits (firstn 8 v))) as (Hd & Ha & Hl).
    split; [|split].
    + rewrite hex_digits_format_02x by exact Hr. rewrite Hd. f_equal.
      pose proof (int_of_bits_concat (firstn 8 v) (skipn 8 v)) as E1.
      rewrite firstn_skipn in E1. rewrite E1, Hs, Hlen.
      replace (Z.of_nat (8 * S k)) with (8 + Z.of_nat (8 * k)) by lia.
      rewrite Z.pow_add_r by lia. change (2 ^ 8) with 256. lia.
    + rewrite all_hex_format_02x by exact Hr. exact Ha.
    + rewrite format_02x_append. cbn [String.length]. rewrite Hl. lia.
Qed.

(** X3. The hex string [_compute_pdq] builds from a hash vector of [8 k]
    bits ([k > 0]; 256 bits for PDQ) has [2 k] hexadecimal digits and reads
    back, as a base-16 number, to the number whose binary digits are the
    vector; the quality is passed through. *)
Theorem compute_pdq_hex_roundtrip
    (pdqhash_compute : list byte -> result (list bool * Z)) content v quality k :
  pdqhash_compute content = Ok (v, quality) ->
  (0 < k)%nat -> List.length v = (8 * k)%nat ->
  _compute_pdq pdqhash_compute content = Ok (pdq_hex v, quality)
  /\ is_hex_hash (pdq_hex v) = true
  /\ String.length (pdq_hex v) = (2 * k)%nat
  /\ int16 (pdq_hex v) = Ok (int_of_bits v).
Proof.
  intros Hc Hk Hlen.
  split; [unfold _compute_pdq; rewrite Hc; reflexivity|].
  destruct (pdq_hex_chunks k v (List.length v) Hlen ltac:(lia) 0) as (Hd & Ha & Hl).
  fold (pdq_hex v) in Hd, Ha, Hl.
  assert (Hne : pdq_hex v <> EmptyString).
  { intros E. rewrite E in Hl. cbn in Hl. lia. }
  split; [|split; [exact Hl|]].
  - unfold is_hex_hash. destruct (pdq_hex v); [contradiction|exact Ha].
  - unfold int16. destruct (pdq_hex v) eqn:E; [contradiction|].
    rewrite Hd. f_equal; lia.
Qed.

Lemma compute_pdq_hex_roundtrip_witness :
  _compute_pdq
    (fun _ => Ok ([true; true; true; true; false; false; false; true;
                   false; false; false; false; true; false; true; false], 87))
    [x00]
  = Ok ("f10a", 87)
  /\ int16 "f10a" = Ok 61706.
Proof.
  destruct (compute_pdq_hex_roundtrip
    (fun _ => Ok ([true; true; true; true; false; false; false; true;
                   false; false; false; false; true; false; true; false], 87))
    [x00] _ 87 2%nat eq_refl ltac:(lia) eq_refl) as (H1 & _ & _ & H4).
  split; [exact H1|exact H4].
Defined.

Lemma lxor_double a b (x y : bool) :
  Z.lxor (2 * a + Z.b2z x) (2 * b + Z.b2z y) = 2 * Z.lxor a b + Z.b2z (xorb x y).
Proof.
  apply Z.bits_inj'. intros n Hn. rewrite Z.lxor_spec.
  destruct (Z.eq_dec n 0) as [->|Hne].
  - rewrite !Z.testbit_0_r. reflexivity.
  - replace n with (Z.succ (n - 1)) by lia.
    rewrite !Z.testbit_succ_r by lia. symmetry. apply Z.lxor_spec.
Qed.

Lemma ones_double z (c : bool) : 0 <= z -> ones (2 * z + Z.b2z c) = ones z + Z.b2z c.
Proof.
  intros Hz. rewrite (ones_div2 (2 * z + Z.b2z c)) by (destruct c; cbn; lia).
  rewrite <- Z.bit0_odd, Z.testbit_0_r, Z.div2_div.
  replace ((2 * z + Z.b2z c) / 2) with z; [lia|].
  apply (Z.div_unique _ 2 z (Z.b2z c)); [left; destruct c; cbn; lia|reflexivity].
Qed.

(** Reading two bit vectors of one length in parallel: each position adds
    its difference to the set bits of the XOR. *)
Lemma ones_lxor_bits v : forall w a b,
  List.length v = List.length w -> 0 <= a -> 0 <= b ->
  ones (Z.lxor
          (fold_left (fun a (b : bool) => 2 * a + (if b then 1 else 0)) v a)
          (fold_left (fun a (b : bool) => 2 * a + (if b then 1 else 0)) w b))
  = ones (Z.lxor a b) + HashingExt.differing_bits v w.
Proof.
  unfold HashingExt.differing_bits.
  induction v as [|x v IH]; intros [|y w] a b Hlen Ha Hb;
    cbn [List.length] in Hlen; try lia; cbn [fold_left zip List.filter].
  - cbn. lia.
  - rewrite IH by (destruct x, y; lia).
    replace (if x then 1 else 0) with (Z.b2z x) by (destruct x; reflexivity).
    replace (if y then 1 else 0) with (Z.b2z y) by (destruct y; reflexivity).
    rewrite lxor_double, ones_double by (apply Z.lxor_nonneg; lia).
    destruct (xorb x y); cbn [Z.b2z List.length]; lia.
Qed.

(** X4. The Hamming distance between the hex strings of two hash vectors
    of the same length (a positive multiple of 8) is the number of
    positions at which the two vectors differ. *)
Theorem hamming_pdq_hex_differing_bits v w k :
  (0 < k)%nat -> List.length v = (8 * k)%nat -> List.length w = (8 * k)%nat ->
  hamming_distance_hex (pdq_hex v) (pdq_hex w)
  = Ok (HashingExt.differing_bits v w).
Proof.
  intros Hk Hv Hw.
  destruct (pdq_hex_chunks k v (List.length v) Hv ltac:(lia) 0) as (Hdv & _ & Hlv).
  destruct (pdq_hex_chunks k w (List.length w) Hw ltac:(lia) 0) as (Hdw & _ & Hlw).
  fold (pdq_hex v) in Hdv, Hlv. fold (pdq_hex w) in Hdw, Hlw.
  assert (Ev : int16 (pdq_hex v) = Ok (int_of_bits v)).
  { unfold int16. destruct (pdq_hex v) eqn:E; [cbn in Hlv; lia|].
    rewrite Hdv. f_equal; lia. }
  assert (Ew : int16 (pdq_hex w) = Ok (int_of_bits w)).
  { unfold int16. destruct (pdq_hex w) eqn:E; [cbn in Hlw; lia|].
    rewrite Hdw. f_equal; lia. }
  unfold hamming_distance_hex.
  replace (len_str (pdq_hex v) =? len_str (pdq_hex w)) with true
    by (symmetry; apply len_str_eqb; congruence).
  cbn [negb]. rewrite Ev, Ew. cbn.
  pose proof (int_of_bits_range v) as Rv. pose proof (int_of_bits_range w) as Rw.
  rewrite str_count_bin by (apply Z.lxor_nonneg; lia).
  unfold int_of_bits. rewrite ones_lxor_bits by lia. reflexivity.
Qed.

Lemma hamming_pdq_hex_witness :
  hamming_distance_hex
    (pdq_hex [true; true; true; true; false; false; false; true])
    (pdq_hex [true; false; true; true; false; false; true; true])
  = Ok 2.
Proof.
  exact (hamming_pdq_hex_differing_bits
           [true; true; true; true; false; false; false; true]
           [true; false; true; true; false; false; true; true]
           1%nat ltac:(lia) eq_refl eq_refl).
Defined.

End PdqHexFacts.

(** ** Hash computation and search: accounting and failures *)

Module HashServiceFacts.
Import Hashing HashingExt.

(** X5. Whatever the feature flags and whatever the algorithms do, the
    result carries the given sha256, each attempted algorithm either fills
    its field or records one error (so fields and errors add up to the
    number of attempted algorithms), a field is only filled by an algorithm
    that is switched on, and the PDQ hash and its quality come together. *)
Theorem compute_all_hashes_accounting
    (imagehash_phash : list byte -> result string)
    (pdqhash_compute : list byte -> result (list bool * Z))
    svc content sha :
  let r := compute_all_hashes imagehash_phash pdqhash_compute svc content sha in
  sha256 r = sha
  /\ populated r + Z.of_nat (List.length (errors r)) = attempted svc
  /\ (present (phash r) <= Z.b2z (enable_phash (_settings svc)))
  /\ (present (pdq_hash r) <= Z.b2z (enable_pdq (_settings svc)))
  /\ (present (photodna_hash r)
      <= Z.b2z (enable_photodna (_settings svc)
                && match _photodna svc with Some _ => true | None => false end))
  /\ present (pdq_quality r) = present (pdq_hash r).
Proof.
  unfold compute_all_hashes, _compute_phash, _compute_pdq, populated, attempted.
  destruct (enable_phash (_settings svc)), (enable_pdq (_settings svc)),
    (enable_photodna (_settings svc)), (_photodna svc) as [client|];
    try destruct (imagehash_phash content) as [h|e1];
    try destruct (pdqhash_compute content) as [[v q]|e2];
    try destruct (client content) as [d|e3];
    cbn; repeat split; lia.
Qed.

(** X6. When no search raises, the matches are the entries the hash
    database returned, one match per entry and in the order pHash, PDQ,
    PhotoDNA, all carrying the sha256 of the hash result; the service does
    not filter them by distance itself. *)
Theorem search_known_databases_complete svc hr ps ds ns :
  phash_search svc hr = Ok ps ->
  pdq_search svc hr = Ok ds ->
  photodna_search svc hr = Ok ns ->
  search_known_databases svc hr
  = Ok (List.map (phash_match (sha256 hr)) ps
        ++ List.map (pdq_match (sha256 hr)) ds
        ++ List.map (photodna_match (sha256 hr)) ns)
  /\ forall m,
       In m (List.map (phash_match (sha256 hr)) ps
             ++ List.map (pdq_match (sha256 hr)) ds
             ++ List.map (photodna_match (sha256 hr)) ns) ->
       match_sha256 m = sha256 hr.
Proof.
  unfold phash_search, pdq_search, photodna_search, search_known_databases.
  intros Hp Hd Hn. split.
  - destruct (truthy_str (phash hr)) as [h1|];
      [rewrite Hp|inversion Hp; subst ps];
      (destruct (truthy_str (pdq_hash hr)) as [h2|];
       [rewrite Hd|inversion Hd; subst ds]);
      (destruct (truthy_bytes (photodna_hash hr)) as [h3|];
       [rewrite Hn|inversion Hn; subst ns]);
      cbn; rewrite ?app_nil_r, <- ?app_assoc; reflexivity.
  - intros m Hin. rewrite !in_app_iff, !in_map_iff in Hin.
    destruct Hin as [(r & <- & _)|[(r & <- & _)|(r & <- & _)]]; reflexivity.
Qed.

Lemma search_known_databases_complete_witness :
  search_known_databases
    (mkPerceptualHashService (mkHashSettings true true true 10)
       (mkHashDatabase (fun _ _ => Ok [mkDbMatch 40 "ncmec" "known" None])
          (fun _ _ => Ok []) (fun _ _ => Ok []))
       None)
    (mkHashResult "e3b0" (Some "c3d2e1f0a5b49687") None None None [])
  = Ok [mkSimilarityMatch "e3b0" "phash" 40 "ncmec" "known"
          (1 - inject_Z 40 / 64)%Q].
Proof.
  exact (proj1 (search_known_databases_complete
    (mkPerceptualHashService (mkHashSettings true true true 10)
       (mkHashDatabase (fun _ _ => Ok [mkDbMatch 40 "ncmec" "known" None])
          (fun _ _ => Ok []) (fun _ _ => Ok []))
       None)
    (mkHashResult "e3b0" (Some "c3d2e1f0a5b49687") None None None [])
    [mkDbMatch 40 "ncmec" "known" None] [] [] eq_refl eq_refl eq_refl)).
Defined.

(** X7. The search raises exactly when one of the searches it makes
    raises, and then with the exception of the first one that does, in the
    order pHash, PDQ, PhotoDNA: no partial list of matches is returned. A
    hash result without any non-empty hash makes no search and yields the
    empty list. *)
Theorem search_known_databases_raises svc hr e :
  (search_known_databases svc hr = Raise e
   <-> phash_search svc hr = Raise e
       \/ (~ raised (phash_search svc hr) /\ pdq_search svc hr = Raise e)
       \/ (~ raised (phash_search svc hr) /\ ~ raised (pdq_search svc hr)
           /\ photodna_search svc hr = Raise e))
  /\ (truthy_str (phash hr) = None -> truthy_str (pdq_hash hr) = None ->
      truthy_bytes (photodna_hash hr) = None ->
      search_known_databases svc hr = Ok []).
Proof.
  unfold phash_search, pdq_search, photodna_search, search_known_databases.
  split.
  - destruct (truthy_str (phash hr)) as [h1|];
      [destruct (search_phash _ h1 _) as [ps|e1]|];
      (destruct (truthy_str (pdq_hash hr)) as [h2|];
       [destruct (search_pdq _ h2 _) as [ds|e2]|]);
      (destruct (truthy_bytes (photodna_hash hr)) as [h3|];
       [destruct (search_photodna _ h3 _) as [ns|e3]|]);
      cbn; split; intros H;
      try discriminate H;
      try (inversion H; subst; tauto);
      try (destruct H as [H|[(Hn & H)|(Hn1 & Hn2 & H)]];
           try discriminate H; try contradiction; try (cbn in *; tauto);
           try (inversion H; subst; reflexivity)).
  - intros -> -> ->. reflexivity.
Qed.

Lemma confidence_in_unit d n :
  0 < n ->
  (0 <= 1 - inject_Z d / inject_Z n <= 1)%Q <-> 0 <= d <= n.
Proof.
  intros Hn.
  assert (Hq : (inject_Z 0 < inject_Z n)%Q) by (rewrite <- Zlt_Qlt; exact Hn).
  change (inject_Z 0) with 0%Q in Hq.
  assert (Hdiv : (inject_Z d / inject_Z n * inject_Z n == inject_Z d)%Q).
  { field. lra. }
  rewrite (Zle_Qle 0 d), (Zle_Qle d n).
  change (inject_Z 0) with 0%Q.
  set (x := inject_Z d) in *. set (y := inject_Z n) in *.
  set (q := (x / y)%Q) in *.
  split.
  - intros (H0 & H1). split.
    + assert ((0 <= q * y)%Q) by (apply Qmult_le_0_compat; lra). lra.
    + assert ((q * y <= 1 * y)%Q) by (apply Qmult_le_compat_r; lra). lra.
  - intros (H0 & H1).
    assert (Hq0 : (0 <= q)%Q).
    { unfold q. apply Qle_shift_div_l; [exact Hq|lra]. }
    assert (Hq1 : (q <= 1)%Q).
    { unfold q. apply Qle_shift_div_r; [exact Hq|lra]. }
    lra.
Qed.

(** X8. The confidence of a pHash or PDQ match is not clamped: it lies in
    [0, 1] exactly when the distance the database reported lies between 0
    and the bit length of the hash (64 for pHash, 256 for PDQ). *)
Theorem search_confidence_in_unit_iff svc hr matches m :
  search_known_databases svc hr = Ok matches ->
  In m matches ->
  (hash_type m = "phash" ->
   ((0 <= confidence m <= 1)%Q <-> 0 <= distance m <= 64))
  /\ (hash_type m = "pdq" ->
      ((0 <= confidence m <= 1)%Q <-> 0 <= distance m <= 256)).
Proof.
  intros H Hin.
  destruct (SimilaritySearchFacts.search_match_origin _ _ _ _ H Hin)
    as [(r & ->)|[(r & ->)|(r & Hr & ->)]];
    cbn [hash_type confidence distance phash_match pdq_match photodna_match].
  - split; [intros _|discriminate].
    exact (confidence_in_unit (db_distance r) 64 ltac:(lia)).
  - split; [discriminate|intros _].
    exact (confidence_in_unit (db_distance r) 256 ltac:(lia)).
  - split; discriminate.
Qed.

Lemma search_confidence_in_unit_witness :
  (0 <= confidence (phash_match "e3b0" (mkDbMatch 8 "ncmec" "known" None)) <= 1)%Q
  <-> 0 <= 8 <= 64.
Proof.
  exact (proj1 (search_confidence_in_unit_iff
    (mkPerceptualHashService (mkHashSettings true true true 10)
       (mkHashDatabase (fun _ _ => Ok [mkDbMatch 8 "ncmec" "known" None])
          (fun _ _ => Ok []) (fun _ _ => Ok []))
       None)
    (mkHashResult "e3b0" (Some "c3d2e1f0a5b49687") None None None [])
    [phash_match "e3b0" (mkDbMatch 8 "ncmec" "known" None)]
    (phash_match "e3b0" (mkDbMatch 8 "ncmec" "known" None))
    eq_refl (or_introl eq_refl)) eq_refl).
Defined.

End HashServiceFacts.

(** ** Model registry: registration, loading and statistics *)

Module RegistryMoreFacts.
Import Registry RegistryExt PyDictFacts PyNumFacts.

Lemma set_absent {V : Type} (d : PyDict.dict V) k v :
  PyDict.get d k = None -> PyDict.set d k v = d ++ [(k, v)].
Proof.
  induction d as [|[k' v'] d IH]; cbn [PyDict.get PyDict.set app]; [reflexivity|].
  destruct (String.eqb k' k); [discriminate|].
  intros H. rewrite IH by exact H. reflexivity.
Qed.

(** Assigning to a present key replaces its first entry in place. *)
Lemma set_present {V : Type} (d : PyDict.dict V) k v v0 :
  PyDict.get d k = Some v0 ->
  exists l1 l2,
    d = l1 ++ (k, v0) :: l2
    /\ PyDict.set d k v = l1 ++ (k, v) :: l2.
Proof.
  induction d as [|[k' v'] d IH]; cbn [PyDict.get PyDict.set]; [discriminate|].
  destruct (String.eqb k' k) eqn:E; intros H.
  - apply String.eqb_eq in E. subst k'. inversion H; subst v'.
    exists [], d. split; reflexivity.
  - destruct (IH H) as (l1 & l2 & -> & ->).
    exists ((k', v') :: l1), l2. split; reflexivity.
Qed.

Section facts.
Context {Session Tensor : Type}.
Variable InferenceSession : string -> list string -> result Session.
Variable session_run : Session -> Tensor -> result (list Q).

Abbreviation registry := (@ModelRegistry Session).

(** X9. Registering a descriptor makes it the one found under its id,
    leaves every other id and all the sessions as they were, and never
    duplicates an id: a known id keeps its place in the registry, a new one
    is added at the end. *)
Theorem register_lookup (reg : registry) d :
  PyDict.get (_models (register reg d)) (model_id d) = Some d
  /\ (forall id, id <> model_id d ->
        PyDict.get (_models (register reg d)) id = PyDict.get (_models reg) id)
  /\ _sessions (register reg d) = _sessions reg
  /\ (PyDict.contains (_models reg) (model_id d) = true ->
      PyDict.keys (_models (register reg d)) = PyDict.keys (_models reg))
  /\ (PyDict.contains (_models reg) (model_id d) = false ->
      _models (register reg d) = _models reg ++ [(model_id d, d)]).
Proof.
  unfold register, PyDict.contains. cbn [_models _sessions].
  split; [apply get_set_eq|].
  split; [intros id Hne; apply get_set_ne; congruence|].
  split; [reflexivity|].
  destruct (PyDict.get (_models reg) (model_id d)) as [d0|] eqn:Hd; split;
    try discriminate; intros _.
  - eapply keys_set_present, Hd.
  - apply set_absent, Hd.
Qed.

(** X10. Life cycle of a registered model. Loading an ONNX model whose
    session can be created makes [predict] answer with whatever that
    session's run answers, and unloading it again makes [predict] raise the
    RuntimeError of an unloaded model. When the session cannot be created
    the exception is passed on and the registry is unchanged. A model of
    another type is "loaded" without error and without effect. An unknown
    id raises ValueError and leaves the registry unchanged. *)
Theorem load_predict_unload (reg : registry) id device d tensor elapsed now :
  PyDict.get (_models reg) id = Some d ->
  0 <= total_inferences d ->
  (model_type d = "onnx" ->
   forall s,
     InferenceSession (model_path d) (providers_for device) = Ok s ->
     fst (load_model InferenceSession reg id device) = Ok tt
     /\ fst (predict session_run
               (snd (load_model InferenceSession reg id device))
               id tensor elapsed now)
        = session_run s tensor
     /\ fst (predict session_run
               (unload_model (snd (load_model InferenceSession reg id device)) id)
               id tensor elapsed now)
        = Raise (RuntimeError ("Model " +:+ id +:+ " is not loaded")))
  /\ (model_type d = "onnx" ->
      forall e,
        InferenceSession (model_path d) (providers_for device) = Raise e ->
        load_model InferenceSession reg id device = (Raise e, reg))
  /\ (model_type d <> "onnx" ->
      load_model InferenceSession reg id device = (Ok tt, reg))
  /\ (forall id',
         PyDict.get (_models reg) id' = None ->
         load_model InferenceSession reg id' device
         = (Raise (ValueError ("Unknown model: " +:+ id')), reg)).
Proof.
  intros Hd Hn. unfold load_model, providers_for.
  split; [|split; [|split]].
  - intros Hty s Hs. rewrite Hd, Hty, String.eqb_refl.
    fold (providers_for device). unfold providers_for at 1 2 3.
    rewrite Hs. cbn [fst snd].
    split; [reflexivity|]. split.
    + unfold predict. cbn [_sessions _models].
      rewrite lookup_insert_eq, get_set_eq. cbn [model_type set_loaded].
      rewrite Hty, String.eqb_refl.
      destruct (session_run s tensor) as [o|e]; [|reflexivity].
      cbn [total_inferences set_total_inferences set_loaded].
      destruct (total_inferences d + 1 =? 0) eqn:E0; [lia|reflexivity].
    + unfold predict, unload_model. cbn [_sessions _models].
      rewrite lookup_delete_eq. reflexivity.
  - intros Hty e He. rewrite Hd, Hty, String.eqb_refl, He. reflexivity.
  - intros Hty. rewrite Hd.
    destruct (String.eqb (model_type d) "onnx") eqn:E; [|reflexivity].
    apply String.eqb_eq in E. contradiction.
  - intros id' Hnone. rewrite Hnone. reflexivity.
Qed.

(** One successful [predict], in terms of the registered descriptor. *)
Lemma predict_success_step (reg : registry) id d s tensor out elapsed now :
  PyDict.get (_models reg) id = Some d ->
  _sessions reg !! id = Some s ->
  model_type d = "onnx" ->
  session_run s tensor = Ok out ->
  0 <= total_inferences d ->
  exists d',
    PyDict.get (_models (snd (predict session_run reg id tensor elapsed now))) id
    = Some d'
    /\ _sessions (snd (predict session_run reg id tensor elapsed now))
       = _sessions reg
    /\ model_type d' = "onnx"
    /\ total_inferences d' = total_inferences d + 1
    /\ ((0 <= avg_latency_ms d)%Q -> (0 <= elapsed)%Q -> (0 <= avg_latency_ms d')%Q)
    /\ last_inference d' = Some now.
Proof.
  intros Hd Hs Hty Hrun Hn.
  assert (Hok : fst (predict session_run reg id tensor elapsed now) = Ok out).
  { apply (RegistryFacts.predict_ok_iff session_run reg id d); eauto. }
  rewrite (RegistryFacts.predict_success_update session_run reg id d tensor
             elapsed now out Hd Hn Hok).
  eexists. split; [apply get_set_eq|].
  cbn [_sessions model_type total_inferences avg_latency_ms last_inference
       set_last_inference set_avg_latency_ms set_total_inferences].
  repeat (split; [solve [reflexivity|assumption]|]).
  split; [|reflexivity].
  intros Ha He.
  replace (total_inferences d + 1 - 1) with (total_inferences d) by lia.
  assert (Hq : (0 < inject_Z (total_inferences d + 1))%Q).
  { change 0%Q with (inject_Z 0). rewrite <- Zlt_Qlt. lia. }
  assert (Hm : (0 <= inject_Z (total_inferences d))%Q).
  { change 0%Q with (inject_Z 0). rewrite <- Zle_Qle. exact Hn. }
  apply Qle_shift_div_l; [exact Hq|]. rewrite Qmult_0_l.
  pose proof (Qmult_le_0_compat _ _ Ha Hm). lra.
Qed.

Lemma last_cons {A : Type} (x : A) l d : List.last (x :: l) d = List.last l x.
Proof.
  revert x d. induction l as [|y l IH]; intros x d; [reflexivity|].
  change (List.last (x :: y :: l) d) with (List.last (y :: l) d).
  rewrite (IH y d), (IH y x). reflexivity.
Qed.

(** X11. The inference counter counts. After any number of successful
    inferences of a loaded ONNX model whose count is not negative,
    [total_inferences] has grown by that number, [last_inference] is the
    time of the last of them, the sessions are as before, and
    [avg_latency_ms] is not negative when it was not and no measured
    latency is. *)
Theorem predict_each_counts samples : forall (reg : registry) id d s tensor out,
  PyDict.get (_models reg) id = Some d ->
  _sessions reg !! id = Some s ->
  model_type d = "onnx" ->
  session_run s tensor = Ok out ->
  0 <= total_inferences d ->
  exists d',
    PyDict.get (_models (predict_each session_run reg id tensor samples)) id
    = Some d'
    /\ total_inferences d'
       = total_inferences d + Z.of_nat (List.length samples)
    /\ last_inference d'
       = List.last (List.map (fun sample => Some (snd sample)) samples)
           (last_inference d)
    /\ _sessions (predict_each session_run reg id tensor samples) = _sessions reg
    /\ ((0 <= avg_latency_ms d)%Q ->
        (forall sample, In sample samples -> (0 <= fst sample)%Q) ->
        (0 <= avg_latency_ms d')%Q).
Proof.
  induction samples as [|[e now] samples IH];
    intros reg id d s tensor out Hd Hs Hty Hrun Hn.
  - exists d. cbn. split; [exact Hd|]. split; [lia|]. split; [reflexivity|].
    split; [reflexivity|]. intros H _. exact H.
  - destruct (predict_success_step reg id d s tensor out e now Hd Hs Hty Hrun Hn)
      as (d1 & Hd1 & Hs1 & Hty1 & Hn1 & Havg1 & Hlast1).
    unfold predict_each. cbn [fold_left].
    assert (Hs' : _sessions (snd (predict session_run reg id tensor e now)) !! id
                  = Some s) by (rewrite Hs1; exact Hs).
    destruct (IH _ id d1 s tensor out Hd1 Hs' Hty1 Hrun ltac:(lia))
      as (d' & Hd' & Hn' & Hlast' & Hsess' & Havg').
    exists d'. split; [exact Hd'|]. split; [|split; [|split]].
    + rewrite Hn', Hn1. cbn [List.length]. lia.
    + rewrite Hlast', Hlast1. cbn [List.map snd]. rewrite last_cons. reflexivity.
    + unfold predict_each in Hsess'. rewrite Hsess'. exact Hs1.
    + intros Ha Hall. apply Havg'.
      * apply Havg1; [exact Ha|]. apply (Hall (e, now)). left. reflexivity.
      * intros sample Hin. apply Hall. right. exact Hin.
Qed.

(** Replacing a registered descriptor by one with the same id, task and
    enabled flag does not change the models a task selects. *)
Lemma task_ids_set (reg : registry) id d d' (sessions : gmap string Session) tk :
  PyDict.get (_models reg) id = Some d ->
  model_id d' = model_id d -> task d' = task d -> enabled d' = enabled d ->
  List.map model_id
    (get_models_for_task
       (mkModelRegistry (PyDict.set (_models reg) id d') sessions) tk)
  = List.map model_id (get_models_for_task reg tk).
Proof.
  intros Hd Hid Htk Hen. unfold get_models_for_task, PyDict.values.
  cbn [_models].
  destruct (set_present (_models reg) id d' d Hd) as (l1 & l2 & E1 & E2).
  rewrite E2, E1, !List.map_app, !List.filter_app, !List.map_app.
  cbn [List.map snd List.filter]. rewrite Htk, Hen.
  destruct (String.eqb (task d) tk && enabled d); cbn [List.map];
    rewrite ?Hid; reflexivity.
Qed.

(** X12. Which models a task selects, and in which order, is decided by
    registration alone: inference, loading and unloading never change it. *)
Theorem get_models_for_task_stable (reg : registry) id tensor elapsed now device tk :
  List.map model_id
    (get_models_for_task (snd (predict session_run reg id tensor elapsed now)) tk)
  = List.map model_id (get_models_for_task reg tk)
  /\ List.map model_id
       (get_models_for_task (snd (load_model InferenceSession reg id device)) tk)
     = List.map model_id (get_models_for_task reg tk)
  /\ List.map model_id (get_models_for_task (unload_model reg id) tk)
     = List.map model_id (get_models_for_task reg tk).
Proof.
  split; [|split].
  - unfold predict.
    destruct (_sessions reg !! id) as [s|]; [|reflexivity].
    destruct (PyDict.get (_models reg) id) as [d|] eqn:Hd; [|reflexivity].
    destruct (String.eqb (model_type d) "onnx"); [|reflexivity].
    destruct (session_run s tensor) as [o|e]; [|reflexivity].
    destruct (total_inferences d + 1 =? 0); cbn [snd];
      apply (task_ids_set reg id d); try exact Hd; reflexivity.
  - unfold load_model.
    destruct (PyDict.get (_models reg) id) as [d|] eqn:Hd; [|reflexivity].
    destruct (String.eqb (model_type d) "onnx"); [|reflexivity].
    destruct (InferenceSession _ _) as [s|e]; [|reflexivity].
    cbn [snd]. apply (task_ids_set reg id d); try exact Hd; reflexivity.
  - unfold unload_model.
    destruct (PyDict.get (_models reg) id) as [d|] eqn:Hd; [|reflexivity].
    apply (task_ids_set reg id d); try exact Hd; reflexivity.
Qed.

Lemma register_consistent (reg : registry) d :
  sessions_consistent reg ->
  (loaded d = true <-> is_Some (_sessions reg !! model_id d)) ->
  sessions_consistent (register reg d).
Proof.
  intros Hc Hd k dk. unfold register. cbn [_models _sessions].
  rewrite get_set. destruct (String.eqb (model_id d) k) eqn:E; [|apply Hc].
  apply String.eqb_eq in E. subst k. intros H. inversion H; subst dk. exact Hd.
Qed.

(** X13. In a registry built from an empty one by registering descriptors
    whose [loaded] flag agrees with the sessions held, and by loading,
    unloading and running models, a descriptor is flagged loaded exactly
    when the registry holds a session for it; then a model flagged not
    loaded is never dispatched to by [predict]. *)
Theorem sessions_consistent_maintained :
  sessions_consistent (@new_registry Session)
  /\ (forall (reg : registry) d,
         sessions_consistent reg ->
         (loaded d = true <-> is_Some (_sessions reg !! model_id d)) ->
         sessions_consistent (register reg d))
  /\ (forall (reg : registry) id device,
         sessions_consistent reg ->
         sessions_consistent (snd (load_model InferenceSession reg id device)))
  /\ (forall (reg : registry) id,
         sessions_consistent reg -> sessions_consistent (unload_model reg id))
  /\ (forall (reg : registry) id tensor elapsed now,
         sessions_consistent reg ->
         sessions_consistent (snd (predict session_run reg id tensor elapsed now)))
  /\ (forall (reg : registry) id d tensor elapsed now,
         sessions_consistent reg ->
         PyDict.get (_models reg) id = Some d -> loaded d = false ->
         raised (fst (predict session_run reg id tensor elapsed now))).
Proof.
  split; [apply RegistryFacts.new_registry_consistent|].
  split; [exact register_consistent|].
  split; [intros; apply RegistryFacts.load_model_consistent; assumption|].
  split; [intros; apply RegistryFacts.unload_model_consistent; assumption|].
  split; [intros; apply RegistryFacts.predict_consistent; assumption|].
  intros reg id d tensor elapsed now Hc Hd Hl. unfold predict.
  destruct (_sessions reg !! id) as [s|] eqn:Hs; [|exact I].
  assert (loaded d = true) by (apply (Hc id d Hd); eauto). congruence.
Qed.

(** X14. Registering a descriptor again under the id of a loaded model
    does not unload it: the session stays, and [predict] still dispatches
    to it although the registered descriptor is flagged not loaded. *)
Theorem register_keeps_session (reg : registry) d s tensor elapsed now :
  _sessions reg !! model_id d = Some s ->
  loaded d = false ->
  model_type d = "onnx" ->
  0 <= total_inferences d ->
  fst (predict session_run (register reg d) (model_id d) tensor elapsed now)
  = session_run s tensor
  /\ ~ sessions_consistent (register reg d).
Proof.
  intros Hs Hl Hty Hn. split.
  - unfold predict, register. cbn [_sessions _models].
    rewrite Hs, get_set_eq, Hty, String.eqb_refl.
    destruct (session_run s tensor) as [o|e]; [|reflexivity].
    destruct (total_inferences d + 1 =? 0) eqn:E0; [lia|reflexivity].
  - intros Hc.
    assert (Hget : PyDict.get (_models (register reg d)) (model_id d) = Some d)
      by (unfold register; cbn [_models]; apply get_set_eq).
    assert (loaded d = true) by (apply (Hc _ _ Hget); cbn; eauto).
    congruence.
Qed.

(** X15. [list_models] with a non-empty task and [enabled_only] selects
    the same models as [get_models_for_task]; an empty task string filters
    nothing, like no task at all; and without [enabled_only] disabled models
    are listed too. *)
Theorem list_models_filters (reg : registry) tk :
  (tk <> EmptyString ->
   list_models reg (Some tk) true = get_models_for_task reg tk)
  /\ list_models reg (Some EmptyString) true = list_models reg None true
  /\ list_models reg None true
     = List.filter (fun m => enabled m) (PyDict.values (_models reg))
  /\ list_models reg None false = PyDict.values (_models reg).
Proof.
  split; [|repeat split].
  intros Hne. unfold list_models, get_models_for_task.
  destruct tk as [|c tk']; [contradiction|].
  induction (PyDict.values (_models reg)) as [|m l IH]; cbn [List.filter];
    [reflexivity|].
  destruct (String.eqb (task m) (String c tk')); cbn [List.filter andb];
    [destruct (enabled m); rewrite IH; reflexivity|exact IH].
Qed.

End facts.

Lemma register_keeps_session_witness :
  fst (predict Examples.stub_session_run
         (register Examples.loaded_registry
            (catalog_entry "yahoo_open_nsfw" "Yahoo Open NSFW" "2.0" "onnx"
               "nsfw_detection" (224, 224) "caffe" ["nsfw"; "sfw"]
               0.30%Q true "/models/yahoo_open_nsfw_v2.onnx" "" "BSD-2-Clause"))
         "yahoo_open_nsfw" tt 16%Q 1700000000)
  = Ok [0.8%Q; 0.2%Q].
Proof.
  exact (proj1 (register_keeps_session Examples.stub_session_run
    Examples.loaded_registry
    (catalog_entry "yahoo_open_nsfw" "Yahoo Open NSFW" "2.0" "onnx"
       "nsfw_detection" (224, 224) "caffe" ["nsfw"; "sfw"]
       0.30%Q true "/models/yahoo_open_nsfw_v2.onnx" "" "BSD-2-Clause")
    tt tt 16%Q 1700000000 eq_refl eq_refl eq_refl ltac:(cbn; lia))).
Defined.

Lemma predict_each_counts_witness :
  exists d',
    PyDict.get
      (_models (predict_each Examples.stub_session_run Examples.loaded_registry
                  "yahoo_open_nsfw" tt [(10%Q, 1); (20%Q, 2); (60%Q, 3)]))
      "yahoo_open_nsfw" = Some d'
    /\ total_inferences d' = 3
    /\ last_inference d' = Some 3.
Proof.
  destruct (predict_each_counts Examples.stub_session_run
              [(10%Q, 1); (20%Q, 2); (60%Q, 3)] Examples.loaded_registry
              "yahoo_open_nsfw" Examples.yahoo_loaded tt tt [0.8%Q; 0.2%Q]
              eq_refl eq_refl eq_refl eq_refl ltac:(cbn; lia))
    as (d' & Hd & Hn & Hl & _).
  exists d'. split; [exact Hd|]. split; [exact Hn|exact Hl].
Defined.

Lemma load_predict_unload_witness :
  fst (predict Examples.stub_session_run
         (snd (load_model Examples.stub_InferenceSession
                 (register_builtins new_registry) "nudenet_v3" "cpu"))
         "nudenet_v3" tt 16%Q 1700000000)
  = Ok [0.8%Q; 0.2%Q]
  /\ fst (predict Examples.stub_session_run
            (unload_model
               (snd (load_model Examples.stub_InferenceSession
                       (register_builtins new_registry) "nudenet_v3" "cpu"))
               "nudenet_v3")
            "nudenet_v3" tt 16%Q 1700000000)
     = Raise (RuntimeError "Model nudenet_v3 is not loaded").
Proof.
  destruct (load_predict_unload Examples.stub_InferenceSession
              Examples.stub_session_run (register_builtins new_registry)
              "nudenet_v3" "cpu"
              (catalog_entry "nudenet_v3" "NudeNet v3" "v3" "onnx"
                 "nsfw_detection" (320, 320) "raw_0_1"
                 ["safe"; "female_genitalia_covered"; "female_genitalia_exposed";
                  "male_genitalia_exposed"; "buttocks_exposed";
                  "female_breast_exposed"; "female_breast_covered";
                  "anus_exposed"; "belly_exposed"; "feet_exposed";
                  "armpits_exposed"; "face_male"; "face_female"]
                 0.25%Q true "/models/nudenet_v3.onnx"
                 "https://github.com/notAI-tech/NudeNet" "Apache-2.0")
              tt 16%Q 1700000000 eq_refl ltac:(cbn; lia)) as (H & _).
  destruct (H eq_refl tt eq_refl) as (_ & H2 & H3).
  split; [exact H2|exact H3].
Defined.

End RegistryMoreFacts.

(** ** Ensemble: normalization and aggregation *)

Module EnsembleMoreFacts.
Import Ensemble EnsembleExt PyNum PyNumFacts PyDictFacts.

Lemma get_In {V : Type} (d : PyDict.dict V) k v :
  PyDict.get d k = Some v -> In (k, v) d.
Proof.
  induction d as [|[k' v'] d IH]; cbn [PyDict.get]; [discriminate|].
  destruct (String.eqb k' k) eqn:E; intros H.
  - apply String.eqb_eq in E. inversion H. subst. left. reflexivity.
  - right. apply IH, H.
Qed.

Lemma get_None_keys {V : Type} (d : PyDict.dict V) k :
  PyDict.get d k = None <-> ~ In k (PyDict.keys d).
Proof.
  unfold PyDict.keys.
  induction d as [|[k' v'] d IH]; cbn [PyDict.get List.map fst In].
  - tauto.
  - destruct (String.eqb k' k) eqn:E.
    + apply String.eqb_eq in E. split; [discriminate|]. intros H. tauto.
    + apply String.eqb_neq in E. rewrite IH. tauto.
Qed.

(** The table of category mappings only holds weights in [0, 1]. *)
Lemma mappings_weights_in_unit id mapping :
  PyDict.get CATEGORY_MAPPINGS id = Some mapping -> weights_in_unit mapping = true.
Proof.
  intros H. apply get_In in H.
  repeat (destruct H as [H|H]; [inversion H; subst; vm_compute; reflexivity|]).
  destruct H.
Qed.

Lemma targets_weights mapping category t w :
  weights_in_unit mapping = true ->
  In (t, w) (PyDict.get_default mapping category []) ->
  (0 <= w <= 1)%Q.
Proof.
  unfold weights_in_unit, PyDict.get_default. intros Hall Hin.
  destruct (PyDict.get mapping category) as [targets|] eqn:Hg; [|destruct Hin].
  apply get_In in Hg.
  rewrite forallb_forall in Hall.
  specialize (Hall targets). unfold PyDict.values in Hall.
  rewrite in_map_iff in Hall.
  specialize (Hall (ex_intro _ (category, targets) (conj eq_refl Hg))).
  rewrite forallb_forall in Hall. specialize (Hall (t, w) Hin).
  cbn [snd] in Hall. apply andb_true_iff in Hall. destruct Hall as (H0 & H1).
  apply Qle_bool_iff in H0, H1. split; assumption.
Qed.

Lemma normalized_inv_targets M keys score targets : forall d,
  (0 <= M)%Q -> (score <= M)%Q ->
  (forall t w, In (t, w) targets -> (0 <= w <= 1)%Q) ->
  normalized_inv M keys d ->
  normalized_inv M keys
    (fold_left
       (fun normalized '(target_cat, w) =>
          match PyDict.get normalized target_cat with
          | Some current =>
              PyDict.set normalized target_cat (py_max current (score * w)%Q)
          | None => normalized
          end)
       targets d).
Proof.
  induction targets as [|[t w] targets IH]; intros d HM Hs Hw Hinv;
    cbn [fold_left]; [exact Hinv|].
  apply IH; try assumption; [intros t' w' Hin; apply (Hw t' w'); right; exact Hin|].
  destruct (PyDict.get d t) as [current|] eqn:Hg; [|exact Hinv].
  destruct Hinv as (Hk & Hv). split.
  - rewrite (keys_set_present d t _ current Hg). exact Hk.
  - intros k v. rewrite get_set.
    destruct (String.eqb t k); [|apply Hv].
    intros H. inversion H; subst v. clear H.
    specialize (Hv t current Hg). specialize (Hw t w (or_introl eq_refl)).
    destruct (py_max_cases current (score * w)) as [(E & _)|(E & Hlt)]; rewrite E;
      [exact Hv|].
    split; [lra|].
    destruct (Qlt_le_dec score 0) as [Hneg|Hpos].
    + assert ((0 <= (- score) * w)%Q) by (apply Qmult_le_0_compat; lra).
      assert ((score * w == - ((- score) * w))%Q) by ring. lra.
    + assert ((w * score <= 1 * score)%Q) by (apply Qmult_le_compat_r; lra).
      assert ((score * w == w * score)%Q) by ring. lra.
Qed.

Lemma normalized_inv_raw M keys mapping raw : forall d,
  (0 <= M)%Q ->
  weights_in_unit mapping = true ->
  (forall k s, In (k, s) raw -> (s <= M)%Q) ->
  normalized_inv M keys d ->
  normalized_inv M keys
    (fold_left
       (fun normalized '(category, score) =>
          let targets := PyDict.get_default mapping category [] in
          fold_left
            (fun normalized '(target_cat, w) =>
               match PyDict.get normalized target_cat with
               | Some current =>
                   PyDict.set normalized target_cat (py_max current (score * w)%Q)
               | None => normalized
               end)
            targets normalized)
       raw d).
Proof.
  induction raw as [|[category score] raw IH]; intros d HM Hw Hraw Hinv;
    cbn [fold_left]; [exact Hinv|].
  apply IH; try assumption.
  - intros k s Hin. apply (Hraw k s). right. exact Hin.
  - cbv zeta. apply normalized_inv_targets; try assumption.
    + apply (Hraw category score). left. reflexivity.
    + intros t w Hin. exact (targets_weights mapping category t w Hw Hin).
Qed.

Lemma upper_bound_values (raw : PyDict.dict Q) :
  (0 <= fold_right Qmax 0 (PyDict.values raw))%Q
  /\ forall k s, In (k, s) raw -> (s <= fold_right Qmax 0 (PyDict.values raw))%Q.
Proof.
  unfold PyDict.values.
  induction raw as [|[k0 s0] raw (IH0 & IH)]; cbn [List.map snd fold_right].
  - split; [lra|]. intros k s [].
  - pose proof (Q.le_max_l s0 (fold_right Qmax 0%Q (List.map snd raw))).
    pose proof (Q.le_max_r s0 (fold_right Qmax 0%Q (List.map snd raw))).
    split; [lra|].
    intros k s [E|Hin]; [inversion E; subst; assumption|].
    specialize (IH k s Hin). lra.
Qed.

(** X16. For a model with an entry in the mapping table, the normalized
    scores have exactly the six canonical categories as keys, in their
    order, whatever the model reported; every normalized score is at least
    0; and when every raw score is at most [M >= 0], every normalized score
    is at most [M] (so raw scores in [0, 1] give normalized scores in
    [0, 1]). A model without an entry keeps its raw scores. *)
Theorem normalize_scores_range id raw :
  (PyDict.get CATEGORY_MAPPINGS id = None -> _normalize_scores id raw = raw)
  /\ (PyDict.contains CATEGORY_MAPPINGS id = true ->
      PyDict.keys (_normalize_scores id raw) = CANONICAL_NSFW_CATEGORIES
      /\ (forall k v,
             PyDict.get (_normalize_scores id raw) k = Some v -> (0 <= v)%Q)
      /\ (forall M,
             (0 <= M)%Q ->
             (forall k s, In (k, s) raw -> (s <= M)%Q) ->
             forall k v,
               PyDict.get (_normalize_scores id raw) k = Some v -> (v <= M)%Q)).
Proof.
  unfold _normalize_scores, PyDict.contains.
  destruct (PyDict.get CATEGORY_MAPPINGS id) as [mapping|] eqn:Hm;
    (split; [try discriminate; reflexivity|]); [|discriminate].
  intros _.
  pose proof (mappings_weights_in_unit id mapping Hm) as Hw.
  assert (Hinit : forall M, (0 <= M)%Q ->
            normalized_inv M CANONICAL_NSFW_CATEGORIES
              (PyDict.of_items
                 (List.map (fun cat => (cat, 0.0%Q)) CANONICAL_NSFW_CATEGORIES))).
  { intros M HM. split; [reflexivity|].
    intros k v H. apply get_In in H. cbn in H.
    repeat (destruct H as [H|H]; [inversion H; subst; lra|]). destruct H. }
  destruct (upper_bound_values raw) as (HB0 & HB).
  split; [|split].
  - exact (proj1 (normalized_inv_raw _ _ mapping raw _ HB0 Hw HB (Hinit _ HB0))).
  - intros k v Hg.
    exact (proj1 (proj2 (normalized_inv_raw _ _ mapping raw _ HB0 Hw HB
                           (Hinit _ HB0)) k v Hg)).
  - intros M HM Hraw k v Hg.
    exact (proj2 (proj2 (normalized_inv_raw _ _ mapping raw _ HM Hw Hraw
                           (Hinit _ HM)) k v Hg)).
Qed.

Lemma normalize_scores_range_witness :
  PyDict.keys (_normalize_scores "yahoo_open_nsfw" [("nsfw", (-0.5)%Q); ("sfw", 1.5%Q)])
  = CANONICAL_NSFW_CATEGORIES.
Proof.
  exact (proj1 (proj2 (normalize_scores_range "yahoo_open_nsfw"
                         [("nsfw", (-0.5)%Q); ("sfw", 1.5%Q)]) eq_refl)).
Defined.

(** *** Weighted average *)

Lemma weighted_terms_range results cat M :
  (0 <= M)%Q ->
  (forall r, In r results ->
     (0 <= weight r)%Q
     /\ forall k s, PyDict.get (normalized_scores r) k = Some s -> (0 <= s <= M)%Q) ->
  (0 <= Qsum (List.map weight results))%Q
  /\ (0 <= Qsum (List.map (fun r => score_or_zero r cat * weight r) results)
      <= M * Qsum (List.map weight results))%Q.
Proof.
  intros HM. induction results as [|r results IH]; intros Hall;
    cbn [List.map Qsum fold_right].
  - split; lra.
  - destruct (Hall r (or_introl eq_refl)) as (Hw & Hs).
    destruct IH as (IHw & IH0 & IH1); [intros r' Hr'; apply Hall; right; exact Hr'|].
    assert (Hsc : (0 <= score_or_zero r cat <= M)%Q).
    { unfold score_or_zero.
      destruct (PyDict.get (normalized_scores r) cat) as [s|] eqn:E;
        [exact (Hs cat s E)|lra]. }
    assert ((0 <= score_or_zero r cat * weight r)%Q)
      by (apply Qmult_le_0_compat; lra).
    assert ((score_or_zero r cat * weight r <= M * weight r)%Q)
      by (apply Qmult_le_compat_r; lra).
    unfold Qsum in *. split; [lra|]. split; [lra|].
    rewrite Qmult_plus_distr_r. lra.
Qed.

(** X17. The weighted average keeps scores in range: when no weight is
    negative and every normalized score of every model lies in [0, 1],
    every aggregated score lies in [0, 1] as well. *)
Theorem weighted_average_range results cat v :
  (forall r, In r results ->
     (0 <= weight r)%Q
     /\ forall k s, PyDict.get (normalized_scores r) k = Some s -> (0 <= s <= 1)%Q) ->
  PyDict.get (_weighted_average results) cat = Some v ->
  (0 <= v <= 1)%Q.
Proof.
  intros Hall Hg.
  rewrite WeightedAverageFacts.weighted_average_get in Hg.
  destruct (existsb _ _); [|discriminate]. inversion Hg; subst v; clear Hg.
  destruct (weighted_terms_range results cat 1 ltac:(lra) Hall) as (Hw & H0 & H1).
  pose proof (WeightedAverageFacts.total_weight_Qsum results) as Et.
  pose proof (WeightedAverageFacts.weighted_sum_Qsum results cat) as Es.
  case_Qltb 0%Q (total_weight results); [|lra].
  split.
  - apply Qle_shift_div_l; [exact E|]. lra.
  - apply Qle_shift_div_r; [exact E|]. rewrite Es, Et. exact H1.
Qed.

Lemma weighted_average_range_witness :
  exists v,
    PyDict.get
      (_weighted_average
         [mkModelResult "a" "Model A" "1" 0.6 [("explicit", 0.8%Q)] [("explicit", 0.8%Q)];
          mkModelResult "b" "Model B" "1" 0.4 [("safe", 0.9%Q)] [("safe", 0.9%Q)]])
      "explicit" = Some v
    /\ (0 <= v <= 1)%Q.
Proof.
  eexists. split; [reflexivity|].
  apply (weighted_average_range
    [mkModelResult "a" "Model A" "1" 0.6 [("explicit", 0.8%Q)] [("explicit", 0.8%Q)];
     mkModelResult "b" "Model B" "1" 0.4 [("safe", 0.9%Q)] [("safe", 0.9%Q)]]
    "explicit"); [|reflexivity].
  intros r [<-|[<-|[]]]; (split; [cbn; lra|]);
    intros k s H; apply get_In in H; cbn in H;
    destruct H as [H|[]]; inversion H; subst; lra.
Defined.

(** *** Majority vote *)

Lemma Zsum_set_incr (d : PyDict.dict Z) k :
  fold_right Z.add 0 (PyDict.values (PyDict.set d k (PyDict.get_default d k 0 + 1)))
  = fold_right Z.add 0 (PyDict.values d) + 1.
Proof.
  unfold PyDict.values, PyDict.get_default.
  induction d as [|[k' v'] d IH];
    cbn [PyDict.set PyDict.get List.map snd fold_right]; [lia|].
  destruct (String.eqb k' k); cbn [List.map snd fold_right]; [lia|].
  destruct (PyDict.get d k) as [v|]; lia.
Qed.

Lemma Zsum_set_pos (d : PyDict.dict Z) k :
  (forall v, In v (PyDict.values d) -> 0 < v) ->
  forall v, In v (PyDict.values (PyDict.set d k (PyDict.get_default d k 0 + 1))) ->
            0 < v.
Proof.
  unfold PyDict.values, PyDict.get_default.
  induction d as [|[k' v'] d IH]; intros Hpos v;
    cbn [PyDict.set PyDict.get List.map snd In].
  - intros [<-|[]]. lia.
  - destruct (String.eqb k' k); cbn [List.map snd In].
    + intros [<-|H]; [|apply Hpos; right; exact H].
      specialize (Hpos v' (or_introl eq_refl)). lia.
    + intros [<-|H]; [apply Hpos; left; reflexivity|].
      apply IH; [|exact H]. intros x Hx. apply Hpos. right. exact Hx.
Qed.

(** The votes counted by [_majority_vote]: as many as there are voters,
    each category with at least one. *)
Lemma votes_total results : forall votes : PyDict.dict Z,
  (forall v, In v (PyDict.values votes) -> 0 < v) ->
  let final :=
    fold_left
      (fun votes r =>
         match PyDict.argmax (normalized_scores r) with
         | Some top => PyDict.set votes top (PyDict.get_default votes top 0 + 1)
         | None => votes
         end)
      results votes in
  fold_right Z.add 0 (PyDict.values final)
  = fold_right Z.add 0 (PyDict.values votes) + voters results
  /\ forall v, In v (PyDict.values final) -> 0 < v.
Proof.
  unfold voters.
  induction results as [|r results IH]; intros votes Hpos;
    cbn [fold_left List.filter List.length].
  - cbn. split; [lia|exact Hpos].
  - destruct (normalized_scores r) as [|kv l] eqn:E; cbn [PyDict.argmax].
    + apply IH, Hpos.
    + destruct (IH (PyDict.set votes (fst (PyDict.max_item l kv))
                      (PyDict.get_default votes (fst (PyDict.max_item l kv)) 0 + 1))
                  (Zsum_set_pos votes _ Hpos)) as (Hs & Hp).
      cbv zeta in Hs, Hp. split; [|exact Hp].
      rewrite Hs, Zsum_set_incr. cbn [List.length]. lia.
Qed.

Lemma votes_for_cons r results cat :
  votes_for (r :: results) cat
  = (match PyDict.argmax (normalized_scores r) with
     | Some top => if String.eqb top cat then 1 else 0
     | None => 0
     end) + votes_for results cat.
Proof.
  unfold votes_for. cbn [List.filter].
  destruct (PyDict.argmax (normalized_scores r)) as [top|]; [|lia].
  destruct (String.eqb top cat); cbn [List.length]; lia.
Qed.

Lemma votes_for_range results cat :
  0 <= votes_for results cat <= Z.of_nat (List.length results).
Proof.
  unfold votes_for.
  match goal with
  | |- context [List.filter ?f results] =>
      pose proof (List.filter_length_le f results)
  end.
  lia.
Qed.

(** The votes a category holds after the loop of [_majority_vote]: those
    it held before and one per model whose top category it is. *)
Lemma votes_loop results cat : forall votes : PyDict.dict Z,
  let final :=
    fold_left
      (fun votes r =>
         match PyDict.argmax (normalized_scores r) with
         | Some top => PyDict.set votes top (PyDict.get_default votes top 0 + 1)
         | None => votes
         end)
      results votes in
  PyDict.get_default final cat 0
  = PyDict.get_default votes cat 0 + votes_for results cat
  /\ PyDict.contains final cat
     = PyDict.contains votes cat || (0 <? votes_for results cat).
Proof.
  induction results as [|r results IH]; intros votes; cbn [fold_left].
  - cbv zeta. unfold votes_for. cbn. rewrite orb_false_r. split; [lia|reflexivity].
  - rewrite votes_for_cons. pose proof (votes_for_range results cat) as Hr.
    destruct (PyDict.argmax (normalized_scores r)) as [top|].
    + destruct (IH (PyDict.set votes top (PyDict.get_default votes top 0 + 1)))
        as (Hg & Hc).
      cbv zeta in Hg, Hc. cbv zeta. rewrite Hg, Hc.
      unfold PyDict.get_default, PyDict.contains. rewrite get_set.
      destruct (String.eqb top cat) eqn:E.
      * apply String.eqb_eq in E. subst top.
        replace (0 <? 1 + votes_for results cat) with true
          by (symmetry; apply Z.ltb_lt; lia).
        rewrite orb_true_r. cbn [orb]. split; [lia|reflexivity].
      * split; [lia|reflexivity].
    + destruct (IH votes) as (Hg & Hc). cbv zeta in Hg, Hc. cbv zeta.
      rewrite Hg, Hc. split; [lia|reflexivity].
Qed.

Lemma keys_set_NoDup {V : Type} (d : PyDict.dict V) k v :
  NoDup (PyDict.keys d) -> NoDup (PyDict.keys (PyDict.set d k v)).
Proof.
  intros Hnd. destruct (PyDict.get d k) as [v0|] eqn:Hg.
  - rewrite (keys_set_present d k v v0 Hg). exact Hnd.
  - rewrite (RegistryMoreFacts.set_absent d k v Hg).
    unfold PyDict.keys in *. rewrite List.map_app. cbn [List.map fst].
    apply NoDup_app. split; [exact Hnd|]. split; [|apply NoDup_singleton].
    intros x Hx Hx'. apply list_elem_of_In in Hx, Hx'.
    destruct Hx' as [<-|[]]. apply get_None_keys in Hg. contradiction.
Qed.

Lemma votes_NoDup results : forall votes : PyDict.dict Z,
  NoDup (PyDict.keys votes) ->
  NoDup (PyDict.keys
           (fold_left
              (fun votes r =>
                 match PyDict.argmax (normalized_scores r) with
                 | Some top => PyDict.set votes top (PyDict.get_default votes top 0 + 1)
                 | None => votes
                 end)
              results votes)).
Proof.
  induction results as [|r results IH]; intros votes Hnd; cbn [fold_left];
    [exact Hnd|].
  apply IH. destruct (PyDict.argmax (normalized_scores r)); [|exact Hnd].
  apply keys_set_NoDup, Hnd.
Qed.

Lemma NoDup_get_In {V : Type} (d : PyDict.dict V) k v :
  NoDup (PyDict.keys d) -> In (k, v) d -> PyDict.get d k = Some v.
Proof.
  unfold PyDict.keys.
  induction d as [|[k' v'] d IH]; cbn [List.map fst In PyDict.get]; [tauto|].
  intros Hnd Hin. apply NoDup_cons in Hnd. destruct Hnd as (Hk & Hnd).
  destruct Hin as [H|H].
  - inversion H; subst. rewrite String.eqb_refl. reflexivity.
  - destruct (String.eqb k' k) eqn:E; [|apply IH; assumption].
    apply String.eqb_eq in E. subst k'. exfalso. apply Hk.
    apply list_elem_of_In, in_map_iff. exists (k, v). split; [reflexivity|exact H].
Qed.

Lemma get_map_values {A B : Type} (f : A -> B) (d : PyDict.dict A) k :
  PyDict.get (List.map (fun '(cat, count) => (cat, f count)) d) k
  = f <$> PyDict.get d k.
Proof.
  induction d as [|[k' v'] d IH]; cbn [List.map PyDict.get]; [reflexivity|].
  destruct (String.eqb k' k); [reflexivity|exact IH].
Qed.

Lemma get_by_default {V : Type} (d : PyDict.dict V) k (dflt : V) :
  PyDict.get d k
  = if PyDict.contains d k then Some (PyDict.get_default d k dflt) else None.
Proof.
  unfold PyDict.contains, PyDict.get_default.
  destruct (PyDict.get d k); reflexivity.
Qed.

(** The counted votes, category by category. *)
Lemma votes_get results cat :
  PyDict.get
    (fold_left
       (fun votes r =>
          match PyDict.argmax (normalized_scores r) with
          | Some top => PyDict.set votes top (PyDict.get_default votes top 0 + 1)
          | None => votes
          end)
       results ([] : PyDict.dict Z))
    cat
  = if 0 <? votes_for results cat then Some (votes_for results cat) else None.
Proof.
  destruct (votes_loop results cat []) as (Hg & Hc). cbv zeta in Hg, Hc.
  rewrite (get_by_default _ cat 0), Hg, Hc.
  unfold PyDict.get_default, PyDict.contains. cbn [PyDict.get orb].
  destruct (0 <? votes_for results cat); [f_equal; lia|reflexivity].
Qed.

(** X18. Majority vote, category by category: a category is given a score
    exactly when it is the top category of at least one model, and the
    score is its number of votes divided by the number of all models, so
    every score is above 0 and at most 1. The votes of the scored
    categories add up to the number of models with a non-empty normalized
    output. *)
Theorem majority_vote_shares results :
  (forall cat,
      PyDict.get (_majority_vote results) cat
      = if 0 <? votes_for results cat
        then Some (inject_Z (votes_for results cat)
                   / inject_Z (Z.of_nat (List.length results)))%Q
        else None)
  /\ (forall cat, 0 <= votes_for results cat <= Z.of_nat (List.length results))
  /\ fold_right Z.add 0
       (List.map (votes_for results) (PyDict.keys (_majority_vote results)))
     = voters results
  /\ (forall v, In v (PyDict.values (_majority_vote results)) -> (0 < v <= 1)%Q).
Proof.
  unfold _majority_vote. cbv zeta.
  pose proof (votes_get results) as Hget.
  pose proof (votes_NoDup results [] (NoDup_nil_2)) as Hnd.
  destruct (votes_total results [] ltac:(intros v [])) as (Hs & _).
  cbv zeta in Hs. cbn [PyDict.values List.map fold_right] in Hs.
  match type of Hs with
  | context [PyDict.values ?x] => set (votes := x) in *
  end.
  assert (Hval : forall k c, In (k, c) votes ->
            c = votes_for results k /\ 0 < c).
  { intros k c Hin. pose proof (NoDup_get_In votes k c Hnd Hin) as Hk.
    rewrite Hget in Hk. destruct (0 <? votes_for results k) eqn:E; [|discriminate].
    apply Z.ltb_lt in E. inversion Hk. lia. }
  split; [|split; [exact (votes_for_range results)|split]].
  - intros cat. rewrite get_map_values, Hget.
    destruct (0 <? votes_for results cat); reflexivity.
  - transitivity (fold_right Z.add 0 (PyDict.values votes)); [|rewrite Hs; lia].
    f_equal. unfold PyDict.keys, PyDict.values.
    rewrite !List.map_map. apply List.map_ext_in. intros [k c] Hin. cbn [fst snd].
    symmetry. apply (Hval k c Hin).
  - intros v Hin. unfold PyDict.values in Hin.
    rewrite List.map_map, in_map_iff in Hin.
    destruct Hin as ([k c] & <- & Hin). cbn [snd].
    destruct (Hval k c Hin) as (Hc & Hpos).
    pose proof (votes_for_range results k) as Hr.
    assert (Hq : (0 < inject_Z (Z.of_nat (List.length results)))%Q).
    { change 0%Q with (inject_Z 0). rewrite <- Zlt_Qlt. lia. }
    split.
    + apply Qlt_shift_div_l; [exact Hq|].
      rewrite Qmult_0_l. change 0%Q with (inject_Z 0). rewrite <- Zlt_Qlt. exact Hpos.
    + apply Qle_shift_div_r; [exact Hq|].
      rewrite Qmult_1_l. rewrite <- Zle_Qle. lia.
Qed.

(** *** Most confident model *)

Lemma max_confidence_loop results : forall best conf,
  let final :=
    fold_left
      (fun '(best_result, best_confidence) r =>
         if Qltb best_confidence (max_score (normalized_scores r))
         then (Some r, max_score (normalized_scores r))
         else (best_result, best_confidence))
      results (best, conf) in
  (final = (best, conf)
   /\ forall r, In r results -> (max_score (normalized_scores r) <= conf)%Q)
  \/ (exists r,
         In r results
         /\ final = (Some r, max_score (normalized_scores r))
         /\ (conf < max_score (normalized_scores r))%Q
         /\ forall r', In r' results ->
              (max_score (normalized_scores r') <= max_score (normalized_scores r))%Q).
Proof.
  induction results as [|r results IH]; intros best conf; cbn [fold_left].
  - left. split; [reflexivity|]. intros r [].
  - case_Qltb conf (max_score (normalized_scores r)).
    + destruct (IH (Some r) (max_score (normalized_scores r)))
        as [(Hf & Hle)|(r2 & Hin & Hf & Hlt & Hle)]; cbv zeta in Hf; right.
      * exists r. split; [left; reflexivity|]. split; [exact Hf|].
        split; [exact E|]. intros r' [<-|Hr']; [lra|apply Hle, Hr'].
      * exists r2. split; [right; exact Hin|]. split; [exact Hf|].
        split; [lra|]. intros r' [<-|Hr']; [lra|apply Hle, Hr'].
    + destruct (IH best conf) as [(Hf & Hle)|(r2 & Hin & Hf & Hlt & Hle)];
        cbv zeta in Hf.
      * left. split; [exact Hf|]. intros r' [<-|Hr']; [exact E|apply Hle, Hr'].
      * right. exists r2. split; [right; exact Hin|]. split; [exact Hf|].
        split; [exact Hlt|]. intros r' [<-|Hr']; [lra|apply Hle, Hr'].
Qed.

(** X19. [_max_confidence] returns the normalized scores of a model whose
    highest score is the greatest among all models, provided some model's
    highest score exceeds -1 (always so when scores are not negative);
    otherwise it returns the empty dict. *)
Theorem max_confidence_maximal results :
  (exists r,
      In r results
      /\ _max_confidence results = normalized_scores r
      /\ (-1 < max_score (normalized_scores r))%Q
      /\ forall r', In r' results ->
           (max_score (normalized_scores r') <= max_score (normalized_scores r))%Q)
  \/ (_max_confidence results = []
      /\ forall r, In r results -> (max_score (normalized_scores r) <= -1)%Q).
Proof.
  unfold _max_confidence.
  destruct (max_confidence_loop results None (-1.0)%Q)
    as [(Hf & Hle)|(r & Hin & Hf & Hlt & Hle)]; cbv zeta in Hf; rewrite Hf.
  - right. split; [reflexivity|]. intros r Hr. specialize (Hle r Hr). lra.
  - left. exists r. split; [exact Hin|]. split; [reflexivity|].
    split; [lra|exact Hle].
Qed.

(** *** Agreement *)

Lemma count_le_length {A : Type} (f : A -> bool) l :
  Z.of_nat (List.length (List.filter f l)) <= Z.of_nat (List.length l).
Proof. pose proof (List.filter_length_le f l). lia. Qed.

Lemma max_counts_range (n : Z) counts :
  0 <= n -> (forall c, In c counts -> c <= n) ->
  0 <= fold_right Z.max 0 counts <= n.
Proof.
  intros Hn. induction counts as [|c counts IH]; intros Hall; cbn [fold_right].
  - lia.
  - specialize (Hall c (or_introl eq_refl)) as Hc.
    destruct IH as (I0 & I1); [intros c' Hc'; apply Hall; right; exact Hc'|]. lia.
Qed.

Lemma py_max_min_unit x : (0 <= py_max 0.0 (py_min 1.0 x) <= 1)%Q.
Proof.
  unfold py_max, py_min.
  case_Qltb x 1.0%Q; [case_Qltb 0.0%Q x|case_Qltb 0.0%Q 1.0%Q]; lra.
Qed.

(** X20. The agreement score always lies in [0, 1], whatever the standard
    deviation routine returns. *)
Theorem compute_agreement_range (np_std : list Q -> Q) results :
  (0 <= _compute_agreement np_std results <= 1)%Q.
Proof.
  unfold _compute_agreement.
  destruct (Z.of_nat (List.length results) <=? 1); [lra|].
  destruct (omap _ results) as [|first tops] eqn:Etops; [lra|].
  destruct (forallb _ (first :: tops)).
  - destruct (List.map _ _) as [|x xs]; [lra|].
    apply py_max_min_unit.
  - set (n := Z.of_nat (List.length (first :: tops))).
    assert (Hn : 0 < n) by (unfold n; cbn [List.length]; lia).
    assert (Hq : (0 < inject_Z n)%Q).
    { change 0%Q with (inject_Z 0). rewrite <- Zlt_Qlt. exact Hn. }
    match goal with
    | |- context [fold_right Z.max 0 ?cs] =>
        destruct (max_counts_range n cs ltac:(lia)) as (H0 & H1)
    end.
    { intros c Hc. apply in_map_iff in Hc. destruct Hc as (cat & <- & _).
      apply count_le_length. }
    split.
    + apply Qle_shift_div_l; [exact Hq|]. rewrite Qmult_0_l.
      change 0%Q with (inject_Z 0). rewrite <- Zle_Qle. exact H0.
    + apply Qle_shift_div_r; [exact Hq|]. rewrite Qmult_1_l.
      rewrite <- Zle_Qle. exact H1.
Qed.

(** X21. An ensemble of a single model. The weighted average scores
    exactly the categories of the model, each with 0.0 when the weight of
    the model is not positive; when the highest score of the model exceeds
    -1, [_max_confidence] returns its normalized scores; the majority vote
    gives its top category the score 1; and the agreement is 1.0. *)
Theorem single_model_ensemble (np_std : list Q -> Q) r :
  (forall cat,
      PyDict.contains (_weighted_average [r]) cat
      = PyDict.contains (normalized_scores r) cat)
  /\ ((weight r <= 0)%Q ->
      forall cat v,
        PyDict.get (_weighted_average [r]) cat = Some v -> v = 0.0%Q)
  /\ ((-1 < max_score (normalized_scores r))%Q ->
      _max_confidence [r] = normalized_scores r)
  /\ (forall top,
         PyDict.argmax (normalized_scores r) = Some top ->
         exists v, _majority_vote [r] = [(top, v)] /\ (v == 1)%Q)
  /\ _compute_agreement np_std [r] = 1.0%Q.
Proof.
  split; [|split; [|split; [|split]]].
  - intros cat. unfold PyDict.contains.
    rewrite WeightedAverageFacts.weighted_average_get.
    destruct (PyDict.get (normalized_scores r) cat) as [s|] eqn:Hg.
    + assert (Hin : existsb (String.eqb cat) (elements (all_categories [r])) = true).
      { apply WeightedAverageFacts.existsb_eqb_In,
          WeightedAverageFacts.all_categories_reported.
        exists r. split; [left; reflexivity|].
        eapply WeightedAverageFacts.get_Some_In_keys, Hg. }
      rewrite Hin. reflexivity.
    + destruct (existsb (String.eqb cat) (elements (all_categories [r]))) eqn:Hin;
        [|reflexivity].
      apply WeightedAverageFacts.existsb_eqb_In,
        WeightedAverageFacts.all_categories_reported in Hin.
      destruct Hin as (r' & [<-|[]] & Hk).
      apply get_None_keys in Hg. contradiction.
  - intros Hw cat v. rewrite WeightedAverageFacts.weighted_average_get.
    destruct (existsb _ _); [|discriminate].
    unfold total_weight, py_sum. cbn [List.map fold_left].
    case_Qltb 0%Q (0 + weight r)%Q; [lra|].
    intros H. inversion H. reflexivity.
  - intros Hm. unfold _max_confidence. cbn [fold_left].
    case_Qltb (-1.0)%Q (max_score (normalized_scores r)); [reflexivity|lra].
  - intros top Ht. unfold _majority_vote. cbn [fold_left]. rewrite Ht.
    cbn. eexists. split; reflexivity.
  - reflexivity.
Qed.

End EnsembleMoreFacts.

(** ** The ensemble run *)

Module EnsembleRunFacts.
Import Ensemble EnsembleExt PyDictFacts.

Lemma keys_set_incl {V : Type} (d : PyDict.dict V) k v k0 :
  In k0 (PyDict.keys (PyDict.set d k v)) -> k0 = k \/ In k0 (PyDict.keys d).
Proof.
  unfold PyDict.keys.
  induction d as [|[k' v'] d IH]; cbn [PyDict.set List.map fst In].
  - intros [<-|[]]. left. reflexivity.
  - destruct (String.eqb k' k) eqn:E; cbn [List.map fst In].
    + intros H. right. exact H.
    + intros [H|H]; [right; left; exact H|].
      destruct (IH H) as [H'|H']; [left; exact H'|right; right; exact H'].
Qed.

Lemma keys_fold_set {V : Type} (items : list (string * V)) : forall d k0,
  In k0 (PyDict.keys (fold_left (fun d '(k, v) => PyDict.set d k v) items d)) ->
  In k0 (PyDict.keys d) \/ In k0 (List.map fst items).
Proof.
  induction items as [|[k v] items IH]; intros d k0; cbn [fold_left List.map fst In].
  - intros H. left. exact H.
  - intros H. destruct (IH _ _ H) as [H'|H']; [|right; right; exact H'].
    destruct (keys_set_incl _ _ _ _ H') as [->|H'']; [right; left; reflexivity|].
    left. exact H''.
Qed.

Lemma zip_fst_incl {A B : Type} (l1 : list A) : forall (l2 : list B) a,
  In a (List.map fst (PyBuiltins.zip l1 l2)) -> In a l1.
Proof.
  induction l1 as [|x l1 IH]; intros [|y l2] a; cbn [PyBuiltins.zip List.map fst In];
    try tauto.
  intros [H|H]; [left; exact H|right; eapply IH, H].
Qed.

Lemma keys_of_items_zip (cats : list string) (out : list Q) cat :
  In cat (PyDict.keys (PyDict.of_items (PyBuiltins.zip cats out))) -> In cat cats.
Proof.
  unfold PyDict.of_items. intros H.
  destruct (keys_fold_set _ _ _ H) as [[]|H']. eapply zip_fst_incl, H'.
Qed.

Section facts.
Context {Session Tensor Array : Type}.
Variable session_run : Session -> Tensor -> result (list Q).
Variable decode_resize : list byte -> Z * Z -> result Array.
Variables _imagenet _caffe _raw_0_1 _clip : Array -> Tensor.
Variable np_std : list Q -> Q.
Variable clock_elapsed_ms : string -> Q.
Variable clock_utcnow : string -> Z.

Abbreviation registry := (@Registry.ModelRegistry Session).
Abbreviation run :=
  (run_model session_run decode_resize _imagenet _caffe _raw_0_1 _clip
     clock_elapsed_ms clock_utcnow).
Abbreviation classify :=
  (classify_ensemble session_run decode_resize _imagenet _caffe _raw_0_1 _clip
     np_std clock_elapsed_ms clock_utcnow).

(** One turn of the loop keeps the results or appends one result, produced
    by the descriptor of the turn. *)
Lemma run_model_step content results (reg : registry) d :
  Registry.same_dispatch reg (snd (run content (results, reg) d))
  /\ (fst (run content (results, reg) d) = results
      \/ exists r, fst (run content (results, reg) d) = results ++ [r]
                   /\ produced_by d r).
Proof.
  unfold run_model.
  destruct (Registry.loaded d) eqn:Hl; cbn [negb];
    [|split; [apply EnsembleFacts.same_dispatch_refl|left; reflexivity]].
  destruct (Preprocessing.preprocess _ _ _ _ _ content _ _) as [t|e];
    [|split; [apply EnsembleFacts.same_dispatch_refl|left; reflexivity]].
  pose proof (EnsembleFacts.predict_same_dispatch session_run reg (Registry.model_id d) t
                (clock_elapsed_ms (Registry.model_id d))
                (clock_utcnow (Registry.model_id d))) as Hsd.
  destruct (Registry.predict session_run reg (Registry.model_id d) t _ _)
    as [[o|e] reg'']; cbn [fst snd] in *; (split; [exact Hsd|]).
  - right. eexists. split; [reflexivity|].
    unfold produced_by. cbn [model_id model_name version weight raw_scores normalized_scores].
    split; [exact Hl|]. repeat (split; [reflexivity|]).
    intros cat. apply keys_of_items_zip.
  - left. reflexivity.
Qed.

Lemma run_loop content models : forall results (reg : registry),
  Registry.same_dispatch reg (snd (fold_left (run content) models (results, reg)))
  /\ exists ds new,
       fst (fold_left (run content) models (results, reg)) = results ++ new
       /\ sublist ds models
       /\ Forall2 produced_by ds new.
Proof.
  induction models as [|d models IH]; intros results reg; cbn [fold_left].
  - split; [apply EnsembleFacts.same_dispatch_refl|].
    exists [], []. cbn [fst]. rewrite app_nil_r.
    split; [reflexivity|]. split; constructor.
  - destruct (run_model_step content results reg d) as (Hsd & Hstep).
    destruct (run content (results, reg) d) as [results1 reg1] eqn:E.
    cbn [fst snd] in Hsd, Hstep.
    destruct (IH results1 reg1) as (Hsd1 & ds & new & Hfst & Hsub & Hprod).
    split; [eapply EnsembleFacts.same_dispatch_trans; eassumption|].
    destruct Hstep as [->|(r & -> & Hr)].
    + exists ds, new. split; [exact Hfst|]. split; [|exact Hprod].
      apply sublist_cons. exact Hsub.
    + exists (d :: ds), (r :: new). rewrite Hfst, <- app_assoc.
      split; [reflexivity|]. split; [apply sublist_skip; exact Hsub|].
      constructor; assumption.
Qed.

(** X22. The per-model results of [classify_ensemble] are produced, in
    order, by a subsequence of the enabled models of the task: each result
    carries the id, name, version and weight of a loaded descriptor, its
    raw scores are keyed by categories of that descriptor, and its
    normalized scores are the normalization of its raw scores. The task and
    the method are echoed, and the registry dispatches as before. *)
Theorem classify_ensemble_provenance (reg : registry) content tk meth :
  (exists ds,
      sublist ds (Registry.get_models_for_task reg tk)
      /\ Forall2 produced_by ds (model_results (fst (classify reg content tk meth))))
  /\ task (fst (classify reg content tk meth)) = tk
  /\ method (fst (classify reg content tk meth)) = meth
  /\ Registry.same_dispatch reg (snd (classify reg content tk meth)).
Proof.
  unfold classify_ensemble.
  destruct (Registry.get_models_for_task reg tk) as [|d models] eqn:Hm.
  - cbn [fst snd model_results task method].
    split; [exists []; split; constructor|].
    split; [reflexivity|]. split; [reflexivity|apply EnsembleFacts.same_dispatch_refl].
  - destruct (run_loop content (d :: models) [] reg)
      as (Hsd & ds & new & Hfst & Hsub & Hprod).
    destruct (fold_left (run content) (d :: models) ([], reg)) as [results reg'].
    cbn [fst snd] in Hsd, Hfst. cbn [app] in Hfst. subst results.
    destruct new as [|r new]; cbn [fst snd model_results task method].
    + split; [exists []; split; [apply sublist_nil_l|constructor]|].
      split; [reflexivity|]. split; [reflexivity|exact Hsd].
    + split; [exists ds; split; assumption|].
      split; [reflexivity|]. split; [reflexivity|exact Hsd].
Qed.

(** X23. The aggregation method only decides the final scores: the
    per-model results, the agreement score and the registry left behind are
    the same for every method, and a method that is none of the three known
    names gives the final scores of the weighted average. *)
Theorem classify_ensemble_method (reg : registry) content tk meth meth' :
  model_results (fst (classify reg content tk meth))
  = model_results (fst (classify reg content tk meth'))
  /\ agreement_score (fst (classify reg content tk meth))
     = agreement_score (fst (classify reg content tk meth'))
  /\ snd (classify reg content tk meth) = snd (classify reg content tk meth')
  /\ (meth <> "majority_vote" -> meth <> "max_confidence" ->
      final_scores (fst (classify reg content tk meth))
      = final_scores (fst (classify reg content tk "weighted_average"))).
Proof.
  unfold classify_ensemble.
  destruct (Registry.get_models_for_task reg tk) as [|d models].
  - cbn. repeat (split; [reflexivity|]). reflexivity.
  - destruct (fold_left (run content) (d :: models) ([], reg)) as [[|r results] reg'].
    + cbn. repeat (split; [reflexivity|]). reflexivity.
    + cbn [fst snd model_results agreement_score final_scores].
      repeat (split; [reflexivity|]). intros H1 H2.
      destruct (String.eqb meth "weighted_average"); [reflexivity|].
      destruct (String.eqb meth "majority_vote") eqn:E1;
        [apply String.eqb_eq in E1; contradiction|].
      destruct (String.eqb meth "max_confidence") eqn:E2;
        [apply String.eqb_eq in E2; contradiction|].
      reflexivity.
Qed.

End facts.

Lemma classify_ensemble_method_witness :
  final_scores
    (fst (classify_ensemble Examples.stub_session_run Examples.stub_decode_resize
            Examples.stub_normalize Examples.stub_normalize
            Examples.stub_normalize Examples.stub_normalize
            Examples.stub_np_std Examples.stub_clock_elapsed_ms
            Examples.stub_clock_utcnow
            Examples.loaded_registry [] "nsfw_detection" "median"))
  = final_scores
      (fst (classify_ensemble Examples.stub_session_run Examples.stub_decode_resize
              Examples.stub_normalize Examples.stub_normalize
              Examples.stub_normalize Examples.stub_normalize
              Examples.stub_np_std Examples.stub_clock_elapsed_ms
              Examples.stub_clock_utcnow
              Examples.loaded_registry [] "nsfw_detection" "weighted_average")).
Proof.
  refine (proj2 (proj2 (proj2
    (classify_ensemble_method Examples.stub_session_run Examples.stub_decode_resize
       Examples.stub_normalize Examples.stub_normalize
       Examples.stub_normalize Examples.stub_normalize
       Examples.stub_np_std Examples.stub_clock_elapsed_ms
       Examples.stub_clock_utcnow
       Examples.loaded_registry [] "nsfw_detection" "median" "weighted_average"))) _ _);
    discriminate.
Defined.

End EnsembleRunFacts.

(** ** The classification pipeline *)

Module ClassifierPipelineFacts.
Import PyNum PyNumFacts Classifier ClassifierPipeline.

Lemma nth_error_skipn {A : Type} (l : list A) : forall i x,
  nth_error l i = Some x -> skipn i l = x :: skipn (S i) l.
Proof.
  induction l as [|y l IH]; intros [|i] x; cbn [nth_error skipn];
    try discriminate.
  - intros H. inversion H. reflexivity.
  - intros H. rewrite (IH i x H). reflexivity.
Qed.

Lemma nth_error_in_range {A : Type} (l : list A) i :
  (i < List.length l)%nat -> exists x, nth_error l i = Some x.
Proof.
  intros H. destruct (nth_error l i) as [x|] eqn:E; [eauto|].
  apply nth_error_None in E. lia.
Qed.

(** The loop over the labels succeeds when the output is long enough, and
    pairs each label with the output at its position. *)
Lemma enumerate_scores_ok mk labels : forall i output,
  (i + List.length labels <= List.length output)%nat ->
  enumerate_scores mk labels i output
  = Ok (List.map (fun '(label, x) => mk label x)
          (PyBuiltins.zip labels (skipn i output))).
Proof.
  induction labels as [|label labels IH]; intros i output Hlen;
    cbn [enumerate_scores PyBuiltins.zip List.map List.length] in *; [reflexivity|].
  destruct (nth_error_in_range output i ltac:(lia)) as (x & Hx).
  unfold index. rewrite Hx. cbn.
  rewrite (IH (S i) output) by lia. cbn.
  rewrite (nth_error_skipn _ _ _ Hx). reflexivity.
Qed.

(** It raises when the output is shorter than the labels need. *)
Lemma enumerate_scores_raises mk labels : forall i output,
  (i <= List.length output)%nat ->
  (List.length output < i + List.length labels)%nat ->
  raised (enumerate_scores mk labels i output).
Proof.
  induction labels as [|label labels IH]; intros i output Hi0 Hlen;
    cbn [enumerate_scores List.length] in *; [lia|].
  unfold index. destruct (nth_error output i) as [x|] eqn:Hx; cbn; [|exact I].
  assert (Hi : (i < List.length output)%nat).
  { apply nth_error_Some. congruence. }
  specialize (IH (S i) output ltac:(lia) ltac:(lia)).
  destruct (enumerate_scores mk labels (S i) output); [destruct IH|exact I].
Qed.

Lemma zip_map_fst {A B : Type} (l1 : list A) : forall (l2 : list B),
  (List.length l1 <= List.length l2)%nat ->
  List.map fst (PyBuiltins.zip l1 l2) = l1.
Proof.
  induction l1 as [|a l1 IH]; intros [|b l2] H;
    cbn [PyBuiltins.zip List.map fst List.length] in *; try reflexivity; try lia.
  rewrite IH by lia. reflexivity.
Qed.

Lemma zip_map_snd {A B : Type} (l1 : list A) : forall (l2 : list B),
  List.map snd (PyBuiltins.zip l1 l2) = firstn (List.length l1) l2.
Proof.
  induction l1 as [|a l1 IH]; intros [|b l2];
    cbn [PyBuiltins.zip List.map snd List.length firstn]; try reflexivity.
  rewrite IH. reflexivity.
Qed.

Lemma zip_length {A B : Type} (l1 : list A) : forall (l2 : list B),
  List.length (PyBuiltins.zip l1 l2) = Nat.min (List.length l1) (List.length l2).
Proof.
  induction l1 as [|a l1 IH]; intros [|b l2];
    cbn [PyBuiltins.zip List.length Nat.min]; try reflexivity.
  rewrite IH. reflexivity.
Qed.

(** The greatest of scores that are at most [M] is at most [M]. *)
Lemma max_default_le (M d : Q) l :
  (d <= M)%Q -> (forall x, In x l -> (x <= M)%Q) -> (max_default l d <= M)%Q.
Proof.
  intros Hd Hall. destruct l as [|x l]; [exact Hd|].
  cbn [max_default].
  assert (Hx : (x <= M)%Q) by (apply Hall; left; reflexivity).
  assert (Hl : forall y, In y l -> (y <= M)%Q) by (intros y Hy; apply Hall; right; exact Hy).
  clear Hall. revert x Hx. induction l as [|y l IH]; intros x Hx; cbn [fold_left].
  - exact Hx.
  - apply IH.
    + intros z Hz. apply Hl. right. exact Hz.
    + unfold py_max. destruct (Qltb x y); [apply Hl; left; reflexivity|exact Hx].
Qed.

(** The fields of the scores built from labels and an output that covers
    them. *)
Lemma enumerated_fields (f : string -> string) mn mv labels : forall output : list Q,
  (List.length labels <= List.length output)%nat ->
  List.map category
    (List.map (fun '(label, x) => mkClassificationScore (f label) x mn mv)
       (PyBuiltins.zip labels output))
  = List.map f labels
  /\ List.map score
       (List.map (fun '(label, x) => mkClassificationScore (f label) x mn mv)
          (PyBuiltins.zip labels output))
     = firstn (List.length labels) output.
Proof.
  induction labels as [|label labels IH]; intros [|x output] H;
    cbn [PyBuiltins.zip List.map List.length firstn category score] in *;
    try (split; reflexivity); try lia.
  destruct (IH output ltac:(lia)) as (-> & ->). split; reflexivity.
Qed.

Lemma py_min_max_le_half x : (x <= 0.5)%Q -> (py_min 1.0 (py_max 0.0 x) <= 0.5)%Q.
Proof.
  intros H. unfold py_min, py_max.
  case_Qltb 0.0%Q x;
    match goal with |- context [Qltb ?a 1.0%Q] => case_Qltb a 1.0%Q end; lra.
Qed.

(** Without a likely minor, and with scores of at most 1, the risk is at
    most one half. *)
Lemma csam_risk_without_minor nsfw age scene :
  (forall s, In s nsfw -> (score s <= 1)%Q) ->
  (forall s, In s scene -> (score s <= 1)%Q) ->
  no_minor_likely age ->
  (_compute_csam_risk nsfw age scene <= 0.5)%Q.
Proof.
  intros Hn Hs Hage. unfold _compute_csam_risk. cbv zeta.
  assert (He : (category_max nsfw "explicit_sexual" <= 1)%Q).
  { apply max_default_le; [lra|]. intros x Hx. apply in_map_iff in Hx.
    destruct Hx as (s & <- & Hin). apply filter_In in Hin. apply Hn, Hin. }
  assert (Hc : (scene_risk_of scene <= 1)%Q).
  { apply max_default_le; [lra|]. intros x Hx. apply in_map_iff in Hx.
    destruct Hx as (s & <- & Hin). apply filter_In in Hin. apply Hs, Hin. }
  assert (Hm : (minor_score_of age == 0)%Q).
  { destruct age as [a|]; cbn in *; [rewrite Hage|]; reflexivity. }
  apply py_min_max_le_half.
  set (e := category_max nsfw "explicit_sexual") in *.
  set (g := category_max nsfw "suggestive").
  set (c := scene_risk_of scene) in *.
  set (m := minor_score_of age) in *.
  assert (Hg : (g * m == 0)%Q) by (rewrite Hm; ring).
  lra.
Qed.

Lemma determine_classification_not_nsfl settings nsfw csam :
  _determine_classification settings nsfw csam <> NSFL_SUSPECT.
Proof.
  unfold _determine_classification. cbv zeta.
  repeat match goal with
         | |- context [if ?b then _ else _] => destruct b
         end; discriminate.
Qed.

Section facts.
Context {Tensor : Type}.
Variable settings : ClassifierSettings.
Variable nsfw_categories : list string.
Variable _preprocess_image : list byte -> Z * Z -> result Tensor.
Variables _nsfw_model _age_model _scene_model : Tensor -> result (list Q).
Variable clock_elapsed_ms : Z.
Variable clock_utcnow : Z.

Abbreviation run_nsfw :=
  (_run_nsfw_detection nsfw_categories _preprocess_image _nsfw_model).
Abbreviation run_age := (_run_age_estimation _preprocess_image _age_model).
Abbreviation run_scene :=
  (_run_scene_classification _preprocess_image _scene_model).
Abbreviation run_nsfl := (_run_nsfl_detection _preprocess_image).
Abbreviation classify_with nsfl :=
  (classify settings nsfw_categories _preprocess_image
     _nsfw_model _age_model _scene_model nsfl clock_elapsed_ms clock_utcnow).


(** X25. The NSFW and the scene detection read one output per label: they
    succeed, with the labels as categories (the scene ones prefixed) and
    the leading outputs as scores, when the model output is at least as long
    as the label list, and raise when it is shorter. *)
Theorem enumerated_detections_strict content :
  (forall t output,
      _preprocess_image content (224, 224) = Ok t -> _nsfw_model t = Ok output ->
      if (List.length nsfw_categories <=? List.length output)%nat
      then exists scores,
             run_nsfw content = Ok scores
             /\ List.map category scores = nsfw_categories
             /\ List.map score scores
                = firstn (List.length nsfw_categories) output
      else raised (run_nsfw content))
  /\ (forall t output,
         _preprocess_image content (299, 299) = Ok t -> _scene_model t = Ok output ->
         if (8 <=? List.length output)%nat
         then exists scores,
                run_scene content = Ok scores
                /\ List.map category scores
                   = List.map (fun label => "scene_" +:+ label) scene_labels
                /\ List.map score scores = firstn 8 output
         else raised (run_scene content)).
Proof.
  split; intros t output Hp Hm.
  - unfold _run_nsfw_detection. rewrite Hp. cbn [mbind result_bind].
    rewrite Hm. cbn [mbind result_bind].
    destruct (Nat.leb_spec (List.length nsfw_categories) (List.length output)) as [H|H].
    + rewrite enumerate_scores_ok by (cbn; lia). cbn [skipn].
      eexists. split; [reflexivity|].
      destruct (enumerated_fields (fun c => c) "nsfw_detector" "v3"
                  nsfw_categories output H) as (Hc & Hs).
      rewrite List.map_id in Hc. split; assumption.
    + apply enumerate_scores_raises; cbn; lia.
  - unfold _run_scene_classification. rewrite Hp. cbn [mbind result_bind].
    rewrite Hm. cbn [mbind result_bind].
    destruct (Nat.leb_spec 8 (List.length output)) as [H|H].
    + rewrite enumerate_scores_ok by (cbn; lia). cbn [skipn].
      eexists. split; [reflexivity|].
      apply (enumerated_fields (fun label => "scene_" +:+ label)
               "scene_classifier" "v1" scene_labels output H).
    + apply enumerate_scores_raises; cbn; lia.
Qed.

(** X26. The NSFL detection never fails on a short output: without a model
    it returns no score and does not even preprocess the image; with a
    model it returns one score per label the output covers, at most five,
    each in a category that starts with [nsfl_]. *)
Theorem run_nsfl_detection_tolerant content :
  _run_nsfl_detection _preprocess_image None content = Ok []
  /\ forall nsfl_predict t output,
       _preprocess_image content (224, 224) = Ok t ->
       nsfl_predict t = Ok output ->
       exists scores,
         _run_nsfl_detection _preprocess_image (Some nsfl_predict) content
         = Ok scores
         /\ List.length scores = Nat.min 5 (List.length output)
         /\ List.map score scores = firstn 5 output
         /\ forall s, In s scores -> String.prefix "nsfl_" (category s) = true.
Proof.
  split; [reflexivity|]. intros m t output Hp Hm.
  unfold _run_nsfl_detection. rewrite Hp. cbn [mbind result_bind].
  rewrite Hm. cbn [mbind result_bind].
  eexists. split; [reflexivity|].
  split; [rewrite length_map, zip_length; reflexivity|].
  split.
  - rewrite List.map_map.
    etransitivity; [|exact (zip_map_snd nsfl_categories output)].
    apply List.map_ext. intros [c x]. reflexivity.
  - intros s Hs. apply in_map_iff in Hs. destruct Hs as ([c x] & <- & _).
    destruct c; vm_compute; reflexivity.
Qed.

(** The stages behind a result of [classify]. *)
Lemma classify_inv nsfl content sha res :
  classify_with nsfl content sha = Ok res ->
  exists nsfw_scores nsfl_scores age_result scene_scores,
    run_nsfw content = Ok nsfw_scores
    /\ run_nsfl nsfl content = Ok nsfl_scores
    /\ run_age content = Ok age_result
    /\ run_scene content = Ok scene_scores
    /\ res
       = let csam := _compute_csam_risk nsfw_scores age_result scene_scores in
         let primary := _determine_classification settings nsfw_scores csam in
         mkClassificationResult sha primary (nsfw_score_of nsfw_scores) csam
           age_result (nsfw_scores ++ nsfl_scores ++ scene_scores)
           clock_elapsed_ms
           (_should_route_to_review primary csam (nsfw_score_of nsfw_scores)
              age_result)
           (nsfl_score_of nsfl_scores) 1.0 [] clock_utcnow.
Proof.
  unfold classify.
  destruct (run_nsfw content) as [a|]; cbn; [|discriminate].
  destruct (run_nsfl nsfl content) as [b|]; cbn; [|discriminate].
  destruct (run_age content) as [c|]; cbn; [|discriminate].
  destruct (run_scene content) as [d|]; cbn; [|discriminate].
  intros H. inversion H. exists a, b, c, d. repeat (split; [reflexivity|]).
  reflexivity.
Qed.

(** X27. The NSFL score of a classification is the greatest of the first
    four outputs of the NSFL model (gore, graphic violence, shock,
    disturbing), 0.0 when there is none: the fifth output, the score of
    [safe], never counts. Without an NSFL model the score is 0.0. *)
Theorem nsfl_score_excludes_safe nsfl content sha res :
  classify_with nsfl content sha = Ok res ->
  match nsfl with
  | None => nsfl_score res = 0.0%Q
  | Some nsfl_predict =>
      forall t output,
        _preprocess_image content (224, 224) = Ok t ->
        nsfl_predict t = Ok output ->
        nsfl_score res = max_default (firstn 4 output) 0.0
  end.
Proof.
  intros Hc. destruct (classify_inv _ _ _ _ Hc) as (a & b & c & d & _ & Hb & _ & _ & ->).
  cbn [nsfl_score]. destruct nsfl as [m|].
  - intros t output Hp Hm. unfold _run_nsfl_detection in Hb.
    rewrite Hp in Hb. cbn [mbind result_bind] in Hb.
    rewrite Hm in Hb. cbn [mbind result_bind] in Hb.
    inversion Hb. subst b. clear Hb. unfold nsfl_score_of.
    destruct output as [|x1 [|x2 [|x3 [|x4 [|x5 rest]]]]]; reflexivity.
  - cbn in Hb. inversion Hb. reflexivity.
Qed.

(** X28. When no minor is likely (no face was found, or the estimate does
    not flag one) and no score of the result exceeds 1, the CSAM risk is at
    most 0.5; with an alert threshold above 0.5 the content is then neither
    classified as a CSAM suspect nor routed to human review. *)
Theorem classify_without_minor nsfl content sha res :
  classify_with nsfl content sha = Ok res ->
  (forall s, In s (all_scores res) -> (score s <= 1)%Q) ->
  no_minor_likely (age_estimation res) ->
  (0.5 < csam_alert_threshold settings)%Q ->
  (csam_score res <= 0.5)%Q
  /\ primary_classification res <> CSAM_SUSPECT
  /\ requires_human_review res = false.
Proof.
  intros Hc. destruct (classify_inv _ _ _ _ Hc) as (a & b & c & d & _ & _ & _ & _ & ->).
  cbv zeta.
  cbn [all_scores age_estimation csam_score primary_classification
       requires_human_review].
  intros Hs Hage Hthr.
  assert (Hr : (_compute_csam_risk a c d <= 0.5)%Q).
  { apply csam_risk_without_minor; [| |exact Hage];
      intros s Hin; apply Hs; rewrite !in_app_iff; tauto. }
  set (csam := _compute_csam_risk a c d) in *.
  assert (Hp : is_csam_suspect (_determine_classification settings a csam) = false).
  { unfold _determine_classification. cbv zeta.
    destruct (Qle_bool (csam_alert_threshold settings) csam) eqn:E.
    - apply Qle_bool_iff in E. lra.
    - repeat match goal with
             | |- context [if ?b then _ else _] => destruct b
             end; reflexivity. }
  split; [exact Hr|]. split.
  - intros Heq. rewrite Heq in Hp. discriminate Hp.
  - unfold _should_route_to_review. rewrite Hp.
    case_Qltb 0.5%Q csam; [lra|].
    destruct c as [est|]; [|reflexivity]. cbn in Hage. rewrite Hage. reflexivity.
Qed.

(** X29. The NSFL stage has no part in the verdict: two classifications of
    the same content that differ only in the NSFL model agree on the primary
    classification, the NSFW and CSAM scores, the age estimation and the
    routing to review, and the primary classification is never
    [NSFL_SUSPECT]. *)
Theorem classify_ignores_nsfl nsfl nsfl' content sha res res' :
  classify settings nsfw_categories _preprocess_image
    _nsfw_model _age_model _scene_model nsfl clock_elapsed_ms clock_utcnow
    content sha = Ok res ->
  classify settings nsfw_categories _preprocess_image
    _nsfw_model _age_model _scene_model nsfl' clock_elapsed_ms clock_utcnow
    content sha = Ok res' ->
  primary_classification res = primary_classification res'
  /\ nsfw_score res = nsfw_score res'
  /\ csam_score res = csam_score res'
  /\ age_estimation res = age_estimation res'
  /\ requires_human_review res = requires_human_review res'
  /\ primary_classification res <> NSFL_SUSPECT.
Proof.
  intros Hc Hc'.
  destruct (classify_inv _ _ _ _ Hc) as (a & b & c & d & Ha & _ & Hg & Hd & ->).
  destruct (classify_inv _ _ _ _ Hc') as (a' & b' & c' & d' & Ha' & _ & Hg' & Hd' & ->).
  rewrite Ha in Ha'. rewrite Hg in Hg'. rewrite Hd in Hd'.
  inversion Ha'. inversion Hg'. inversion Hd'. subst a' c' d'.
  cbv zeta.
  cbn [primary_classification nsfw_score csam_score age_estimation
       requires_human_review].
  repeat (split; [reflexivity|]). apply determine_classification_not_nsfl.
Qed.

End facts.


Lemma nsfl_score_excludes_safe_witness :
  exists res,
    classify default_settings stub_nsfw_categories stub_preprocess_image
      stub_nsfw_model stub_age_model stub_scene_model (Some stub_nsfl_model)
      12 1700000000 [] "ab" = Ok res
    /\ nsfl_score res = 0.6%Q.
Proof.
  eexists. split; [reflexivity|].
  exact (nsfl_score_excludes_safe default_settings stub_nsfw_categories
           stub_preprocess_image stub_nsfw_model stub_age_model stub_scene_model
           12 1700000000 (Some stub_nsfl_model) [] "ab" _ eq_refl
           tt [0.2%Q; 0.6%Q; 0.1%Q; 0.05%Q; 0.95%Q] eq_refl eq_refl).
Defined.

Lemma classify_without_minor_witness :
  exists res,
    classify default_settings stub_nsfw_categories stub_preprocess_image
      stub_nsfw_model stub_noface_model stub_scene_model None
      12 1700000000 [] "ab" = Ok res
    /\ requires_human_review res = false.
Proof.
  eexists. split; [reflexivity|].
  refine (proj2 (proj2
    (classify_without_minor default_settings stub_nsfw_categories
       stub_preprocess_image stub_nsfw_model stub_noface_model stub_scene_model
       12 1700000000 None [] "ab" _ eq_refl _ I _))).
  - intros s Hs. cbn in Hs.
    repeat (destruct Hs as [<-|Hs]; [cbn; lra|]). destruct Hs.
  - cbn. lra.
Defined.

Lemma classify_ignores_nsfl_witness :
  exists res res',
    classify default_settings stub_nsfw_categories stub_preprocess_image
      stub_nsfw_model stub_age_model stub_scene_model (Some stub_nsfl_model)
      12 1700000000 [] "ab" = Ok res
    /\ classify default_settings stub_nsfw_categories stub_preprocess_image
         stub_nsfw_model stub_age_model stub_scene_model None
         12 1700000000 [] "ab" = Ok res'
    /\ requires_human_review res = requires_human_review res'.
Proof.
  eexists. eexists. split; [reflexivity|]. split; [reflexivity|].
  exact (proj1 (proj2 (proj2 (proj2 (proj2
    (classify_ignores_nsfl default_settings stub_nsfw_categories
       stub_preprocess_image stub_nsfw_model stub_age_model stub_scene_model
       12 1700000000 (Some stub_nsfl_model) None [] "ab" _ _
       eq_refl eq_refl)))))).
Defined.

End ClassifierPipelineFacts.

(** ** Preprocessing *)

Module PreprocessingFacts.
Import Preprocessing.

Section facts.
Context {Array Tensor : Type}.
Variable decode_resize : list byte -> Z * Z -> result Array.
Variables _imagenet _caffe _raw_0_1 _clip : Array -> Tensor.

Abbreviation pre := (preprocess decode_resize _imagenet _caffe _raw_0_1 _clip).

(** X30. [preprocess] returns a tensor exactly when the bytes decode and
    the method is one of imagenet, caffe, raw_0_1 and clip. Every model of
    the built-in catalog names one of them, so preprocessing for a catalog
    model raises only what decoding raises. *)
Theorem preprocess_dispatch content :
  (forall size method,
      (exists t, pre content size method = Ok t)
      <-> (exists arr, decode_resize content size = Ok arr)
          /\ In method ["imagenet"; "caffe"; "raw_0_1"; "clip"])
  /\ (forall d e,
         In d Registry.BUILTIN_MODELS ->
         pre content (Registry.input_size d) (Registry.preprocessing d) = Raise e
         <-> decode_resize content (Registry.input_size d) = Raise e).
Proof.
  split.
  - intros size method. unfold preprocess.
    destruct (decode_resize content size) as [arr|e]; cbn [mbind result_bind].
    + destruct (String.eqb method "imagenet") eqn:E1;
        [apply String.eqb_eq in E1; subst; split; [intros _; split; [eauto|cbn; tauto]|eauto]|].
      destruct (String.eqb method "caffe") eqn:E2;
        [apply String.eqb_eq in E2; subst; split; [intros _; split; [eauto|cbn; tauto]|eauto]|].
      destruct (String.eqb method "raw_0_1") eqn:E3;
        [apply String.eqb_eq in E3; subst; split; [intros _; split; [eauto|cbn; tauto]|eauto]|].
      destruct (String.eqb method "clip") eqn:E4;
        [apply String.eqb_eq in E4; subst; split; [intros _; split; [eauto|cbn; tauto]|eauto]|].
      apply String.eqb_neq in E1, E2, E3, E4.
      split; [intros (t & Ht); discriminate Ht|].
      intros (_ & Hin). cbn in Hin.
      destruct Hin as [H|[H|[H|[H|[]]]]]; symmetry in H; contradiction.
    + split; [intros (t & Ht); discriminate Ht|].
      intros ((arr & Harr) & _). discriminate Harr.
  - intros d e Hin. unfold preprocess.
    assert (Hm : In (Registry.preprocessing d) ["imagenet"; "caffe"; "raw_0_1"; "clip"]).
    { cbn in Hin.
      repeat (destruct Hin as [<-|Hin]; [cbn; tauto|]). destruct Hin. }
    destruct (decode_resize content (Registry.input_size d)) as [arr|e'];
      cbn [mbind result_bind]; [|split; intros H; inversion H; reflexivity].
    cbn in Hm.
    destruct Hm as [<-|[<-|[<-|[<-|[]]]]]; cbn; split; intros H; discriminate H.
Qed.

End facts.

End PreprocessingFacts.
